(** * yescode-tui: the API client and the Bubble Tea model, embedded in Rocq

    The development follows the two Go packages of the repository:

    - [api]: the HTTP client of [internal/api/client.go] ([get], [put],
      [do], and the six operations built on them), written over an explicit
      network state so that the requests really sent can be counted;
    - [tui]: the model of [internal/tui/model.go] ([Model],
      [providerState], [Update] and every handler it dispatches to), with
      the Bubble Tea commands as a data type and the event loop as a step
      relation on a model together with its commands in flight.

    Go's [int] is modelled as [Z] wrapped to 64 bits, slices as lists,
    pointers that may be nil as [option], the map [providerData] as a
    [gmap] from provider ids to entries. *)

From Stdlib Require Import ZArith String Ascii List Lia Floats.PrimFloat.
From stdpp Require Import gmap strings list pretty.

Open Scope string_scope.
Open Scope Z_scope.

(** ** Go integers *)

(** Two's complement wrap-around of a 64-bit [int]. *)
Definition wrap64 (z : Z) : Z := (z + 2 ^ 63) mod 2 ^ 64 - 2 ^ 63.

Definition int_add (a b : Z) : Z := wrap64 (a + b).
Definition int_sub (a b : Z) : Z := wrap64 (a - b).

(** [len(s)] of a slice. *)
Definition len {A} (l : list A) : Z := Z.of_nat (length l).

(** [s[i]] for an [int] index; [None] stands for the run-time panic. *)
Definition index {A} (l : list A) (i : Z) : option A :=
  if i <? 0 then None else l !! Z.to_nat i.

(** [strings.Contains]. *)
Fixpoint contains (s sub : string) : bool :=
  String.prefix sub s ||
  match s with
  | EmptyString => false
  | String _ rest => contains rest sub
  end.

(** [fmt.Sprintf("%d", n)]. *)
Definition sprint_d (n : Z) : string := pretty n.

(** * The API client *)

Module api.

(** The values of Go's [error] interface that the client produces. *)
Inductive error : Type :=
  | ErrorString (msg : string)
  | WrapError (prefix : string) (inner : error)
  | APIError (StatusCode : Z) (Message Body : string).

Fixpoint Error (e : error) : string :=
  match e with
  | ErrorString msg => msg
  | WrapError prefix inner => prefix ++ ": " ++ Error inner
  | APIError code msg body =>
      if negb (String.eqb msg "")
      then "yescode api error: status=" ++ sprint_d code ++ " message=" ++ msg
      else "yescode api error: status=" ++ sprint_d code ++ " body=" ++ body
  end.

Record PlanInfo := {
  Name : string;
  Price : float;
  IsActive : bool;
  DailyBalance : float;
  WeeklyLimit : float;
  MonthlySpendLimit : float
}.

Record Profile := {
  Email : string;
  Username : string;
  Balance : float;
  SubscriptionBalance : float;
  PayAsYouGoBalance : float;
  BalancePreference : string;
  SubscriptionExpiry : string;
  CurrentWeekSpend : float;
  CurrentMonthSpend : float;
  SubscriptionPlan : PlanInfo
}.

Record ProviderInfo := {
  ID : Z;
  DisplayName : string;
  Type_ : string;
  Description : string
}.

Record ProviderBucket := {
  Provider : ProviderInfo;
  RateMultiplier : float;
  IsDefault : bool;
  Source : string
}.

Record ProvidersResponse := {
  HasPaygBalance : bool;
  HasSubscription : bool;
  Providers : list ProviderBucket
}.

Record ProviderAlternative := {
  altID : Z;
  altDisplayName : string;
  altType : string;
  altRateMultiplier : float;
  altDescription : string
}.

Record AlternativeOption := {
  IsSelf : bool;
  Alternative : ProviderAlternative
}.

Record AlternativeResponse := { Data : list AlternativeOption }.

Record ProviderSelection := {
  ProviderID : Z;
  SelectedAlternativeID : Z;
  SelectedAlternative : ProviderAlternative
}.

Record BalancePreferenceResponse := {
  respBalancePreference : string;
  UpdatedAt : string
}.

Record selectionEnvelope := { envData : ProviderSelection }.

Record errorPayload := { payloadError : string; payloadMessage : string }.

(** Zero values, as [var x T] gives them. *)
Definition zeroAlternative : ProviderAlternative :=
  {| altID := 0; altDisplayName := ""; altType := "";
     altRateMultiplier := 0%float; altDescription := "" |}.
Definition zeroSelection : ProviderSelection :=
  {| ProviderID := 0; SelectedAlternativeID := 0;
     SelectedAlternative := zeroAlternative |}.
Definition zeroPlan : PlanInfo :=
  {| Name := ""; Price := 0%float; IsActive := false; DailyBalance := 0%float;
     WeeklyLimit := 0%float; MonthlySpendLimit := 0%float |}.
Definition zeroProfile : Profile :=
  {| Email := ""; Username := ""; Balance := 0%float;
     SubscriptionBalance := 0%float; PayAsYouGoBalance := 0%float;
     BalancePreference := ""; SubscriptionExpiry := "";
     CurrentWeekSpend := 0%float; CurrentMonthSpend := 0%float;
     SubscriptionPlan := zeroPlan |}.

(** *** Requests and the network *)

Inductive Method := MethodGet | MethodPut.

Record Request := {
  reqMethod : Method;
  reqURL : string;
  reqBody : option string;
  reqHeader : list (string * string)
}.

(** What [httpClient.Do] hands back: a status code and the outcome of
    [io.ReadAll] on the body. *)
Record Response := {
  respStatusCode : Z;
  respBody : error + string
}.

(** The bodies [put] is called with: [map[string]int] and
    [map[string]string] with one key. *)
Inductive Payload :=
  | PayloadInt (key : string) (value : Z)
  | PayloadString (key value : string).

Definition defaultBaseURL := "https://co.yes.vg".
Definition defaultUserAgent := "yescode-tui/0.1".

Record Client := { baseURL : string; apiKey : string }.

Definition NewClient (key : string) (opts : list (Client → Client))
  : error + Client :=
  if String.eqb key "" then inl (ErrorString "api key is required")
  else inr (fold_left (λ c opt, opt c) opts
              {| apiKey := key; baseURL := defaultBaseURL |}).

Definition WithBaseURL (base : string) : Client → Client :=
  λ c, {| baseURL := base; apiKey := apiKey c |}.

(** The parts of [net/http] and [encoding/json] the client calls (the
    [http.Client] can be replaced through [WithHTTPClient]). The remote side
    is a transition function on a state [World] of its own: what a request is
    answered with may depend on every request before it. *)
Class Transport := {
  World : Type;
  roundTrip : Request → World → (error + Response) * World;
  parseURL : string → option error;
  jsonUnmarshal : ∀ Out : Type, string → Out → option error * Out;
  jsonUnmarshalPayload : string → option errorPayload;
  jsonEncode : Payload → error + string
}.

Section Client.

Context `{T : Transport}.

(** The network as the client sees it: the remote state, and the log of
    the requests that [httpClient.Do] has sent so far. *)
Record Net := { remote : World; sent : list Request }.

(** Client code runs in a state monad over [Net]. *)
Definition M (A : Type) : Type := Net → A * Net.

Definition ret {A} (a : A) : M A := λ n, (a, n).

Definition bind {A B} (c : M A) (k : A → M B) : M B :=
  λ n, let '(a, n1) := c n in k a n1.

Notation "x <~ c ;; k" := (bind c (λ x, k))
  (at level 100, c at next level, right associativity).

Definition httpClientDo (req : Request) : M (error + Response) :=
  λ n, let '(r, w) := roundTrip req (remote n) in
       (r, {| remote := w; sent := sent n ++ [req] |}).

Variable c : Client.

Definition newRequest (method : Method) (path : string) (body : option string)
  : error + Request :=
  let url := baseURL c ++ path in
  match parseURL url with
  | Some err => inl err
  | None =>
      inr {| reqMethod := method; reqURL := url; reqBody := body;
             reqHeader := [("X-API-Key", apiKey c);
                           ("Accept", "application/json");
                           ("User-Agent", defaultUserAgent)] |}
  end.

(** The message of the [APIError] that [do] builds from an error body. *)
Definition apiErrorMessage (bodyBytes : string) : string :=
  match jsonUnmarshalPayload bodyBytes with
  | Some payload =>
      if negb (String.eqb (payloadMessage payload) "")
      then payloadMessage payload
      else if negb (String.eqb (payloadError payload) "")
      then payloadError payload
      else ""
  | None => ""
  end.

(** [do]: the value behind the [out] pointer goes in and comes out. *)
Definition do {Out} (req : Request) (out : Out) : M (option error * Out) :=
  r <~ httpClientDo req ;;
  match r with
  | inl err => ret (Some err, out)
  | inr resp =>
      match respBody resp with
      | inl err => ret (Some err, out)
      | inr bodyBytes =>
          if 300 <=? respStatusCode resp then
            ret (Some (APIError (respStatusCode resp)
                         (apiErrorMessage bodyBytes) bodyBytes), out)
          else if 0 <? Z.of_nat (String.length bodyBytes) then
            match jsonUnmarshal Out bodyBytes out with
            | (Some err, out') =>
                ret (Some (WrapError "decode response" err), out')
            | (None, out') => ret (None, out')
            end
          else ret (None, out)
      end
  end.

(** The loop of [get]: [remaining] is [2 - attempt]. *)
Fixpoint get_loop {Out} (remaining : nat) (path : string)
    (lastErr : option error) (out : Out) : M (option error * Out) :=
  match remaining with
  | O => ret (lastErr, out)
  | S remaining' =>
      match newRequest MethodGet path None with
      | inl err => ret (Some err, out)
      | inr req =>
          r <~ do req out ;;
          match r with
          | (None, out') => ret (None, out')
          | (Some err, out') => get_loop remaining' path (Some err) out'
          end
      end
  end.

Definition get {Out} (path : string) (out : Out) : M (option error * Out) :=
  get_loop 2 path None out.

Definition withContentType (req : Request) : Request :=
  {| reqMethod := reqMethod req; reqURL := reqURL req; reqBody := reqBody req;
     reqHeader := reqHeader req ++ [("Content-Type", "application/json")] |}.

Definition put {Out} (path : string) (body : option Payload) (out : Out)
  : M (option error * Out) :=
  let encoded : error + option string :=
    match body with
    | None => inr None
    | Some b => match jsonEncode b with
                | inl err => inl (WrapError "encode body" err)
                | inr s => inr (Some s)
                end
    end in
  match encoded with
  | inl err => ret (Some err, out)
  | inr buf =>
      match newRequest MethodPut path buf with
      | inl err => ret (Some err, out)
      | inr req => do (withContentType req) out
      end
  end.

(** *** The six operations *)

(** What every operation does with the outcome of [get] or [put]. *)
Definition result {Out A} (f : Out → A) (r : option error * Out) : error + A :=
  match r with
  | (Some err, _) => inl err
  | (None, out) => inr (f out)
  end.

Definition GetProfile : M (error + Profile) :=
  r <~ get "/api/v1/auth/profile" zeroProfile ;;
  ret (result id r).

Definition GetAvailableProviders : M (error + ProvidersResponse) :=
  r <~ get "/api/v1/user/available-providers"
        {| HasPaygBalance := false; HasSubscription := false; Providers := [] |} ;;
  ret (result id r).

Definition GetProviderAlternatives (providerID : Z)
  : M (error + list AlternativeOption) :=
  let path := "/api/v1/user/provider-alternatives/" ++ sprint_d providerID in
  r <~ get path {| Data := [] |} ;;
  ret (result Data r).

Definition GetProviderSelection (providerID : Z)
  : M (error + ProviderSelection) :=
  let path := "/api/v1/user/provider-alternatives/" ++ sprint_d providerID
              ++ "/selection" in
  r <~ get path {| envData := zeroSelection |} ;;
  ret (result envData r).

Definition SwitchProvider (providerID alternativeID : Z)
  : M (error + ProviderSelection) :=
  let path := "/api/v1/user/provider-alternatives/" ++ sprint_d providerID
              ++ "/selection" in
  let payload := PayloadInt "selected_alternative_id" alternativeID in
  r <~ put path (Some payload) {| envData := zeroSelection |} ;;
  ret (result envData r).

Definition UpdateBalancePreference (preference : string)
  : M (error + BalancePreferenceResponse) :=
  if String.eqb preference "" then ret (inl (ErrorString "preference is required"))
  else
    let payload := PayloadString "balance_preference" preference in
    r <~ put "/api/v1/user/balance-preference" (Some payload)
          {| respBalancePreference := ""; UpdatedAt := "" |} ;;
    ret (result id r).

(** The body [put] sends, when it can be encoded. *)
Definition encoded (body : option api.Payload) (buf : option string) : Prop :=
  match body with
  | None => buf = None
  | Some b => ∃ s, api.jsonEncode b = inr s ∧ buf = Some s
  end.

(** The number of requests sent between two network states. *)
Definition attempts (n n' : Net) : nat := length (sent n') - length (sent n).

(** [op], run from [n], sends [req] and nothing else, as many times as it
    sends anything. *)
Definition sends {A} (op : M A) (n : Net) (req : Request) : Prop :=
  sent (snd (op n))
  = (sent n ++ replicate (attempts n (snd (op n))) req)%list.

(** The network after one round trip of [req] that left the remote side
    in [w]. *)
Definition after (n : Net) (req : Request) (w : World) : Net :=
  {| remote := w; sent := (sent n ++ [req])%list |}.

End Client.

(** A transport for examples: the remote side answers from a script, one
    outcome per request, and refuses the connection when the script is over;
    every URL parses, and decoding leaves [out] as it is. *)
Definition scriptedTransport : Transport :=
  {| World := list (error + Response);
     roundTrip := λ _ script,
       match script with
       | [] => (inl (ErrorString "connection refused"), [])
       | r :: rest => (r, rest)
       end;
     parseURL := λ _, None;
     jsonUnmarshal := λ _ _ out, (None, out);
     jsonUnmarshalPayload := λ _, None;
     jsonEncode := λ b,
       match b with
       | PayloadInt _ _ | PayloadString _ _ => inr "{}"
       end |}.

Definition serverError : error + Response :=
  inr {| respStatusCode := 500; respBody := inr "oops" |}.

Definition serverOK : error + Response :=
  inr {| respStatusCode := 200; respBody := inr "{}" |}.

(** *** The requests of the operations

    What [newRequest] builds for a read and for a write of [path], and the
    two paths that carry a provider id. *)

Definition signedHeader (c : Client) : list (string * string) :=
  [("X-API-Key", apiKey c); ("Accept", "application/json");
   ("User-Agent", defaultUserAgent)].

Definition readRequest (c : Client) (path : string) : Request :=
  {| reqMethod := MethodGet; reqURL := baseURL c ++ path; reqBody := None;
     reqHeader := signedHeader c |}.

Definition writeRequest (c : Client) (path : string) (body : string) : Request :=
  {| reqMethod := MethodPut; reqURL := baseURL c ++ path; reqBody := Some body;
     reqHeader := (signedHeader c ++ [("Content-Type", "application/json")])%list |}.

Definition alternativesPath (providerID : Z) : string :=
  "/api/v1/user/provider-alternatives/" ++ sprint_d providerID.

Definition selectionPath (providerID : Z) : string :=
  "/api/v1/user/provider-alternatives/" ++ sprint_d providerID ++ "/selection".

(** A transport for examples that refuses a URL with a line feed in it, as
    [net/url] refuses control characters, and answers like
    [scriptedTransport]. *)
Definition strictTransport : Transport :=
  {| World := list (error + Response);
     roundTrip := λ _ script,
       match script with
       | [] => (inl (ErrorString "connection refused"), [])
       | r :: rest => (r, rest)
       end;
     parseURL := λ url,
       if contains url (String (ascii_of_nat 10) EmptyString)
       then Some (ErrorString "net/url: invalid control character in URL")
       else None;
     jsonUnmarshal := λ _ _ out, (None, out);
     jsonUnmarshalPayload := λ _, None;
     jsonEncode := λ b,
       match b with
       | PayloadInt _ _ | PayloadString _ _ => inr "{}"
       end |}.

(** An answer without content. *)
Definition serverNoContent : error + Response :=
  inr {| respStatusCode := 204; respBody := inr "" |}.

(** A transport for examples whose encoder refuses every payload. *)
Definition brokenEncoder : Transport :=
  {| World := list (error + Response);
     roundTrip := λ _ script,
       match script with
       | [] => (inl (ErrorString "connection refused"), [])
       | r :: rest => (r, rest)
       end;
     parseURL := λ _, None;
     jsonUnmarshal := λ _ _ out, (None, out);
     jsonUnmarshalPayload := λ _, None;
     jsonEncode := λ _, inl (ErrorString "json: unsupported value") |}.

(** *** What a read and a write come to

    The outcome of an operation, told from the round trips of [do]: a read
    tries once, tries a second time when the first attempt failed, and
    returns what the last attempt gave; a write tries once. Neither sends
    anything when the request cannot be built. *)

Section Outcomes.

Context `{T : Transport}.
Variable c : Client.

Definition readOutcome {Out A} (f : Out → A) (path : string) (zero : Out)
    (n : Net) : (error + A) * Net :=
  match parseURL (baseURL c ++ path) with
  | Some err => (inl err, n)
  | None =>
      let req := readRequest c path in
      match do req zero n with
      | (None, out1, n1) => (inr (f out1), n1)
      | (Some _, out1, n1) =>
          match do req out1 n1 with
          | (None, out2, n2) => (inr (f out2), n2)
          | (Some err2, _, n2) => (inl err2, n2)
          end
      end
  end.

(** The requests a read sends. *)
Definition readRequests {Out} (path : string) (zero : Out) (n : Net)
  : list Request :=
  match parseURL (baseURL c ++ path) with
  | Some _ => []
  | None =>
      let req := readRequest c path in
      match do req zero n with
      | (None, _, _) => [req]
      | (Some _, _, _) => [req; req]
      end
  end.

Definition writeOutcome {Out A} (f : Out → A) (path : string)
    (payload : Payload) (zero : Out) (n : Net) : (error + A) * Net :=
  match jsonEncode payload with
  | inl err => (inl (WrapError "encode body" err), n)
  | inr body =>
      match parseURL (baseURL c ++ path) with
      | Some err => (inl err, n)
      | None =>
          match do (writeRequest c path body) zero n with
          | (None, out1, n1) => (inr (f out1), n1)
          | (Some err1, _, n1) => (inl err1, n1)
          end
      end
  end.

(** The requests a write sends. *)
Definition writeRequests (path : string) (payload : Payload) : list Request :=
  match jsonEncode payload, parseURL (baseURL c ++ path) with
  | inr body, None => [writeRequest c path body]
  | _, _ => []
  end.

End Outcomes.

End api.

(** * The terminal model *)

Module tui.

Inductive focusArea := focusProviders | focusAlternatives.

Inductive tabIndex := tabProfile | tabProviders | tabBalancePreference.

(** [tabIndex] is an [int]; the two conversions give the arithmetic on it. *)
Definition tabToZ (t : tabIndex) : Z :=
  match t with
  | tabProfile => 0
  | tabProviders => 1
  | tabBalancePreference => 2
  end.

Definition tabOfZ (z : Z) : tabIndex :=
  if z =? 1 then tabProviders
  else if z =? 2 then tabBalancePreference
  else tabProfile.

(** UI layout constants; durations are in nanoseconds, as [time.Duration]. *)
Definition Second : Z := 1000000000.
Definition defaultViewportHeight : Z := 20.
Definition defaultPanelHeight : Z := 10.
Definition minPanelWidth : Z := 30.
Definition viewportWidthMargin : Z := 4.
Definition profileRefreshInterval : Z := 5 * Second.
Definition statusClearDelay : Z := 2 * Second.
Definition errorClearDelay : Z := 3 * Second.

Record uiLayout := {
  titleLineY : Z;
  helpLineY : Z;
  tabHeaderY : Z;
  contentStartY : Z;
  panelInnerOffsetY : Z;
  panelInnerOffsetX : Z
}.

Definition getUILayout : uiLayout :=
  {| titleLineY := 0; helpLineY := 2; tabHeaderY := 4; contentStartY := 6;
     panelInnerOffsetY := 2; panelInnerOffsetX := 3 |}.

(** ** The Bubbles components the model embeds

    Their state is kept to what the model reads or writes: the spinner's
    frame, the help bar's width, the viewport's geometry, lines and offset. *)

Record spinnerModel := { frame : Z }.

Record helpModel := { helpWidth : Z }.

Record viewportModel := {
  vpWidth : Z;
  vpHeight : Z;
  vpYOffset : Z;
  vpLines : list string
}.

Definition viewportNew (w h : Z) : viewportModel :=
  {| vpWidth := w; vpHeight := h; vpYOffset := 0; vpLines := [] |}.

Definition maxYOffset (vp : viewportModel) : Z :=
  Z.max 0 (len (vpLines vp) - vpHeight vp).

Definition AtTop (vp : viewportModel) : bool := vpYOffset vp <=? 0.

Definition AtBottom (vp : viewportModel) : bool := vpYOffset vp >=? maxYOffset vp.

Definition SetYOffset (n : Z) (vp : viewportModel) : viewportModel :=
  {| vpWidth := vpWidth vp; vpHeight := vpHeight vp;
     vpYOffset := Z.max 0 (Z.min n (maxYOffset vp)); vpLines := vpLines vp |}.

Definition LineUp (n : Z) (vp : viewportModel) : viewportModel :=
  if AtTop vp || (n =? 0) || (len (vpLines vp) =? 0) then vp
  else SetYOffset (vpYOffset vp - n) vp.

Definition LineDown (n : Z) (vp : viewportModel) : viewportModel :=
  if AtBottom vp || (n =? 0) || (len (vpLines vp) =? 0) then vp
  else SetYOffset (vpYOffset vp + n) vp.

(** ** The model *)

Record providerState := {
  alternatives : list api.AlternativeOption;
  selection : option api.ProviderSelection;
  alternativesLoaded : bool;
  selectionLoaded : bool;
  loadingAlternatives : bool;
  loadingSelection : bool;
  switching : bool;
  lastError : option api.error
}.

(** [&providerState{}]. *)
Definition zeroState : providerState :=
  {| alternatives := []; selection := None; alternativesLoaded := false;
     selectionLoaded := false; loadingAlternatives := false;
     loadingSelection := false; switching := false; lastError := None |}.

Record Model := {
  profile : option api.Profile;
  providers : list api.ProviderBucket;
  providerIdx : Z;
  altIdx : Z;
  balancePreferenceIdx : Z;
  focus : focusArea;
  currentTab : tabIndex;
  ready : bool;
  status : string;
  err : option api.error;
  width : Z;
  height : Z;
  providerData : gmap Z providerState;
  preferenceSwitching : bool;
  spinner : spinnerModel;
  help : helpModel;
  profileViewport : viewportModel;
  providersLoaded : bool;
  loadingProviders : bool;
  loadingProfile : bool;
  manualRefreshingProfile : bool;
  showHelpDialog : bool
}.

(** Field assignments, [s.f = v] and [m.f = v]. *)

Definition set_alternatives (v : list api.AlternativeOption) (s : providerState) : providerState :=
  Build_providerState v (selection s) (alternativesLoaded s) (selectionLoaded
    s) (loadingAlternatives s) (loadingSelection s) (switching s) (lastError
    s).

Definition set_selection (v : option api.ProviderSelection) (s : providerState) : providerState :=
  Build_providerState (alternatives s) v (alternativesLoaded s)
    (selectionLoaded s) (loadingAlternatives s) (loadingSelection s)
    (switching s) (lastError s).

Definition set_alternativesLoaded (v : bool) (s : providerState) : providerState :=
  Build_providerState (alternatives s) (selection s) v (selectionLoaded s)
    (loadingAlternatives s) (loadingSelection s) (switching s) (lastError s).

Definition set_selectionLoaded (v : bool) (s : providerState) : providerState :=
  Build_providerState (alternatives s) (selection s) (alternativesLoaded s) v
    (loadingAlternatives s) (loadingSelection s) (switching s) (lastError s).

Definition set_loadingAlternatives (v : bool) (s : providerState) : providerState :=
  Build_providerState (alternatives s) (selection s) (alternativesLoaded s)
    (selectionLoaded s) v (loadingSelection s) (switching s) (lastError s).

Definition set_loadingSelection (v : bool) (s : providerState) : providerState :=
  Build_providerState (alternatives s) (selection s) (alternativesLoaded s)
    (selectionLoaded s) (loadingAlternatives s) v (switching s) (lastError s).

Definition set_switching (v : bool) (s : providerState) : providerState :=
  Build_providerState (alternatives s) (selection s) (alternativesLoaded s)
    (selectionLoaded s) (loadingAlternatives s) (loadingSelection s) v
    (lastError s).

Definition set_lastError (v : option api.error) (s : providerState) : providerState :=
  Build_providerState (alternatives s) (selection s) (alternativesLoaded s)
    (selectionLoaded s) (loadingAlternatives s) (loadingSelection s)
    (switching s) v.

Definition set_profile (v : option api.Profile) (m : Model) : Model :=
  Build_Model v (providers m) (providerIdx m) (altIdx m) (balancePreferenceIdx
    m) (focus m) (currentTab m) (ready m) (status m) (err m) (width m) (height
    m) (providerData m) (preferenceSwitching m) (spinner m) (help m)
    (profileViewport m) (providersLoaded m) (loadingProviders m)
    (loadingProfile m) (manualRefreshingProfile m) (showHelpDialog m).

Definition set_providers (v : list api.ProviderBucket) (m : Model) : Model :=
  Build_Model (profile m) v (providerIdx m) (altIdx m) (balancePreferenceIdx
    m) (focus m) (currentTab m) (ready m) (status m) (err m) (width m) (height
    m) (providerData m) (preferenceSwitching m) (spinner m) (help m)
    (profileViewport m) (providersLoaded m) (loadingProviders m)
    (loadingProfile m) (manualRefreshingProfile m) (showHelpDialog m).

Definition set_providerIdx (v : Z) (m : Model) : Model :=
  Build_Model (profile m) (providers m) v (altIdx m) (balancePreferenceIdx m)
    (focus m) (currentTab m) (ready m) (status m) (err m) (width m) (height m)
    (providerData m) (preferenceSwitching m) (spinner m) (help m)
    (profileViewport m) (providersLoaded m) (loadingProviders m)
    (loadingProfile m) (manualRefreshingProfile m) (showHelpDialog m).

Definition set_altIdx (v : Z) (m : Model) : Model :=
  Build_Model (profile m) (providers m) (providerIdx m) v
    (balancePreferenceIdx m) (focus m) (currentTab m) (ready m) (status m)
    (err m) (width m) (height m) (providerData m) (preferenceSwitching m)
    (spinner m) (help m) (profileViewport m) (providersLoaded m)
    (loadingProviders m) (loadingProfile m) (manualRefreshingProfile m)
    (showHelpDialog m).

Definition set_balancePreferenceIdx (v : Z) (m : Model) : Model :=
  Build_Model (profile m) (providers m) (providerIdx m) (altIdx m) v (focus m)
    (currentTab m) (ready m) (status m) (err m) (width m) (height m)
    (providerData m) (preferenceSwitching m) (spinner m) (help m)
    (profileViewport m) (providersLoaded m) (loadingProviders m)
    (loadingProfile m) (manualRefreshingProfile m) (showHelpDialog m).

Definition set_focus (v : focusArea) (m : Model) : Model :=
  Build_Model (profile m) (providers m) (providerIdx m) (altIdx m)
    (balancePreferenceIdx m) v (currentTab m) (ready m) (status m) (err m)
    (width m) (height m) (providerData m) (preferenceSwitching m) (spinner m)
    (help m) (profileViewport m) (providersLoaded m) (loadingProviders m)
    (loadingProfile m) (manualRefreshingProfile m) (showHelpDialog m).

Definition set_currentTab (v : tabIndex) (m : Model) : Model :=
  Build_Model (profile m) (providers m) (providerIdx m) (altIdx m)
    (balancePreferenceIdx m) (focus m) v (ready m) (status m) (err m) (width
    m) (height m) (providerData m) (preferenceSwitching m) (spinner m) (help
    m) (profileViewport m) (providersLoaded m) (loadingProviders m)
    (loadingProfile m) (manualRefreshingProfile m) (showHelpDialog m).

Definition set_status (v : string) (m : Model) : Model :=
  Build_Model (profile m) (providers m) (providerIdx m) (altIdx m)
    (balancePreferenceIdx m) (focus m) (currentTab m) (ready m) v (err m)
    (width m) (height m) (providerData m) (preferenceSwitching m) (spinner m)
    (help m) (profileViewport m) (providersLoaded m) (loadingProviders m)
    (loadingProfile m) (manualRefreshingProfile m) (showHelpDialog m).

Definition set_err (v : option api.error) (m : Model) : Model :=
  Build_Model (profile m) (providers m) (providerIdx m) (altIdx m)
    (balancePreferenceIdx m) (focus m) (currentTab m) (ready m) (status m) v
    (width m) (height m) (providerData m) (preferenceSwitching m) (spinner m)
    (help m) (profileViewport m) (providersLoaded m) (loadingProviders m)
    (loadingProfile m) (manualRefreshingProfile m) (showHelpDialog m).

Definition set_width (v : Z) (m : Model) : Model :=
  Build_Model (profile m) (providers m) (providerIdx m) (altIdx m)
    (balancePreferenceIdx m) (focus m) (currentTab m) (ready m) (status m)
    (err m) v (height m) (providerData m) (preferenceSwitching m) (spinner m)
    (help m) (profileViewport m) (providersLoaded m) (loadingProviders m)
    (loadingProfile m) (manualRefreshingProfile m) (showHelpDialog m).

Definition set_height (v : Z) (m : Model) : Model :=
  Build_Model (profile m) (providers m) (providerIdx m) (altIdx m)
    (balancePreferenceIdx m) (focus m) (currentTab m) (ready m) (status m)
    (err m) (width m) v (providerData m) (preferenceSwitching m) (spinner m)
    (help m) (profileViewport m) (providersLoaded m) (loadingProviders m)
    (loadingProfile m) (manualRefreshingProfile m) (showHelpDialog m).

Definition set_providerData (v : gmap Z providerState) (m : Model) : Model :=
  Build_Model (profile m) (providers m) (providerIdx m) (altIdx m)
    (balancePreferenceIdx m) (focus m) (currentTab m) (ready m) (status m)
    (err m) (width m) (height m) v (preferenceSwitching m) (spinner m) (help
    m) (profileViewport m) (providersLoaded m) (loadingProviders m)
    (loadingProfile m) (manualRefreshingProfile m) (showHelpDialog m).

Definition set_preferenceSwitching (v : bool) (m : Model) : Model :=
  Build_Model (profile m) (providers m) (providerIdx m) (altIdx m)
    (balancePreferenceIdx m) (focus m) (currentTab m) (ready m) (status m)
    (err m) (width m) (height m) (providerData m) v (spinner m) (help m)
    (profileViewport m) (providersLoaded m) (loadingProviders m)
    (loadingProfile m) (manualRefreshingProfile m) (showHelpDialog m).

Definition set_spinner (v : spinnerModel) (m : Model) : Model :=
  Build_Model (profile m) (providers m) (providerIdx m) (altIdx m)
    (balancePreferenceIdx m) (focus m) (currentTab m) (ready m) (status m)
    (err m) (width m) (height m) (providerData m) (preferenceSwitching m) v
    (help m) (profileViewport m) (providersLoaded m) (loadingProviders m)
    (loadingProfile m) (manualRefreshingProfile m) (showHelpDialog m).

Definition set_help (v : helpModel) (m : Model) : Model :=
  Build_Model (profile m) (providers m) (providerIdx m) (altIdx m)
    (balancePreferenceIdx m) (focus m) (currentTab m) (ready m) (status m)
    (err m) (width m) (height m) (providerData m) (preferenceSwitching m)
    (spinner m) v (profileViewport m) (providersLoaded m) (loadingProviders m)
    (loadingProfile m) (manualRefreshingProfile m) (showHelpDialog m).

Definition set_profileViewport (v : viewportModel) (m : Model) : Model :=
  Build_Model (profile m) (providers m) (providerIdx m) (altIdx m)
    (balancePreferenceIdx m) (focus m) (currentTab m) (ready m) (status m)
    (err m) (width m) (height m) (providerData m) (preferenceSwitching m)
    (spinner m) (help m) v (providersLoaded m) (loadingProviders m)
    (loadingProfile m) (manualRefreshingProfile m) (showHelpDialog m).

Definition set_providersLoaded (v : bool) (m : Model) : Model :=
  Build_Model (profile m) (providers m) (providerIdx m) (altIdx m)
    (balancePreferenceIdx m) (focus m) (currentTab m) (ready m) (status m)
    (err m) (width m) (height m) (providerData m) (preferenceSwitching m)
    (spinner m) (help m) (profileViewport m) v (loadingProviders m)
    (loadingProfile m) (manualRefreshingProfile m) (showHelpDialog m).

Definition set_loadingProviders (v : bool) (m : Model) : Model :=
  Build_Model (profile m) (providers m) (providerIdx m) (altIdx m)
    (balancePreferenceIdx m) (focus m) (currentTab m) (ready m) (status m)
    (err m) (width m) (height m) (providerData m) (preferenceSwitching m)
    (spinner m) (help m) (profileViewport m) (providersLoaded m) v
    (loadingProfile m) (manualRefreshingProfile m) (showHelpDialog m).

Definition set_loadingProfile (v : bool) (m : Model) : Model :=
  Build_Model (profile m) (providers m) (providerIdx m) (altIdx m)
    (balancePreferenceIdx m) (focus m) (currentTab m) (ready m) (status m)
    (err m) (width m) (height m) (providerData m) (preferenceSwitching m)
    (spinner m) (help m) (profileViewport m) (providersLoaded m)
    (loadingProviders m) v (manualRefreshingProfile m) (showHelpDialog m).

Definition set_manualRefreshingProfile (v : bool) (m : Model) : Model :=
  Build_Model (profile m) (providers m) (providerIdx m) (altIdx m)
    (balancePreferenceIdx m) (focus m) (currentTab m) (ready m) (status m)
    (err m) (width m) (height m) (providerData m) (preferenceSwitching m)
    (spinner m) (help m) (profileViewport m) (providersLoaded m)
    (loadingProviders m) (loadingProfile m) v (showHelpDialog m).

Definition set_showHelpDialog (v : bool) (m : Model) : Model :=
  Build_Model (profile m) (providers m) (providerIdx m) (altIdx m)
    (balancePreferenceIdx m) (focus m) (currentTab m) (ready m) (status m)
    (err m) (width m) (height m) (providerData m) (preferenceSwitching m)
    (spinner m) (help m) (profileViewport m) (providersLoaded m)
    (loadingProviders m) (loadingProfile m) (manualRefreshingProfile m) v.

(** ** Messages and commands *)

Inductive KeyType := KeyCtrlC | KeyOther.

(** A key press: its type and what [msg.String()] gives. *)
Record KeyMsg := { keyType : KeyType; keyString : string }.

Inductive MouseButton :=
  | MouseButtonNone
  | MouseButtonLeft
  | MouseButtonMiddle
  | MouseButtonRight
  | MouseButtonWheelUp
  | MouseButtonWheelDown.

Inductive MouseAction := MouseActionPress | MouseActionRelease | MouseActionMotion.

Record MouseMsg := {
  mouseX : Z;
  mouseY : Z;
  mouseButton : MouseButton;
  mouseAction : MouseAction
}.

(** The messages [Update] receives. The pointers the completion messages
    carry are never nil: the commands below build them from [&profile],
    [&resp] and [&env.Data]. *)
Inductive Msg :=
  | WindowSizeMsg (Width Height : Z)
  | keyMsg (k : KeyMsg)
  | mouseMsg (e : MouseMsg)
  | profileLoadedMsg (profile : api.Profile)
  | providersLoadedMsg (response : api.ProvidersResponse)
  | alternativesLoadedMsg (providerID : Z) (alternatives : list api.AlternativeOption)
  | selectionLoadedMsg (providerID : Z) (selection : api.ProviderSelection)
  | switchCompletedMsg (providerID : Z) (selection : api.ProviderSelection)
  | preferenceUpdatedMsg (preference : string)
  | preferenceFailedMsg (err : api.error)
  | providerLoadFailedMsg (providerID : Z) (target : string) (err : api.error)
  | errMsg (err : api.error)
  | clearStatusMsg
  | profileRefreshTickMsg
  | spinnerTickMsg.

(** A [tea.Cmd] is a closure that will run an operation of the client or a
    timer; as data, it is the call it will make. [nil] is the empty list,
    [tea.Batch] is concatenation. *)
Inductive Cmd :=
  | loadProfileCmd
  | loadProvidersCmd
  | loadAlternativesCmd (providerID : Z)
  | loadSelectionCmd (providerID : Z)
  | switchProviderCmd (providerID alternativeID : Z)
  | updatePreferenceCmd (preference : string)
  | clearStatusAfter (d : Z)
  | profileRefreshTicker
  | spinnerTick
  | teaQuit.

Definition isNil (cmd : list Cmd) : bool :=
  match cmd with
  | [] => true
  | _ => false
  end.

(** What each command's closure returns, given the outcome of its call. *)
Definition run_loadProfileCmd (r : api.error + api.Profile) : Msg :=
  match r with
  | inl err => errMsg err
  | inr profile => profileLoadedMsg profile
  end.

Definition run_loadProvidersCmd (r : api.error + api.ProvidersResponse) : Msg :=
  match r with
  | inl err => errMsg err
  | inr resp => providersLoadedMsg resp
  end.

Definition run_loadAlternativesCmd (providerID : Z)
    (r : api.error + list api.AlternativeOption) : Msg :=
  match r with
  | inl err => providerLoadFailedMsg providerID "alternatives" err
  | inr alts => alternativesLoadedMsg providerID alts
  end.

Definition run_loadSelectionCmd (providerID : Z)
    (r : api.error + api.ProviderSelection) : Msg :=
  match r with
  | inl err => providerLoadFailedMsg providerID "selection" err
  | inr selection => selectionLoadedMsg providerID selection
  end.

Definition run_switchProviderCmd (providerID : Z)
    (r : api.error + api.ProviderSelection) : Msg :=
  match r with
  | inl err => providerLoadFailedMsg providerID "switch" err
  | inr selection => switchCompletedMsg providerID selection
  end.

Definition run_updatePreferenceCmd (r : api.error + api.BalancePreferenceResponse)
  : Msg :=
  match r with
  | inl err => preferenceFailedMsg err
  | inr resp => preferenceUpdatedMsg (api.respBalancePreference resp)
  end.

(** [delivers c msg]: running [c] can send [msg] back to [Update]. *)
Inductive delivers : Cmd → Msg → Prop :=
  | delivers_profile r : delivers loadProfileCmd (run_loadProfileCmd r)
  | delivers_providers r : delivers loadProvidersCmd (run_loadProvidersCmd r)
  | delivers_alternatives id r :
      delivers (loadAlternativesCmd id) (run_loadAlternativesCmd id r)
  | delivers_selection id r :
      delivers (loadSelectionCmd id) (run_loadSelectionCmd id r)
  | delivers_switch id alt r :
      delivers (switchProviderCmd id alt) (run_switchProviderCmd id r)
  | delivers_preference pref r :
      delivers (updatePreferenceCmd pref) (run_updatePreferenceCmd r)
  | delivers_clear d : delivers (clearStatusAfter d) clearStatusMsg
  | delivers_refresh : delivers profileRefreshTicker profileRefreshTickMsg
  | delivers_spinner : delivers spinnerTick spinnerTickMsg.

(** ** Construction *)

Definition NewModel : Model :=
  {| profile := None; providers := []; providerIdx := 0; altIdx := 0;
     balancePreferenceIdx := 0; focus := focusProviders;
     currentTab := tabProfile; ready := true; status := ""; err := None;
     width := 0; height := 0; providerData := ∅;
     preferenceSwitching := false; spinner := {| frame := 0 |};
     help := {| helpWidth := 0 |};
     profileViewport := viewportNew 0 defaultViewportHeight;
     providersLoaded := false; loadingProviders := false;
     loadingProfile := true; manualRefreshingProfile := false;
     showHelpDialog := false |}.

Definition Init : list Cmd := [loadProfileCmd; spinnerTick; profileRefreshTicker].

(** ** Cursors and the per-provider cache *)

Definition clampIndex (idx length : Z) : Z :=
  if idx <? 0 then 0
  else if idx >=? length then length - 1
  else idx.

Definition currentProviderID (m : Model) : Z :=
  if len (providers m) =? 0 then 0
  else
    match index (providers m) (clampIndex (providerIdx m) (len (providers m))) with
    | Some bucket => api.ID (api.Provider bucket)
    | None => 0
    end.

(** [ensureProviderState] returns a pointer. The model it returns is [m]
    with the entry created when it was missing; the state it returns is what
    the pointer points to. For id 0 the pointer is to a fresh entry that is
    in no map. *)
Definition ensureProviderState (m : Model) (providerID : Z)
  : Model * providerState :=
  if providerID =? 0 then (m, zeroState)
  else
    match providerData m !! providerID with
    | Some state => (m, state)
    | None =>
        (set_providerData (<[providerID := zeroState]> (providerData m)) m,
         zeroState)
    end.

(** A write through the pointer [ensureProviderState m providerID] gave:
    it lands in the map, except for the detached entry of id 0. *)
Definition storeProviderState (m : Model) (providerID : Z) (state : providerState)
  : Model :=
  if providerID =? 0 then m
  else set_providerData (<[providerID := state]> (providerData m)) m.

Fixpoint findAlternativeIndex_from (i : Z) (alts : list api.AlternativeOption)
    (id : Z) : Z :=
  match alts with
  | [] => -1
  | alt :: rest =>
      if api.altID (api.Alternative alt) =? id then i
      else findAlternativeIndex_from (i + 1) rest id
  end.

Definition findAlternativeIndex (alts : list api.AlternativeOption) (id : Z) : Z :=
  findAlternativeIndex_from 0 alts id.

(** The cursor [syncAltIdx] leaves: the index of the active selection when
    it is in the list, 0 for an empty list, the old cursor clamped otherwise. *)
Definition syncedIdx (state : providerState) (cur : Z) : Z :=
  let idx :=
    match selection state with
    | Some sel =>
        if 0 <? len (alternatives state)
        then findAlternativeIndex (alternatives state)
               (api.SelectedAlternativeID sel)
        else -1
    | None => -1
    end in
  if idx >=? 0 then idx
  else if len (alternatives state) =? 0 then 0
  else clampIndex cur (len (alternatives state)).

Definition syncAltIdx (m : Model) (providerID : Z) : Model :=
  if (providerID =? 0) || negb (providerID =? currentProviderID m) then m
  else
    let '(m, state) := ensureProviderState m providerID in
    set_altIdx (syncedIdx state (altIdx m)) m.

Definition describePreference (pref : string) : string :=
  if String.eqb pref "subscription_first" then "优先订阅"
  else if String.eqb pref "payg_only" then "仅按需付费"
  else if String.eqb pref "" then "未知"
  else pref.

Definition syncBalancePreferenceIdx (m : Model) : Model :=
  match profile m with
  | None => set_balancePreferenceIdx 0 m
  | Some p =>
      if String.eqb (api.BalancePreference p) "payg_only"
      then set_balancePreferenceIdx 1 m
      else set_balancePreferenceIdx 0 m
  end.

(** ** Actions *)

Definition ensureProvidersLoaded (m : Model) : Model * list Cmd :=
  if providersLoaded m || loadingProviders m then (m, [])
  else
    (set_status "加载提供商列表中..." (set_loadingProviders true m),
     [loadProvidersCmd]).

Definition queueProviderDetailLoad (m : Model) (providerID : Z)
  : Model * list Cmd :=
  if providerID =? 0 then (m, [])
  else
    let '(m, state) := ensureProviderState m providerID in
    let needAlternatives :=
      negb (alternativesLoaded state) && negb (loadingAlternatives state) in
    let state :=
      if needAlternatives then set_loadingAlternatives true state else state in
    let cmds :=
      if needAlternatives then [loadAlternativesCmd providerID] else [] in
    let needSelection :=
      negb (selectionLoaded state) && negb (loadingSelection state) in
    let state :=
      if needSelection then set_loadingSelection true state else state in
    let cmds :=
      (cmds ++ (if needSelection then [loadSelectionCmd providerID] else []))%list in
    let loading := needAlternatives || needSelection in
    let m := storeProviderState m providerID state in
    let m :=
      if loading
      then set_status ("加载提供商 " ++ sprint_d providerID ++ " 详情中...") m
      else m in
    let m :=
      if alternativesLoaded state && selectionLoaded state
      then syncAltIdx m providerID
      else m in
    (m, cmds).

Definition moveSelection (m : Model) (delta : Z) : Model * list Cmd :=
  if len (providers m) =? 0 then (m, [])
  else
    match focus m with
    | focusProviders =>
        let m :=
          set_providerIdx
            (clampIndex (int_add (providerIdx m) delta) (len (providers m))) m in
        let m := syncAltIdx m (currentProviderID m) in
        queueProviderDetailLoad m (currentProviderID m)
    | focusAlternatives =>
        let '(m, state) := ensureProviderState m (currentProviderID m) in
        if len (alternatives state) =? 0 then (m, [])
        else
          (set_altIdx
             (clampIndex (int_add (altIdx m) delta) (len (alternatives state))) m,
           [])
    end.

Definition refreshProfile (m : Model) : Model * list Cmd :=
  (set_manualRefreshingProfile true (set_loadingProfile true m), [loadProfileCmd]).

Definition refreshCurrentProvider (m : Model) : Model * list Cmd :=
  if len (providers m) =? 0 then (m, [])
  else
    let '(m, state) := ensureProviderState m (currentProviderID m) in
    let state :=
      set_loadingSelection false
        (set_selectionLoaded false
           (set_loadingAlternatives false
              (set_alternativesLoaded false state))) in
    let m := storeProviderState m (currentProviderID m) state in
    queueProviderDetailLoad m (currentProviderID m).

(** [state.alternatives[m.altIdx]] panics on a negative index; [altIdx] is
    never negative (lemma [cursors_invariant]), and that branch returns
    without a command. *)
Definition switchSelection (m : Model) : Model * list Cmd :=
  if len (providers m) =? 0 then (m, [])
  else
    let '(m, state) := ensureProviderState m (currentProviderID m) in
    if switching state || loadingAlternatives state
       || (len (alternatives state) =? 0)
    then (m, [])
    else if altIdx m >=? len (alternatives state) then (m, [])
    else
      match index (alternatives state) (altIdx m) with
      | None => (m, [])
      | Some chosen =>
          let target := api.Alternative chosen in
          let active :=
            match selection state with
            | Some sel => api.SelectedAlternativeID sel =? api.altID target
            | None => false
            end in
          if active
          then (set_status ("已在使用 " ++ api.altDisplayName target) m, [])
          else
            let m :=
              storeProviderState m (currentProviderID m)
                (set_switching true state) in
            let m :=
              set_status ("切换到 " ++ api.altDisplayName target ++ " 中...") m in
            (m, [switchProviderCmd (currentProviderID m) (api.altID target)])
      end.

Definition toggleBalancePreference (m : Model) : Model * list Cmd :=
  match profile m with
  | None => (m, [])
  | Some p =>
      if preferenceSwitching m then (m, [])
      else
        let target :=
          if balancePreferenceIdx m =? 0 then "subscription_first"
          else "payg_only" in
        if String.eqb target (api.BalancePreference p) then (m, [])
        else
          (set_status ("切换余额偏好到 " ++ describePreference target ++ "...")
             (set_preferenceSwitching true m),
           [updatePreferenceCmd target])
  end.

(** ** Completion handlers *)

Definition handleWindowResize (m : Model) (w h : Z) : Model :=
  set_help {| helpWidth := w |} (set_height h (set_width w m)).

Definition handleProfileLoaded (m : Model) (p : api.Profile) : Model :=
  set_status ""
    (set_manualRefreshingProfile false
       (set_loadingProfile false (set_profile (Some p) m))).

Definition handleProfileRefreshTick (m : Model) : Model * list Cmd :=
  match currentTab m with
  | tabProfile => (m, [loadProfileCmd; profileRefreshTicker])
  | _ => (m, [profileRefreshTicker])
  end.

Definition handleProvidersLoaded (m : Model) (response : api.ProvidersResponse)
  : Model * list Cmd :=
  let m :=
    set_loadingProviders false
      (set_providersLoaded true (set_providers (api.Providers response) m)) in
  let m :=
    if providerIdx m >=? len (providers m) then set_providerIdx 0 m else m in
  let m :=
    if contains (status m) "加载提供商列表中" then set_status "" m else m in
  if 0 <? len (providers m)
  then queueProviderDetailLoad m (currentProviderID m)
  else (m, []).

(** The test both load handlers end with. *)
Definition clearLoadingStatus (m : Model) (state : providerState) : Model :=
  if alternativesLoaded state && selectionLoaded state
     && contains (status m) "加载提供商"
  then set_status "" m
  else m.

Definition handleAlternativesLoaded (m : Model) (providerID : Z)
    (alts : list api.AlternativeOption) : Model :=
  let '(m, state) := ensureProviderState m providerID in
  let state :=
    set_lastError None
      (set_loadingAlternatives false
         (set_alternativesLoaded true (set_alternatives alts state))) in
  let m := storeProviderState m providerID state in
  let m := syncAltIdx m providerID in
  clearLoadingStatus m state.

Definition handleSelectionLoaded (m : Model) (providerID : Z)
    (sel : api.ProviderSelection) : Model :=
  let '(m, state) := ensureProviderState m providerID in
  let state :=
    set_lastError None
      (set_loadingSelection false
         (set_selectionLoaded true (set_selection (Some sel) state))) in
  let m := storeProviderState m providerID state in
  let m := syncAltIdx m providerID in
  clearLoadingStatus m state.

Definition handleSwitchCompleted (m : Model) (providerID : Z)
    (sel : api.ProviderSelection) : Model * list Cmd :=
  let '(m, state) := ensureProviderState m providerID in
  let state :=
    set_lastError None
      (set_switching false
         (set_selectionLoaded true (set_selection (Some sel) state))) in
  let m := storeProviderState m providerID state in
  let m := syncAltIdx m providerID in
  (set_status ("已切换到 " ++ api.altDisplayName (api.SelectedAlternative sel)) m,
   [clearStatusAfter statusClearDelay]).

Definition handlePreferenceUpdated (m : Model) (preference : string)
  : Model * list Cmd :=
  let m :=
    match profile m with
    | Some p =>
        set_profile
          (Some {| api.Email := api.Email p; api.Username := api.Username p;
                   api.Balance := api.Balance p;
                   api.SubscriptionBalance := api.SubscriptionBalance p;
                   api.PayAsYouGoBalance := api.PayAsYouGoBalance p;
                   api.BalancePreference := preference;
                   api.SubscriptionExpiry := api.SubscriptionExpiry p;
                   api.CurrentWeekSpend := api.CurrentWeekSpend p;
                   api.CurrentMonthSpend := api.CurrentMonthSpend p;
                   api.SubscriptionPlan := api.SubscriptionPlan p |}) m
    | None => m
    end in
  let m := set_preferenceSwitching false m in
  let m := syncBalancePreferenceIdx m in
  (set_status ("余额偏好已切换为 " ++ describePreference preference) m,
   [clearStatusAfter statusClearDelay]).

Definition handlePreferenceFailed (m : Model) (e : api.error)
  : Model * list Cmd :=
  (set_status ("余额偏好切换失败: " ++ api.Error e)
     (set_err (Some e) (set_preferenceSwitching false m)),
   [clearStatusAfter errorClearDelay]).

Definition handleProviderLoadFailed (m : Model) (providerID : Z)
    (target : string) (e : api.error) : Model * list Cmd :=
  let '(m, state) := ensureProviderState m providerID in
  let state :=
    if String.eqb target "alternatives" then set_loadingAlternatives false state
    else if String.eqb target "selection" then set_loadingSelection false state
    else if String.eqb target "switch" then set_switching false state
    else state in
  let state := set_lastError (Some e) state in
  let m := storeProviderState m providerID state in
  (set_status ("提供商 " ++ sprint_d providerID ++ ": " ++ api.Error e)
     (set_err (Some e) m),
   [clearStatusAfter errorClearDelay]).

Definition handleError (m : Model) (e : api.error) : Model * list Cmd :=
  let m := set_status (api.Error e) (set_err (Some e) m) in
  let m := if loadingProviders m then set_loadingProviders false m else m in
  let m :=
    if loadingProfile m
    then set_manualRefreshingProfile false (set_loadingProfile false m)
    else m in
  (m, [clearStatusAfter errorClearDelay]).

Definition handleClearStatus (m : Model) : Model :=
  set_err None (set_status "" m).

(** ** Keys *)

Definition handleQuitAndHelp (m : Model) (key : string) : Model * list Cmd :=
  if String.eqb key "esc" then
    if showHelpDialog m then (set_showHelpDialog false m, [])
    else (m, [teaQuit])
  else if String.eqb key "?" || String.eqb key "？" then
    (set_showHelpDialog (negb (showHelpDialog m)) m, [])
  else (m, []).

Definition handleTabChanged (m : Model) : Model * list Cmd :=
  match currentTab m with
  | tabProviders => ensureProvidersLoaded (set_focus focusProviders m)
  | tabBalancePreference => (syncBalancePreferenceIdx m, [])
  | tabProfile => (m, [])
  end.

Definition switchToNextTab (m : Model) : Model * list Cmd :=
  handleTabChanged
    (set_currentTab (tabOfZ (Z.rem (tabToZ (currentTab m) + 1) 3)) m).

Definition switchToPrevTab (m : Model) : Model * list Cmd :=
  handleTabChanged
    (set_currentTab (tabOfZ (Z.rem (tabToZ (currentTab m) - 1 + 3) 3)) m).

Definition handleTabSwitch (m : Model) (key : string) : Model * list Cmd :=
  if String.eqb key "1" then (set_currentTab tabProfile m, [])
  else if String.eqb key "2" then
    ensureProvidersLoaded (set_focus focusProviders (set_currentTab tabProviders m))
  else if String.eqb key "3" then
    (syncBalancePreferenceIdx (set_currentTab tabBalancePreference m), [])
  else if String.eqb key "tab" then switchToNextTab m
  else if String.eqb key "shift+tab" then switchToPrevTab m
  else (m, []).

Definition handleFocusSwitch (m : Model) (key : string) : Model :=
  match currentTab m with
  | tabProviders =>
      if String.eqb key "left" || String.eqb key "h"
      then set_focus focusProviders m
      else if String.eqb key "right" || String.eqb key "l"
      then
        let m := set_focus focusAlternatives m in
        syncAltIdx m (currentProviderID m)
      else m
  | _ => m
  end.

Definition handleRefresh (m : Model) (key : string) : Model * list Cmd :=
  if negb (String.eqb key "r") then (m, [])
  else
    match currentTab m with
    | tabProfile => refreshProfile m
    | tabProviders => refreshCurrentProvider m
    | tabBalancePreference => (m, [])
    end.

Definition handleEnter (m : Model) (key : string) : Model * list Cmd :=
  if negb (String.eqb key "enter") then (m, [])
  else
    match currentTab m with
    | tabProviders =>
        match focus m with
        | focusAlternatives => switchSelection m
        | focusProviders => (m, [])
        end
    | tabBalancePreference => toggleBalancePreference m
    | tabProfile => (m, [])
    end.

Definition handleNavigation (m : Model) (key : string) : Model * list Cmd :=
  let delta :=
    if String.eqb key "up" || String.eqb key "k" then Some (-1)
    else if String.eqb key "down" || String.eqb key "j" then Some 1
    else None in
  match delta with
  | None => (m, [])
  | Some delta =>
      match currentTab m with
      | tabProfile =>
          if delta <? 0
          then (set_profileViewport (LineUp 1 (profileViewport m)) m, [])
          else (set_profileViewport (LineDown 1 (profileViewport m)) m, [])
      | tabBalancePreference =>
          (set_balancePreferenceIdx
             (clampIndex (int_add (balancePreferenceIdx m) delta) 2) m, [])
      | tabProviders => moveSelection m delta
      end
  end.

(** Each handler's command is returned as soon as it is not nil. *)
Definition handleKey (m : Model) (msg : KeyMsg) : Model * list Cmd :=
  match keyType msg with
  | KeyCtrlC => (m, [teaQuit])
  | KeyOther =>
      let key := keyString msg in
      let '(m, cmd) := handleQuitAndHelp m key in
      if negb (isNil cmd) then (m, cmd) else
      let '(m, cmd) := handleTabSwitch m key in
      if negb (isNil cmd) then (m, cmd) else
      let m := handleFocusSwitch m key in
      let '(m, cmd) := handleRefresh m key in
      if negb (isNil cmd) then (m, cmd) else
      let '(m, cmd) := handleEnter m key in
      if negb (isNil cmd) then (m, cmd) else
      let '(m, cmd) := handleNavigation m key in
      if negb (isNil cmd) then (m, cmd) else
      (m, [])
  end.

(** ** Mouse *)

Definition handleMouseWheel (m : Model) (delta : Z) : Model * list Cmd :=
  match currentTab m with
  | tabProfile =>
      if delta <? 0
      then (set_profileViewport (LineUp 1 (profileViewport m)) m, [])
      else (set_profileViewport (LineDown 1 (profileViewport m)) m, [])
  | _ => moveSelection m delta
  end.

(** [lipgloss.Width] of the two rendered tab labels: the label's cells
    (a CJK character takes two), padding 2 + 2 and margin 1. *)
Definition tab1Width : Z := 11 + 4 + 1.
Definition tab2Width : Z := 9 + 4 + 1.

Definition handleTabClick (m : Model) (x : Z) : Model * list Cmd :=
  let tab1End := tab1Width in
  let tab2End := tab1End + tab2Width in
  if x <? tab1End then (set_currentTab tabProfile m, [])
  else if x <? tab2End then
    ensureProvidersLoaded (set_focus focusProviders (set_currentTab tabProviders m))
  else (syncBalancePreferenceIdx (set_currentTab tabBalancePreference m), []).

Definition handleProvidersClick (m : Model) (x contentY : Z) : Model * list Cmd :=
  if len (providers m) =? 0 then (m, [])
  else
    let listItemY := int_sub contentY (panelInnerOffsetY getUILayout) in
    if x <? Z.quot (width m) 2 then
      let m := set_focus focusProviders m in
      if (listItemY >=? 0) && (listItemY <? len (providers m)) then
        let m := set_providerIdx listItemY m in
        queueProviderDetailLoad m (currentProviderID m)
      else (m, [])
    else
      let m := set_focus focusAlternatives m in
      let '(m, state) := ensureProviderState m (currentProviderID m) in
      if alternativesLoaded state then
        if (listItemY >=? 0) && (listItemY <? len (alternatives state))
        then switchSelection (set_altIdx listItemY m)
        else (syncAltIdx m (currentProviderID m), [])
      else (m, []).

Definition handleBalancePreferenceClick (m : Model) (contentY : Z)
  : Model * list Cmd :=
  let targetIdx :=
    if (contentY >=? 0) && (contentY <=? 2) then Some 0
    else if (contentY >=? 4) && (contentY <=? 6) then Some 1
    else None in
  match targetIdx with
  | None => (m, [])
  | Some targetIdx =>
      if negb (balancePreferenceIdx m =? targetIdx)
      then toggleBalancePreference (set_balancePreferenceIdx targetIdx m)
      else (m, [])
  end.

Definition handleContentClick (m : Model) (x y : Z) : Model * list Cmd :=
  let contentY := int_sub y (contentStartY getUILayout) in
  match currentTab m with
  | tabProviders => handleProvidersClick m x contentY
  | tabBalancePreference => handleBalancePreferenceClick m contentY
  | tabProfile => (m, [])
  end.

Definition handleMouse (m : Model) (msg : MouseMsg) : Model * list Cmd :=
  match mouseButton msg with
  | MouseButtonWheelUp => handleMouseWheel m (-1)
  | MouseButtonWheelDown => handleMouseWheel m 1
  | MouseButtonLeft =>
      match mouseAction msg with
      | MouseActionPress =>
          if mouseY msg =? tabHeaderY getUILayout
          then handleTabClick m (mouseX msg)
          else if mouseY msg >=? contentStartY getUILayout
          then handleContentClick m (mouseX msg) (mouseY msg)
          else (m, [])
      | _ => (m, [])
      end
  | _ => (m, [])
  end.

(** ** Update *)

(** [spinner.Update]: a tick advances the frame and asks for the next tick;
    every other message is ignored. *)
Definition spinnerFrames : Z := 8.

Definition spinner_Update (sp : spinnerModel) (msg : Msg)
  : spinnerModel * list Cmd :=
  match msg with
  | spinnerTickMsg =>
      ({| frame := if frame sp + 1 >=? spinnerFrames then 0 else frame sp + 1 |},
       [spinnerTick])
  | _ => (sp, [])
  end.

Definition Update (m : Model) (msg : Msg) : Model * list Cmd :=
  let '(m, cmds) :=
    match msg with
    | WindowSizeMsg w h => (handleWindowResize m w h, [])
    | keyMsg k => handleKey m k
    | mouseMsg e => handleMouse m e
    | profileLoadedMsg p => (handleProfileLoaded m p, [])
    | profileRefreshTickMsg => handleProfileRefreshTick m
    | providersLoadedMsg response => handleProvidersLoaded m response
    | alternativesLoadedMsg id alts => (handleAlternativesLoaded m id alts, [])
    | selectionLoadedMsg id sel => (handleSelectionLoaded m id sel, [])
    | switchCompletedMsg id sel => handleSwitchCompleted m id sel
    | preferenceUpdatedMsg pref => handlePreferenceUpdated m pref
    | preferenceFailedMsg e => handlePreferenceFailed m e
    | providerLoadFailedMsg id target e => handleProviderLoadFailed m id target e
    | errMsg e => handleError m e
    | clearStatusMsg => (handleClearStatus m, [])
    | spinnerTickMsg => (m, [])
    end in
  let '(sp, cmd) := spinner_Update (spinner m) msg in
  (set_spinner sp m, (cmds ++ cmd)%list).

(** [Update] over a list of messages, oldest first, with every command
    issued on the way. *)
Fixpoint run (m : Model) (msgs : list Msg) : Model * list Cmd :=
  match msgs with
  | [] => (m, [])
  | msg :: rest =>
      let '(m1, cmds1) := Update m msg in
      let '(m2, cmds2) := run m1 rest in
      (m2, (cmds1 ++ cmds2)%list)
  end.

(** ** The renderer

    [View] is modelled where the state machine meets it: the body of the
    profile tab, the status line, and the two places where rendering writes
    to the model. Styling and number formatting are Lipgloss's and [fmt]'s. *)

Inductive style := titleStyle | accentBold.

Class Renderer := {
  spinnerView : spinnerModel → string;
  styleRender : style → string → string;
  sprintf_2f : float → string;
  sprintf_1f : float → string;
  formatDate : string → string;
  viewportView : viewportModel → string
}.

Definition newline : string := String (ascii_of_nat 10) EmptyString.

(** [strings.Join]. *)
Fixpoint join (lines : list string) (sep : string) : string :=
  match lines with
  | [] => ""
  | [l] => l
  | l :: rest => l ++ sep ++ join rest sep
  end.

(** [strings.Split(s, "\n")], with [cur] the line read so far. *)
Fixpoint splitLines_from (cur : string) (s : string) : list string :=
  match s with
  | EmptyString => [cur]
  | String c rest =>
      if Ascii.eqb c (ascii_of_nat 10) then cur :: splitLines_from "" rest
      else splitLines_from (cur ++ String c EmptyString) rest
  end.

Definition splitLines (s : string) : list string := splitLines_from "" s.

(** [viewport.SetContent]: new lines, and the offset pulled back to the
    bottom when it is past the last line. *)
Definition SetContent (s : string) (vp : viewportModel) : viewportModel :=
  let vp :=
    {| vpWidth := vpWidth vp; vpHeight := vpHeight vp;
       vpYOffset := vpYOffset vp; vpLines := splitLines s |} in
  if vpYOffset vp >? len (vpLines vp) - 1 then SetYOffset (maxYOffset vp) vp
  else vp.

Definition contentHeight (m : Model) : Z := defaultViewportHeight.

Definition setupProfileViewport (m : Model) (content : string) : Model :=
  let vp := SetContent content (profileViewport m) in
  let vp :=
    {| vpWidth := if width m >? 0 then width m - viewportWidthMargin
                  else vpWidth vp;
       vpHeight := contentHeight m; vpYOffset := vpYOffset vp;
       vpLines := vpLines vp |} in
  set_profileViewport vp m.

Definition isInputb (msg : Msg) : bool :=
  match msg with
  | WindowSizeMsg _ _ | keyMsg _ | mouseMsg _ => true
  | _ => false
  end.

Section Rendering.

Context `{R : Renderer}.

Definition renderAccountInfo (p : api.Profile) : list string :=
  [styleRender titleStyle "账户信息";
   "  用户名：" ++ api.Username p;
   "  邮箱：" ++ api.Email p].

Definition renderBalanceOverview (p : api.Profile) : list string :=
  [styleRender titleStyle "余额概览";
   "  ● 订阅余额：$" ++ sprintf_2f (api.SubscriptionBalance p);
   "  ● 按需余额：$" ++ sprintf_2f (api.PayAsYouGoBalance p);
   "  ● 总余额：$" ++ sprintf_2f (api.Balance p);
   "  ● 余额偏好：" ++ describePreference (api.BalancePreference p)].

Definition percent (spend limit : float) : float :=
  if PrimFloat.ltb 0%float limit
  then PrimFloat.mul (PrimFloat.div spend limit) 100%float
  else 0%float.

Definition renderSubscriptionPlan (p : api.Profile) : list string :=
  let plan := api.SubscriptionPlan p in
  let expiry :=
    if negb (String.eqb (api.SubscriptionExpiry p) "")
    then ["  ● 到期：" ++ formatDate (api.SubscriptionExpiry p)]
    else [] in
  app
    [styleRender titleStyle "订阅计划";
     "  ● 计划：" ++ api.Name plan ++ " ($" ++ sprintf_2f (api.Price plan) ++ ")"]
    (app expiry
       ["  ● 每日额度：$" ++ sprintf_2f (api.DailyBalance plan);
        "  ● 本周：$" ++ sprintf_2f (api.CurrentWeekSpend p) ++ " / $"
          ++ sprintf_2f (api.WeeklyLimit plan) ++ " ("
          ++ sprintf_1f (percent (api.CurrentWeekSpend p) (api.WeeklyLimit plan))
          ++ "%)";
        "  ● 本月：$" ++ sprintf_2f (api.CurrentMonthSpend p) ++ " / $"
          ++ sprintf_2f (api.MonthlySpendLimit plan) ++ " ("
          ++ sprintf_1f
               (percent (api.CurrentMonthSpend p) (api.MonthlySpendLimit plan))
          ++ "%)"]).

Definition renderSpendingStats (p : api.Profile) : list string :=
  [styleRender titleStyle "消费统计";
   "  ● 本周消费：$" ++ sprintf_2f (api.CurrentWeekSpend p);
   "  ● 本月消费：$" ++ sprintf_2f (api.CurrentMonthSpend p)].

Definition renderScrollIndicator (m : Model) : string :=
  if AtBottom (profileViewport m) then ""
  else styleRender accentBold "▼ 更多内容".

(** The text the profile tab puts in the viewport. *)
Definition profileContent (p : api.Profile) : string :=
  join
    (app (renderAccountInfo p)
       (app [""]
          (app (renderBalanceOverview p)
             (if negb (String.eqb (api.Name (api.SubscriptionPlan p)) "")
              then "" :: renderSubscriptionPlan p
              else "" :: renderSpendingStats p))))
    newline.

(** [renderProfileTab] returns the model too: it sets up the viewport. *)
Definition renderProfileTab (m : Model) : Model * string :=
  match profile m with
  | None =>
      if negb (manualRefreshingProfile m)
      then (m, "加载中... " ++ spinnerView (spinner m))
      else (m, "")
  | Some p =>
      let m := setupProfileViewport m (profileContent p) in
      let indicator := renderScrollIndicator m in
      (m,
       join (app [viewportView (profileViewport m)]
               (if negb (String.eqb indicator "") then [indicator] else []))
         newline)
  end.

(** The status line of [View]. *)
Definition viewStatusText (m : Model) : string :=
  if manualRefreshingProfile m
     && (match currentTab m with tabProfile => true | _ => false end)
  then "刷新中... " ++ spinnerView (spinner m)
  else if negb (String.eqb (status m) "") then
    if contains (status m) "中..." || contains (status m) "加载"
    then status m ++ " " ++ spinnerView (spinner m)
    else status m
  else "".

(** What a call of [View] leaves in the model: the profile tab sets up its
    viewport, the alternatives panel looks up the current provider's entry
    (and so creates it). *)
Definition viewEffect (m : Model) : Model :=
  match currentTab m with
  | tabProfile => fst (renderProfileTab m)
  | tabProviders =>
      if len (providers m) =? 0 then m
      else fst (ensureProviderState m (currentProviderID m))
  | tabBalancePreference => m
  end.

(** ** The event loop

    Bubble Tea runs [Update] on one message at a time and renders after it.
    A message is an input (a key, the mouse, a resize) or what a command in
    flight delivers; the commands [Update] returns join those in flight. *)

Record System := { model : Model; inflight : list Cmd }.

Definition initial : System := {| model := NewModel; inflight := Init |}.

Definition isInput (msg : Msg) : Prop :=
  match msg with
  | WindowSizeMsg _ _ | keyMsg _ | mouseMsg _ => True
  | _ => False
  end.

(** [step allowed]: one turn of the loop, with inputs taken from [allowed]. *)
Inductive step (allowed : Msg → Prop) : System → System → Prop :=
  | step_input m l msg m' cmds :
      isInput msg → allowed msg →
      Update m msg = (m', cmds) →
      step allowed {| model := m; inflight := l |}
                   {| model := m'; inflight := (l ++ cmds)%list |}
  | step_deliver m l1 c l2 msg m' cmds :
      delivers c msg →
      Update m msg = (m', cmds) →
      step allowed {| model := m; inflight := (l1 ++ c :: l2)%list |}
                   {| model := m'; inflight := (l1 ++ l2 ++ cmds)%list |}
  | step_view m l :
      step allowed {| model := m; inflight := l |}
                   {| model := viewEffect m; inflight := l |}.

Inductive reachable (allowed : Msg → Prop) : System → Prop :=
  | reachable_initial : reachable allowed initial
  | reachable_step s s' :
      reachable allowed s → step allowed s s' → reachable allowed s'.

Definition anyInput (msg : Msg) : Prop := True.

(** Inputs other than the refresh key. *)
Definition noRefresh (msg : Msg) : Prop :=
  match msg with
  | keyMsg k => keyString k ≠ "r"
  | _ => True
  end.

(** *** Running the loop

    [delivers] as a test, and the loop run over a script of events: inputs,
    results (each taken from the first command in flight that can deliver
    it) and renderings. *)

Definition deliversb (c : Cmd) (msg : Msg) : bool :=
  match c, msg with
  | loadProfileCmd, profileLoadedMsg _ => true
  | loadProfileCmd, errMsg _ => true
  | loadProvidersCmd, providersLoadedMsg _ => true
  | loadProvidersCmd, errMsg _ => true
  | loadAlternativesCmd id, alternativesLoadedMsg id' _ => id =? id'
  | loadAlternativesCmd id, providerLoadFailedMsg id' target _ =>
      (id =? id') && String.eqb target "alternatives"
  | loadSelectionCmd id, selectionLoadedMsg id' _ => id =? id'
  | loadSelectionCmd id, providerLoadFailedMsg id' target _ =>
      (id =? id') && String.eqb target "selection"
  | switchProviderCmd id _, switchCompletedMsg id' _ => id =? id'
  | switchProviderCmd id _, providerLoadFailedMsg id' target _ =>
      (id =? id') && String.eqb target "switch"
  | updatePreferenceCmd _, preferenceUpdatedMsg _ => true
  | updatePreferenceCmd _, preferenceFailedMsg _ => true
  | clearStatusAfter _, clearStatusMsg => true
  | profileRefreshTicker, profileRefreshTickMsg => true
  | spinnerTick, spinnerTickMsg => true
  | _, _ => false
  end.

Fixpoint deliverFirst (l : list Cmd) (msg : Msg) : option (list Cmd) :=
  match l with
  | [] => None
  | c :: rest =>
      if deliversb c msg then Some rest
      else option_map (cons c) (deliverFirst rest msg)
  end.

Inductive event :=
  | input (msg : Msg)
  | result (msg : Msg)
  | render.

Fixpoint play (s : System) (events : list event) : option System :=
  match events with
  | [] => Some s
  | input msg :: rest =>
      if isInputb msg then
        let '(m', cmds) := Update (model s) msg in
        play {| model := m'; inflight := (inflight s ++ cmds)%list |} rest
      else None
  | result msg :: rest =>
      match deliverFirst (inflight s) msg with
      | Some l =>
          let '(m', cmds) := Update (model s) msg in
          play {| model := m'; inflight := (l ++ cmds)%list |} rest
      | None => None
      end
  | render :: rest =>
      play {| model := viewEffect (model s); inflight := inflight s |} rest
  end.

(** The inputs of a script. *)
Fixpoint inputsOf (events : list event) : list Msg :=
  match events with
  | [] => []
  | input msg :: rest => msg :: inputsOf rest
  | _ :: rest => inputsOf rest
  end.

End Rendering.

(** ** Reading the cache *)

(** The entry a lookup of [providerID] sees: what [ensureProviderState]
    would return. *)
Definition entry (m : Model) (providerID : Z) : providerState :=
  if providerID =? 0 then zeroState
  else default zeroState (providerData m !! providerID).

Definition b2z (b : bool) : Z := if b then 1 else 0.

(** How many commands of a kind a list holds. *)
Fixpoint count (p : Cmd → bool) (l : list Cmd) : Z :=
  match l with
  | [] => 0
  | c :: rest => b2z (p c) + count p rest
  end.

(** The provider a command is about. *)
Definition scope (c : Cmd) : option Z :=
  match c with
  | loadAlternativesCmd id | loadSelectionCmd id | switchProviderCmd id _ => Some id
  | _ => None
  end.

Definition isAlternativesFetch (id : Z) (c : Cmd) : bool :=
  match c with
  | loadAlternativesCmd id' => id' =? id
  | _ => false
  end.

Definition isSelectionFetch (id : Z) (c : Cmd) : bool :=
  match c with
  | loadSelectionCmd id' => id' =? id
  | _ => false
  end.

Definition isSwitch (id : Z) (c : Cmd) : bool :=
  match c with
  | switchProviderCmd id' _ => id' =? id
  | _ => false
  end.

(** Commands that change something on the server. *)
Definition isMutation (c : Cmd) : bool :=
  match c with
  | switchProviderCmd _ _ | updatePreferenceCmd _ => true
  | _ => false
  end.

(** Commands that only read from the server. *)
Definition isFetch (c : Cmd) : bool :=
  match c with
  | loadProfileCmd | loadProvidersCmd | loadAlternativesCmd _
  | loadSelectionCmd _ => true
  | _ => false
  end.

(** ** Notions used in the statements *)

(** The ids of the provider list. *)
Definition providerIDs (m : Model) : list Z :=
  map (λ bucket, api.ID (api.Provider bucket)) (providers m).

(** The cache after [ensureProviderState], after a write through its
    pointer, and as a lookup reads it. *)
Definition ensured (pd : gmap Z providerState) (id : Z) : gmap Z providerState :=
  if id =? 0 then pd
  else
    match pd !! id with
    | Some _ => pd
    | None => <[id := zeroState]> pd
    end.

Definition stored (pd : gmap Z providerState) (id : Z) (state : providerState)
  : gmap Z providerState :=
  if id =? 0 then pd else <[id := state]> pd.

Definition lookupEntry (pd : gmap Z providerState) (id : Z) : providerState :=
  if id =? 0 then zeroState else default zeroState (pd !! id).

(** The results of the commands that are about one provider. *)
Definition scopedResult (id : Z) (msg : Msg) : Prop :=
  match msg with
  | alternativesLoadedMsg id' _ | selectionLoadedMsg id' _
  | switchCompletedMsg id' _ | providerLoadFailedMsg id' _ _ => id' = id
  | _ => False
  end.

(** What Confirm does when it gets past its guards. *)
Definition confirmed (m : Model) (chosen : api.AlternativeOption) : Model * list Cmd :=
  let G := currentProviderID m in
  let target := api.Alternative chosen in
  let active :=
    match selection (entry m G) with
    | Some sel => api.SelectedAlternativeID sel =? api.altID target
    | None => false
    end in
  if active
  then (set_status ("已在使用 " ++ api.altDisplayName target)
          (set_providerData (ensured (providerData m) G) m), [])
  else
    (set_status ("切换到 " ++ api.altDisplayName target ++ " 中...")
       (set_providerData
          (stored (providerData m) G (set_switching true (entry m G))) m),
     [switchProviderCmd G (api.altID target)]).

(** What [queueProviderDetailLoad] does to the entry it is called on, and
    the commands it returns. *)
Definition needAlternatives (st : providerState) : bool :=
  negb (alternativesLoaded st) && negb (loadingAlternatives st).

Definition needSelection (st : providerState) : bool :=
  negb (selectionLoaded st) && negb (loadingSelection st).

Definition queued (st : providerState) : providerState :=
  let st := if needAlternatives st then set_loadingAlternatives true st else st in
  if needSelection st then set_loadingSelection true st else st.

Definition queueCmds (id : Z) (st : providerState) : list Cmd :=
  ((if needAlternatives st then [loadAlternativesCmd id] else [])
   ++ (if needSelection st then [loadSelectionCmd id] else []))%list.

(** What [refreshCurrentProvider] does to the entry before it queues. *)
Definition invalidated (st : providerState) : providerState :=
  set_loadingSelection false
    (set_selectionLoaded false
       (set_loadingAlternatives false (set_alternativesLoaded false st))).

(** ** Invariants of the event loop *)

(** A flag of the cache entries follows the commands of one kind: it goes
    up by what [cmds] adds. *)
Definition tracks (flag : providerState → bool) (kind : Z → Cmd → bool)
    (m m' : Model) (cmds : list Cmd) : Prop :=
  ∀ id, b2z (flag (entry m' id)) = b2z (flag (entry m id)) + count (kind id) cmds.

(** The alternatives of an entry are not both loaded and being loaded. *)
Definition exclusive (m : Model) : Prop :=
  ∀ id, alternativesLoaded (entry m id) && loadingAlternatives (entry m id) = false.

(** The provider cursor is inside the provider list (0 when the list is
    empty), the preference cursor is 0 or 1, the alternative cursor is not
    negative. *)
Definition cursorsValid (m : Model) : Prop :=
  0 ≤ providerIdx m
  ∧ (providerIdx m < len (providers m) ∨ providerIdx m = 0)
  ∧ 0 ≤ altIdx m
  ∧ 0 ≤ balancePreferenceIdx m ≤ 1.

(** What an input may do to the cache and the cursors, and the commands it
    may return. [loads] says whether the two loading flags are tracked too:
    they are, except by the refresh key. *)
Record effect (loads : bool) (m m' : Model) (cmds : list Cmd) : Prop := {
  eff_providers : providers m' = providers m;
  eff_dom_old : dom (providerData m) ⊆ dom (providerData m');
  eff_dom_new : ∀ id, id ∈ dom (providerData m') →
                  id ∈ dom (providerData m) ∨ (id ≠ 0 ∧ id ∈ providerIDs m);
  eff_scope : ∀ c id, c ∈ cmds → scope c = Some id → id ∈ dom (providerData m');
  eff_switch : tracks switching isSwitch m m' cmds;
  eff_alternatives :
    loads = true → tracks loadingAlternatives isAlternativesFetch m m' cmds;
  eff_selection :
    loads = true → tracks loadingSelection isSelectionFetch m m' cmds;
  eff_exclusive : exclusive m → exclusive m';
  eff_cursors : cursorsValid m → cursorsValid m'
}.

(** The invariant: no entry for id 0; every command in flight about a
    provider finds its entry; a switch is in flight for a provider exactly
    when its flag is up, and then only one; the same for the two fetches
    when [loads]; and the two properties above. *)
Record invariant (loads : bool) (m : Model) (l : list Cmd) : Prop := {
  inv_zero : 0 ∉ dom (providerData m);
  inv_scope : ∀ c id, c ∈ l → scope c = Some id → id ∈ dom (providerData m);
  inv_switch : ∀ id, count (isSwitch id) l = b2z (switching (entry m id));
  inv_alternatives :
    loads = true →
    ∀ id, count (isAlternativesFetch id) l = b2z (loadingAlternatives (entry m id));
  inv_selection :
    loads = true →
    ∀ id, count (isSelectionFetch id) l = b2z (loadingSelection (entry m id));
  inv_exclusive : exclusive m;
  inv_cursors : cursorsValid m
}.

(** A kind of command that is about the provider its first argument names. *)
Definition scopedKind (kind : Z → Cmd → bool) : Prop :=
  ∀ id c, kind id c = true → scope c = Some id.

(** The results that are about no provider, the provider list apart. *)
Definition plainResult (msg : Msg) : Prop :=
  match msg with
  | profileLoadedMsg _ | preferenceUpdatedMsg _ | preferenceFailedMsg _
  | errMsg _ | clearStatusMsg | profileRefreshTickMsg | spinnerTickMsg => True
  | _ => False
  end.

(** ** Navigation *)

Definition navigationKeys : list string :=
  ["1"; "2"; "3"; "tab"; "shift+tab"; "up"; "k"; "down"; "j";
   "left"; "h"; "right"; "l"].

(** The inputs that only navigate: a tab, cursor or focus key, the wheel, a
    click on a tab, a click on the provider list, a resize. Confirm,
    refresh, and a click on an alternative or a preference option are not
    among them. *)
Definition isNavigation (m : Model) (msg : Msg) : bool :=
  match msg with
  | keyMsg k =>
      match keyType k with
      | KeyOther => existsb (String.eqb (keyString k)) navigationKeys
      | KeyCtrlC => false
      end
  | mouseMsg e =>
      match mouseButton e with
      | MouseButtonWheelUp | MouseButtonWheelDown => true
      | MouseButtonLeft =>
          match mouseAction e with
          | MouseActionPress =>
              (mouseY e =? tabHeaderY getUILayout)
              || (match currentTab m with tabProviders => true | _ => false end)
                 && (mouseX e <? Z.quot (width m) 2)
          | _ => false
          end
      | _ => false
      end
  | WindowSizeMsg _ _ => true
  | _ => false
  end.

(** A sequence of events in which every input only navigates; results and
    timers may arrive in between. *)
Fixpoint navigationOnly (m : Model) (msgs : list Msg) : bool :=
  match msgs with
  | [] => true
  | msg :: rest =>
      (isNavigation m msg || negb (isInputb msg))
      && navigationOnly (fst (Update m msg)) rest
  end.

Definition fetchOnly (cmds : list Cmd) : Prop :=
  ∀ c, c ∈ cmds → isFetch c = true.

Definition noMutation (cmds : list Cmd) : Prop :=
  ∀ c, c ∈ cmds → isMutation c = false.

(** ** Scenarios

    The provider groups 3 and 5 and the alternatives 101 and 102 of the
    spec's examples, and the events that reach them. *)

Definition key (s : string) : Msg :=
  keyMsg {| keyType := KeyOther; keyString := s |}.

(** The Confirm key. *)
Definition enterKey : Msg := key "enter".

(** The refresh key. *)
Definition refreshKey : Msg := key "r".

Definition click (x y : Z) : Msg :=
  mouseMsg {| mouseX := x; mouseY := y; mouseButton := MouseButtonLeft;
              mouseAction := MouseActionPress |}.

Definition demoAlternative (id : Z) (name : string) (self : bool)
  : api.AlternativeOption :=
  {| api.IsSelf := self;
     api.Alternative :=
       {| api.altID := id; api.altDisplayName := name; api.altType := "openai";
          api.altRateMultiplier := 1%float; api.altDescription := "" |} |}.

Definition demoSelection (provider id : Z) (name : string)
  : api.ProviderSelection :=
  {| api.ProviderID := provider; api.SelectedAlternativeID := id;
     api.SelectedAlternative := api.Alternative (demoAlternative id name false) |}.

Definition demoBucket (id : Z) (name : string) : api.ProviderBucket :=
  {| api.Provider :=
       {| api.ID := id; api.DisplayName := name; api.Type_ := "openai";
          api.Description := "" |};
     api.RateMultiplier := 1%float; api.IsDefault := false;
     api.Source := "subscription" |}.

Definition demoProviders : api.ProvidersResponse :=
  {| api.HasPaygBalance := true; api.HasSubscription := true;
     api.Providers := [demoBucket 3 "gpt"; demoBucket 5 "claude"] |}.

Definition demoAlternatives : list api.AlternativeOption :=
  [demoAlternative 101 "official" true; demoAlternative 102 "mirror" false].

(** The providers tab with group 3 loaded: alternatives 101 and 102,
    selection 101, focus on the alternatives, cursor on 101. *)
Definition group3Loaded : list Msg :=
  [WindowSizeMsg 80 24; key "2"; providersLoadedMsg demoProviders;
   alternativesLoadedMsg 3 demoAlternatives;
   selectionLoadedMsg 3 (demoSelection 3 101 "official"); key "l"].

(** The text of the status line when Confirm hits the active selection. *)
Definition alreadyActive (target : api.ProviderAlternative) : string :=
  "已在使用 " ++ api.altDisplayName target.

(** Group 3 with a switch to 102 in flight and the cursor back on 101. *)
Definition switchInFlight : list Msg :=
  group3Loaded ++ [key "j"; enterKey; key "k"].

Definition demoProfile : api.Profile :=
  {| api.Email := "user@example.com"; api.Username := "user";
     api.Balance := 57.5%float; api.SubscriptionBalance := 50%float;
     api.PayAsYouGoBalance := 7.5%float;
     api.BalancePreference := "subscription_first";
     api.SubscriptionExpiry := ""; api.CurrentWeekSpend := 1%float;
     api.CurrentMonthSpend := 2%float; api.SubscriptionPlan := api.zeroPlan |}.

(** The loop up to group 3 loaded, rendering on the way: the script of
    [group3Loaded] with each result taken from the command that fetched it. *)
Definition loadGroup3 : list event :=
  [input (WindowSizeMsg 80 24); render; input (key "2"); render;
   result (providersLoadedMsg demoProviders); render;
   result (alternativesLoadedMsg 3 demoAlternatives); render;
   result (selectionLoadedMsg 3 (demoSelection 3 101 "official")); render;
   input (key "l"); render].

(** A switch to 102 is confirmed, the refresh key is pressed while it is in
    flight, and the switch completes before the selection is fetched again. *)
Definition switchDuringRefresh : list event :=
  (loadGroup3
   ++ [input (key "j"); input enterKey; render; input refreshKey; render;
       result (switchCompletedMsg 3 (demoSelection 3 102 "mirror")); render])%list.

(** The refresh key while the first fetches of group 3 are in flight. *)
Definition refreshWhileLoading : list event :=
  [input (key "2"); result (providersLoadedMsg demoProviders); render;
   input refreshKey].

(** The alternatives of group 3 are loaded, the cursor goes to the second
    one, and a click selects group 5 in the provider list. *)
Definition clickOtherProvider : list event :=
  [input (WindowSizeMsg 80 24); input (key "2");
   result (providersLoadedMsg demoProviders); render;
   result (alternativesLoadedMsg 3 demoAlternatives); render;
   input (key "l"); input (key "j"); render;
   input (click 5 9)].

Definition wheel (down : bool) : Msg :=
  mouseMsg {| mouseX := 0; mouseY := 0;
              mouseButton := if down then MouseButtonWheelDown
                             else MouseButtonWheelUp;
              mouseAction := MouseActionPress |}.

(** Navigation over the two groups, with the results arriving in between. *)
Definition browseProviders : list Msg :=
  [WindowSizeMsg 80 24; key "2"; providersLoadedMsg demoProviders;
   alternativesLoadedMsg 3 demoAlternatives; key "j";
   selectionLoadedMsg 3 (demoSelection 3 101 "official");
   key "l"; wheel true; key "h"; click 5 8; key "tab"; key "shift+tab";
   click 20 4; key "k"].

(** A renderer for examples: no styling, two fixed number formats. *)
Definition plainRenderer : Renderer :=
  {| spinnerView := λ _, "*";
     styleRender := λ _ s, s;
     sprintf_2f := λ _, "0.00";
     sprintf_1f := λ _, "0.0";
     formatDate := λ s, s;
     viewportView := λ vp, join (vpLines vp) newline |}.

Definition isAnySwitch (c : Cmd) : bool :=
  match c with
  | switchProviderCmd _ _ => true
  | _ => false
  end.

(** A completion handler is an update of one entry followed by
    [syncAltIdx]: the four of them, with the entry each writes. *)
Definition completed (msg : Msg) (st : providerState) : providerState :=
  match msg with
  | alternativesLoadedMsg _ alts =>
      set_lastError None
        (set_loadingAlternatives false
           (set_alternativesLoaded true (set_alternatives alts st)))
  | selectionLoadedMsg _ sel =>
      set_lastError None
        (set_loadingSelection false
           (set_selectionLoaded true (set_selection (Some sel) st)))
  | switchCompletedMsg _ sel =>
      set_lastError None
        (set_switching false
           (set_selectionLoaded true (set_selection (Some sel) st)))
  | providerLoadFailedMsg _ target e =>
      set_lastError (Some e)
        (if String.eqb target "alternatives" then set_loadingAlternatives false st
         else if String.eqb target "selection" then set_loadingSelection false st
         else if String.eqb target "switch" then set_switching false st
         else st)
  | _ => st
  end.

(** The model after the entry of [id] was written, before the cursor is
    synchronised. *)
Definition written (m : Model) (id : Z) (msg : Msg) : Model :=
  set_providerData (stored (providerData m) id (completed msg (entry m id))) m.

(** ** Notions used in the further statements *)

(** The results after which the handler synchronises the alternative
    cursor: the two loads and the completed switch. *)
Definition syncingResult (id : Z) (msg : Msg) : Prop :=
  match msg with
  | alternativesLoadedMsg id' _ | selectionLoadedMsg id' _
  | switchCompletedMsg id' _ => id' = id
  | _ => False
  end.

(** The order of the tabs. *)
Definition nextTab (t : tabIndex) : tabIndex :=
  match t with
  | tabProfile => tabProviders
  | tabProviders => tabBalancePreference
  | tabBalancePreference => tabProfile
  end.

Definition prevTab (t : tabIndex) : tabIndex :=
  match t with
  | tabProfile => tabBalancePreference
  | tabProviders => tabProfile
  | tabBalancePreference => tabProviders
  end.

(** [p.BalancePreference = pref]. *)
Definition withPreference (pref : string) (p : api.Profile) : api.Profile :=
  {| api.Email := api.Email p; api.Username := api.Username p;
     api.Balance := api.Balance p;
     api.SubscriptionBalance := api.SubscriptionBalance p;
     api.PayAsYouGoBalance := api.PayAsYouGoBalance p;
     api.BalancePreference := pref;
     api.SubscriptionExpiry := api.SubscriptionExpiry p;
     api.CurrentWeekSpend := api.CurrentWeekSpend p;
     api.CurrentMonthSpend := api.CurrentMonthSpend p;
     api.SubscriptionPlan := api.SubscriptionPlan p |}.

(** ** What an input leaves alone

    The kinds of commands that are counted, and what every input keeps:
    the profile, the flag of the provider list, the data of the cache
    entries; the two flags that follow a command in flight go up by what
    the input issues. *)


Definition isPreferenceUpdate (c : Cmd) : bool :=
  match c with
  | updatePreferenceCmd _ => true
  | _ => false
  end.

Definition isRefreshTicker (c : Cmd) : bool :=
  match c with
  | profileRefreshTicker => true
  | _ => false
  end.

Definition isProvidersFetch (c : Cmd) : bool :=
  match c with
  | loadProvidersCmd => true
  | _ => false
  end.

Definition isTimer (c : Cmd) : bool :=
  match c with
  | clearStatusAfter _ | profileRefreshTicker | spinnerTick => true
  | _ => false
  end.

Definition sameData (st st' : providerState) : Prop :=
  alternatives st' = alternatives st
  ∧ selection st' = selection st
  ∧ lastError st' = lastError st.

Definition refreshing (m : Model) : Prop :=
  manualRefreshingProfile m = true → loadingProfile m = true.

Record keeps (m m' : Model) (cmds : list Cmd) : Prop := {
  keeps_profile : profile m' = profile m;
  keeps_providersLoaded : providersLoaded m' = providersLoaded m;
  keeps_loadingProviders :
    b2z (loadingProviders m')
    = b2z (loadingProviders m) + count isProvidersFetch cmds;
  keeps_gate : 0 < count isProvidersFetch cmds → providersLoaded m = false;
  keeps_data : ∀ id, sameData (entry m id) (entry m' id);
  keeps_preference :
    b2z (preferenceSwitching m')
    = b2z (preferenceSwitching m) + count isPreferenceUpdate cmds;
  keeps_timers : ∀ c, c ∈ cmds → isTimer c = false;
  keeps_refreshing : refreshing m → refreshing m'
}.

(** Commands that are neither the fetch of the provider list, nor a
    preference update, nor a timer. *)
Definition quiet (cmds : list Cmd) : Prop :=
  ∀ c, c ∈ cmds →
    isProvidersFetch c = false ∧ isPreferenceUpdate c = false ∧ isTimer c = false.

(** ** What a result leaves alone, and what the loop keeps steady *)

(** The flags of the model that follow the profile, the provider list and
    the preference. *)
Definition sameFlags (m m' : Model) : Prop :=
  profile m' = profile m
  ∧ providers m' = providers m
  ∧ providersLoaded m' = providersLoaded m
  ∧ loadingProviders m' = loadingProviders m
  ∧ preferenceSwitching m' = preferenceSwitching m
  ∧ manualRefreshingProfile m' = manualRefreshingProfile m
  ∧ loadingProfile m' = loadingProfile m.

(** The profile after a result. *)
Definition resultProfile (msg : Msg) (p : option api.Profile) : option api.Profile :=
  match msg with
  | profileLoadedMsg p' => Some p'
  | preferenceUpdatedMsg pref => option_map (withPreference pref) p
  | _ => p
  end.

(** What holds of the model and the commands in flight at every turn of the
    loop: a preference update is in flight exactly when its flag is up, one
    refresh timer is pending, and the mark of a manual refresh is only up
    while the profile is being loaded. *)
Record steady (m : Model) (l : list Cmd) : Prop := {
  steady_preference : count isPreferenceUpdate l = b2z (preferenceSwitching m);
  steady_ticker : count isRefreshTicker l = 1;
  steady_refreshing : refreshing m
}.

(** ** Further scenarios *)

(** The preference tab with the profile loaded, the cursor on the second
    option and Confirm pressed. *)
Definition preferenceConfirmed : list event :=
  [result (profileLoadedMsg demoProfile); render; input (key "3"); render;
   input (key "j"); input enterKey; render].

(** A manual refresh of the profile that is still in flight. *)
Definition profileRefreshed : list event :=
  [result (profileLoadedMsg demoProfile); render; input refreshKey; render;
   result profileRefreshTickMsg].

(** ** The whole view

    [View] and the panels, over the Lipgloss styles they render with. *)

(** The four styles of the help dialog. *)
Inductive helpTextStyle := helpTitle | helpSection | helpNormal | helpHint.

(** The styles and layout functions of Lipgloss that [View] uses, each
    with the parameters the code gives it (a width, a height, whether the
    element is the active one), and [strings.TrimSpace]. *)
Class Lipgloss := {
  renderTitle : Z → string → string;
  renderHint : Z → string → string;
  renderTab : bool → string → string;
  joinHorizontal : list string → string;
  renderPanel : bool → Z → Z → string → string;
  renderStatus : string → string;
  renderError : string → string;
  renderSelected : string → string;
  renderCheck : string → string;
  renderHelpText : helpTextStyle → string → string;
  renderDialog : string → string;
  place : Z → Z → string → string;
  trimSpace : string → string
}.

Definition panelWidth (m : Model) : Z :=
  if width m <=? 0 then 50
  else
    let w := int_sub (Z.quot (width m) 2) 3 in
    if w <? minPanelWidth then minPanelWidth else w.

Definition translateSourceLabel (source : string) : string :=
  if String.eqb source "subscription" then "订阅"
  else if String.eqb source "pay_as_you_go" || String.eqb source "payg" then "按需"
  else source.

Definition formatSourceSuffix (source : string) : string :=
  let label := translateSourceLabel source in
  if String.eqb label "" then "" else " (" ++ label ++ ")".

Definition translateProviderDisplayName (name : string) : string := name.

(** The cursor mark of a row and the blank that stands for it elsewhere. *)
Definition cursorPrefix (here : bool) : string := if here then "▶ " else "  ".

Section Screen.

Context `{R : Renderer} `{L : Lipgloss}.

Definition formatTypeSuffix (providerType : string) : string :=
  let providerType := trimSpace providerType in
  if String.eqb providerType "" then "" else " [" ++ providerType ++ "]".

(** The rows of the provider panel when the list is shown. *)
Definition providerRows (m : Model) : list string :=
  imap (λ i bucket,
          cursorPrefix (Z.of_nat i =? providerIdx m)
          ++ translateProviderDisplayName (api.DisplayName (api.Provider bucket))
          ++ formatSourceSuffix (api.Source bucket)
          ++ formatTypeSuffix (api.Type_ (api.Provider bucket)))
       (providers m).

Definition providerLines (m : Model) : list string :=
  if loadingProviders m then ["加载中... " ++ spinnerView (spinner m)]
  else if len (providers m) =? 0 then ["暂无可用提供商"]
  else providerRows m.

Definition renderProvidersPanel (m : Model) : string :=
  renderPanel (match focus m with focusProviders => true | _ => false end)
    (panelWidth m) defaultPanelHeight (join (providerLines m) newline).

(** The rows of the alternatives panel when the list is shown. *)
Definition alternativeRows (m : Model) (state : providerState) : list string :=
  imap (λ i alt,
          let isCurrentSelection :=
            match selection state with
            | Some sel =>
                api.SelectedAlternativeID sel =? api.altID (api.Alternative alt)
            | None => false
            end in
          let lineText :=
            cursorPrefix (Z.of_nat i =? altIdx m)
            ++ api.altDisplayName (api.Alternative alt) ++ " ×"
            ++ sprintf_2f (api.altRateMultiplier (api.Alternative alt)) in
          if isCurrentSelection
          then renderSelected lineText ++ " " ++ renderCheck "✓"
          else lineText)
       (alternatives state).

Definition alternativeLines (m : Model) : list string :=
  if len (providers m) =? 0 then ["请先选择提供商"]
  else
    let state := entry m (currentProviderID m) in
    if loadingAlternatives state then ["加载中... " ++ spinnerView (spinner m)]
    else
      match lastError state with
      | Some e => [renderError ("⚠ 错误：" ++ api.Error e); ""; "按 r 键重试"]
      | None =>
          if len (alternatives state) =? 0 then ["无可切换方案"]
          else alternativeRows m state
      end.

Definition renderAlternativesPanel (m : Model) : string :=
  renderPanel (match focus m with focusAlternatives => true | _ => false end)
    (panelWidth m) defaultPanelHeight (join (alternativeLines m) newline).

Definition renderPanels (m : Model) : string :=
  joinHorizontal [renderProvidersPanel m; renderAlternativesPanel m].

Definition renderTabHeader (m : Model) : string :=
  joinHorizontal
    [renderTab (match currentTab m with tabProfile => true | _ => false end)
       "1. 用户资料";
     renderTab (match currentTab m with tabProviders => true | _ => false end)
       "2. 提供商";
     renderTab (match currentTab m with tabBalancePreference => true | _ => false end)
       "3. 余额使用偏好"].

(** The three rows of one option of the preference tab. *)
Definition optionRows (m : Model) (p : api.Profile) (idx : Z)
    (label preference : string) (first second : string) : list string :=
  let prefix := cursorPrefix (balancePreferenceIdx m =? idx) in
  [if String.eqb (api.BalancePreference p) preference
   then renderSelected (prefix ++ label) ++ " " ++ renderCheck "✓"
   else prefix ++ label;
   first; second].

(** The rows of the option with index [idx]. *)
Definition preferenceOption (m : Model) (p : api.Profile) (idx : Z) : list string :=
  if idx =? 0
  then optionRows m p 0 "优先订阅" "subscription_first"
         "    先使用订阅余额，然后使用按需付费" "    OPUS 使用限制适用"
  else optionRows m p 1 "仅按需付费" "payg_only"
         "    始终使用按需付费余额" "    无 OPUS 使用限制".

Definition preferenceRows (m : Model) (p : api.Profile) : list string :=
  (preferenceOption m p 0 ++ [""] ++ preferenceOption m p 1)%list.

Definition renderBalancePreferenceTab (m : Model) : string :=
  match profile m with
  | None => "加载中..."
  | Some p => join (preferenceRows m p) newline
  end.

Definition helpContent : list string :=
  [renderHelpText helpTitle "操作帮助";
   "";
   renderHelpText helpSection "鼠标操作";
   renderHelpText helpNormal "  点击标签页        直接切换标签";
   renderHelpText helpNormal "  点击列表项        选择提供商或备选方案";
   renderHelpText helpNormal "  滚轮滚动         滚动内容或移动选择";
   "";
   renderHelpText helpSection "标签页切换";
   renderHelpText helpNormal "  Tab / Shift+Tab  前后切换标签页";
   renderHelpText helpNormal "  1 / 2 / 3        直接跳转到指定标签页";
   "";
   renderHelpText helpSection "导航操作";
   renderHelpText helpNormal "  ↑↓ 或 k/j        上下移动";
   renderHelpText helpNormal "  ←→ 或 h/l        切换焦点（提供商标签页）";
   renderHelpText helpNormal "  Enter           确认选择";
   renderHelpText helpNormal "  r               刷新当前视图";
   "";
   renderHelpText helpSection "其他";
   renderHelpText helpNormal "  ?               显示/隐藏帮助";
   renderHelpText helpNormal "  Esc             关闭帮助或退出程序";
   renderHelpText helpNormal "  Ctrl+C          退出程序";
   "";
   renderHelpText helpHint "按 Esc 或 ? 键关闭此帮助"].

Definition renderHelpDialog (m : Model) : string :=
  renderDialog (join helpContent newline).

(** The part of the screen under the tab header. *)
Definition viewContent (m : Model) : string :=
  match currentTab m with
  | tabProfile => snd (renderProfileTab m)
  | tabProviders => renderPanels m
  | tabBalancePreference => renderBalancePreferenceTab m
  end.

Definition viewSections (m : Model) : list string :=
  [renderTitle (width m) "◆ YesCode TUI ◆";
   renderHint (width m)
     "支持鼠标操作 · Enter 确认 · Esc 退出 · 输入 ? 查看完整操作帮助";
   renderTabHeader m;
   viewContent m;
   renderStatus (viewStatusText m)].

Definition View (m : Model) : string :=
  let mainView := join (viewSections m) (newline ++ newline) in
  if showHelpDialog m
  then place (width m) (height m) (renderHelpDialog m)
  else mainView.

End Screen.

(** A string without a line feed. *)
Fixpoint singleLine (s : string) : bool :=
  match s with
  | EmptyString => true
  | String c rest => negb (Ascii.eqb c (ascii_of_nat 10)) && singleLine rest
  end.

(** ASCII white space, for the example below. *)
Definition isAsciiSpace (c : ascii) : bool :=
  let n := nat_of_ascii c in
  ((9 <=? n)%nat && (n <=? 13)%nat) || (n =? 32)%nat.

Fixpoint trimLeft (s : string) : string :=
  match s with
  | EmptyString => EmptyString
  | String c rest => if isAsciiSpace c then trimLeft rest else s
  end.

Fixpoint trimRight (s : string) : string :=
  match s with
  | EmptyString => EmptyString
  | String c rest =>
      match trimRight rest with
      | EmptyString => if isAsciiSpace c then EmptyString else String c EmptyString
      | rest' => String c rest'
      end
  end.

(** Lipgloss for examples: no styling, no borders, elements side by side
    without a gap. *)
Definition plainLipgloss : Lipgloss :=
  {| renderTitle := λ _ s, s;
     renderHint := λ _ s, s;
     renderTab := λ _ s, s;
     joinHorizontal := λ l, join l " ";
     renderPanel := λ _ _ _ s, s;
     renderStatus := λ s, s;
     renderError := λ s, s;
     renderSelected := λ s, s;
     renderCheck := λ s, s;
     renderHelpText := λ _ s, s;
     renderDialog := λ s, s;
     place := λ _ _ s, s;
     trimSpace := λ s, trimRight (trimLeft s) |}.

(** The preference tab with the profile loaded and the window sized. *)
Definition preferenceTabShown : list Msg :=
  [WindowSizeMsg 80 24; profileLoadedMsg demoProfile; key "3"].

(** What a click on an option of the preference tab does. *)
Definition selectPreference (m : Model) (idx : Z) : Model * list Cmd :=
  if balancePreferenceIdx m =? idx then (m, [])
  else toggleBalancePreference (set_balancePreferenceIdx idx m).


(** ** The key bindings *)

(** A [key.Binding]: the keys it answers to and its help entry. *)
Record keyBinding := { withKeys : list string; withHelp : string * string }.

Record keyMap := {
  Up : keyBinding;
  Down : keyBinding;
  Left : keyBinding;
  Right : keyBinding;
  Tab : keyBinding;
  ShiftTab : keyBinding;
  Enter : keyBinding;
  Refresh : keyBinding;
  Tab1 : keyBinding;
  Tab2 : keyBinding;
  Tab3 : keyBinding;
  Help : keyBinding;
  Quit : keyBinding
}.

Definition ShortHelp (k : keyMap) : list keyBinding :=
  [Up k; Down k; Left k; Right k; Enter k; Quit k].




(** The number key of the tab under a click on the tab header. *)
Definition tabKeyAt (x : Z) : string :=
  if x <? tab1Width then "1"
  else if x <? tab1Width + tab2Width then "2"
  else "3".



(** ** Refreshing while a fetch is in flight *)

(** The fetches for the provider [id] among the commands in flight. *)
Definition fetchesInFlight (l : list Cmd) (id : Z) : Z :=
  count (isAlternativesFetch id) l + count (isSelectionFetch id) l.

(** The refresh key pressed on the providers tab while a fetch for the
    current provider is in flight. *)
Definition refreshesBusy (s : System) (msg : Msg) : bool :=
  match msg with
  | keyMsg k =>
      match keyType k with
      | KeyOther =>
          String.eqb (keyString k) "r"
          && (match currentTab (model s) with
              | tabProviders => true
              | _ => false
              end)
          && (0 <? fetchesInFlight (inflight s) (currentProviderID (model s)))
      | KeyCtrlC => false
      end
  | _ => false
  end.

(** Every input but that one. *)
Definition calmRefresh (s : System) (msg : Msg) : Prop :=
  refreshesBusy s msg = false.

Section Calm.

Context `{R : Renderer}.

(** The states the loop reaches when the inputs it takes in a state are
    those [allowed] there. *)
Inductive reachableWhen (allowed : System → Msg → Prop) : System → Prop :=
  | reachableWhen_initial : reachableWhen allowed initial
  | reachableWhen_step s s' :
      reachableWhen allowed s → step (allowed s) s s' →
      reachableWhen allowed s'.

(** A script whose inputs are all allowed in the state they arrive in. *)
Fixpoint allowedAlong (refused : System → Msg → bool) (s : System)
    (events : list event) : bool :=
  match events with
  | [] => true
  | e :: rest =>
      (match e with
       | input msg => negb (refused s msg)
       | _ => true
       end)
      && match play s [e] with
         | Some s1 => allowedAlong refused s1 rest
         | None => true
         end
  end.

End Calm.

(** The group 3 is loaded and idle when the refresh key is pressed; and the
    refresh key on the profile tab while the first profile is fetched. *)
Definition refreshWhenIdle : list event :=
  ([input refreshKey; render] ++ loadGroup3 ++ [input refreshKey; render])%list.

(** A switch to 102 is confirmed while group 3 is loaded. *)
Definition switchConfirmed : list event :=
  (loadGroup3 ++ [input (key "j"); input enterKey; render])%list.

End tui.
(** * Facts about the API client *)

Section ClientFacts.

Context `{T : api.Transport}.
Variable c : api.Client.

(** [do] sends its request once, whatever comes back. *)
Lemma do_sends_once {Out} (req : api.Request) (out : Out) (n : api.Net) :
  api.sent (snd (api.do req out n)) = (api.sent n ++ [req])%list.
Proof.
  unfold api.do, api.bind, api.httpClientDo, api.ret.
  destruct (api.roundTrip req (api.remote n)) as [[e | resp] w]; simpl; auto.
  destruct (api.respBody resp) as [e | bodyBytes]; simpl; auto.
  destruct (300 <=? api.respStatusCode resp); simpl; auto.
  destruct (0 <? Z.of_nat (String.length bodyBytes)); simpl; auto.
  destruct (api.jsonUnmarshal Out bodyBytes out) as [[e | ] out']; simpl; auto.
Qed.

Lemma attempts_app (n n' : api.Net) (l : list api.Request) :
  api.sent n' = (api.sent n ++ l)%list → api.attempts n n' = length l.
Proof.
  intros H. unfold api.attempts. rewrite H, length_app. lia.
Qed.

(** [get] when the request cannot be built: nothing is sent. *)
Lemma get_no_request {Out} (path : string) (out : Out) (n : api.Net) err :
  api.newRequest c api.MethodGet path None = inl err →
  api.get c path out n = (Some err, out, n).
Proof.
  intros H. unfold api.get. simpl. rewrite H. reflexivity.
Qed.

(** [get] unfolded over its two attempts. *)
Lemma get_two_attempts {Out} (path : string) (out : Out) (n : api.Net) req :
  api.newRequest c api.MethodGet path None = inr req →
  api.get c path out n =
    match api.do req out n with
    | (None, out1, n1) => (None, out1, n1)
    | (Some _, out1, n1) => api.do req out1 n1
    end.
Proof.
  intros H. unfold api.get. simpl. rewrite H. unfold api.bind at 1.
  destruct (api.do req out n) as [[[e1 | ] out1] n1]; [ | reflexivity].
  unfold api.bind, api.ret.
  destruct (api.do req out1 n1) as [[[e2 | ] out2] n2]; reflexivity.
Qed.

Lemma get_sent {Out} (path : string) (out : Out) (n : api.Net) req :
  api.newRequest c api.MethodGet path None = inr req →
  let '(r, _, n') := api.get c path out n in
  match fst (fst (api.do req out n)) with
  | None => r = None ∧ api.sent n' = (api.sent n ++ [req])%list
  | Some _ => api.sent n' = (api.sent n ++ [req; req])%list
  end.
Proof.
  intros H. rewrite (get_two_attempts _ _ _ _ H).
  pose proof (do_sends_once req out n) as H1.
  destruct (api.do req out n) as [[[e1 | ] out1] n1]; simpl in *; [ | auto].
  pose proof (do_sends_once req out1 n1) as H2.
  destruct (api.do req out1 n1) as [[r2 out2] n2]; simpl in *.
  rewrite H2, H1, <- app_assoc. reflexivity.
Qed.

Lemma get_attempts_le {Out} (path : string) (out : Out) (n : api.Net) :
  (api.attempts n (snd (api.get c path out n)) ≤ 2)%nat.
Proof.
  destruct (api.newRequest c api.MethodGet path None) as [err | req] eqn:H.
  - rewrite (get_no_request _ _ _ _ H). unfold api.attempts. simpl. lia.
  - pose proof (get_sent path out n req H) as Hs.
    destruct (api.get c path out n) as [[r out'] n']. simpl.
    destruct (fst (fst (api.do req out n))).
    + rewrite (attempts_app _ _ _ Hs). simpl. lia.
    + destruct Hs as [_ Hs]. rewrite (attempts_app _ _ _ Hs). simpl. lia.
Qed.

(** [put] sends at most one request. *)
Lemma put_attempts_le {Out} (path : string) (body : option api.Payload)
    (out : Out) (n : api.Net) :
  (api.attempts n (snd (api.put c path body out n)) ≤ 1)%nat.
Proof.
  assert (Hret : ∀ r : option api.error * Out,
             (api.attempts n (snd (api.ret r n)) ≤ 1)%nat).
  { intros r. unfold api.attempts, api.ret. simpl. lia. }
  assert (Hdo : ∀ req : api.Request,
             (api.attempts n (snd (api.do req out n)) ≤ 1)%nat).
  { intros req. rewrite (attempts_app _ _ _ (do_sends_once _ _ _)).
    simpl. lia. }
  unfold api.put.
  destruct body as [b | ]; [destruct (api.jsonEncode b) | ];
    try apply Hret;
    match goal with
    | |- context [api.newRequest c api.MethodPut path ?buf] =>
        destruct (api.newRequest c api.MethodPut path buf)
    end; auto.
Qed.

(** An operation built on [get] sends what [get] sends. *)
Lemma attempts_bind_result {Out A} (f : Out → A)
    (op : api.M (option api.error * Out)) (n : api.Net) :
  api.attempts n (snd (api.bind op (λ r, api.ret (api.result f r)) n)) =
  api.attempts n (snd (op n)).
Proof.
  unfold api.bind, api.ret. destruct (op n) as [r n']. reflexivity.
Qed.

Lemma put_single_attempt {Out} (path : string) (body : option api.Payload)
    (out : Out) (n : api.Net) buf req :
  api.encoded body buf →
  api.newRequest c api.MethodPut path buf = inr req →
  api.put c path body out n = api.do (api.withContentType req) out n.
Proof.
  intros Hb Hreq. unfold api.put.
  destruct body as [b | ]; simpl in Hb.
  - destruct Hb as (s & Hs & ->). rewrite Hs, Hreq. reflexivity.
  - subst buf. rewrite Hreq. reflexivity.
Qed.

End ClientFacts.

Section ClientOutcomes.

Context `{T : api.Transport}.
Variable c : api.Client.

(** An operation built on [get] comes to [readOutcome] and sends
    [readRequests]. *)
Lemma get_outcome {Out A} (f : Out → A) (path : string) (zero : Out)
    (n : api.Net) :
  api.bind (api.get c path zero) (λ r, api.ret (api.result f r)) n
  = api.readOutcome c f path zero n
  ∧ api.sent (snd (api.get c path zero n))
    = (api.sent n ++ api.readRequests c path zero n)%list.
Proof.
  unfold api.readOutcome, api.readRequests.
  destruct (api.parseURL (api.baseURL c ++ path)) as [e | ] eqn:Hurl.
  - assert (api.newRequest c api.MethodGet path None = inl e) as Hreq
      by (unfold api.newRequest; by rewrite Hurl).
    unfold api.bind, api.ret. rewrite (get_no_request c path zero n e Hreq).
    simpl. by rewrite app_nil_r.
  - assert (api.newRequest c api.MethodGet path None = inr (api.readRequest c path))
      as Hreq by (unfold api.newRequest; by rewrite Hurl).
    pose proof (get_sent c path zero n _ Hreq) as Hs.
    unfold api.bind, api.ret.
    rewrite (get_two_attempts c path zero n _ Hreq) in *.
    destruct (api.do (api.readRequest c path) zero n) as [[[e1 | ] out1] n1];
      simpl in *.
    + destruct (api.do (api.readRequest c path) out1 n1) as [[[e2 | ] out2] n2];
        simpl in *; done.
    + by destruct Hs as [_ Hs].
Qed.

(** An operation built on [put] comes to [writeOutcome] and sends
    [writeRequests]. *)
Lemma put_outcome {Out A} (f : Out → A) (path : string) (payload : api.Payload)
    (zero : Out) (n : api.Net) :
  api.bind (api.put c path (Some payload) zero) (λ r, api.ret (api.result f r)) n
  = api.writeOutcome c f path payload zero n
  ∧ api.sent (snd (api.put c path (Some payload) zero n))
    = (api.sent n ++ api.writeRequests c path payload)%list.
Proof.
  unfold api.writeOutcome, api.writeRequests, api.put, api.bind, api.ret.
  destruct (api.jsonEncode payload) as [e | body]; simpl;
    [by rewrite app_nil_r | ].
  unfold api.newRequest.
  destruct (api.parseURL (api.baseURL c ++ path)) as [e | ]; simpl;
    [by rewrite app_nil_r | ].
  change (api.withContentType _) with (api.writeRequest c path body).
  pose proof (do_sends_once (api.writeRequest c path body) zero n) as Hs.
  destruct (api.do (api.writeRequest c path body) zero n) as [[[e1 | ] out1] n1];
    simpl in *; done.
Qed.

Lemma sent_bind_result {Out A} (f : Out → A)
    (op : api.M (option api.error * Out)) (n : api.Net) :
  api.sent (snd (api.bind op (λ r, api.ret (api.result f r)) n))
  = api.sent (snd (op n)).
Proof. unfold api.bind, api.ret. by destruct (op n) as [r n']. Qed.

(** C9. A read ([get], and the four operations built on it) sends its
    request at most twice: once when the first attempt succeeds, exactly
    twice when the first attempt fails, and then the outcome of [get] is the
    outcome of the second attempt, so a failure that surfaces is the last
    error. A write ([put], and the two operations built on it) sends its
    request at most once, and its outcome is the outcome of that attempt.
    Each of the six operations is what [readOutcome] or [writeOutcome] says:
    [GetProfile], [GetAvailableProviders], [GetProviderAlternatives] and
    [GetProviderSelection] make one attempt, a second one exactly when the
    first failed, and return the error of the last attempt;
    [SwitchProvider] and [UpdateBalancePreference] make one attempt and
    return its error. *)
Theorem get_retries_once_put_never {Out} (path : string)
    (body : option api.Payload) (out : Out) (n : api.Net) :
  ((api.attempts n (snd (api.get c path out n)) ≤ 2)%nat
   ∧ (∀ req, api.newRequest c api.MethodGet path None = inr req →
        match api.do req out n with
        | (None, out1, n1) =>
            api.get c path out n = (None, out1, n1)
            ∧ api.attempts n (snd (api.get c path out n)) = 1%nat
        | (Some _, out1, n1) =>
            api.get c path out n = api.do req out1 n1
            ∧ api.attempts n (snd (api.get c path out n)) = 2%nat
        end)
   ∧ (api.attempts n (snd (api.GetProfile c n)) ≤ 2)%nat
   ∧ (api.attempts n (snd (api.GetAvailableProviders c n)) ≤ 2)%nat
   ∧ (∀ id, (api.attempts n (snd (api.GetProviderAlternatives c id n)) ≤ 2)%nat)
   ∧ (∀ id, (api.attempts n (snd (api.GetProviderSelection c id n)) ≤ 2)%nat))
  ∧
  ((api.attempts n (snd (api.put c path body out n)) ≤ 1)%nat
   ∧ (∀ buf req, api.encoded body buf →
        api.newRequest c api.MethodPut path buf = inr req →
        api.put c path body out n = api.do (api.withContentType req) out n
        ∧ api.attempts n (snd (api.put c path body out n)) = 1%nat)
   ∧ (∀ id alt, (api.attempts n (snd (api.SwitchProvider c id alt n)) ≤ 1)%nat)
   ∧ (∀ pref,
        (api.attempts n (snd (api.UpdateBalancePreference c pref n)) ≤ 1)%nat))
  ∧
  (let profile := "/api/v1/auth/profile" in
   let providers := "/api/v1/user/available-providers" in
   let noProviders :=
     {| api.HasPaygBalance := false; api.HasSubscription := false;
        api.Providers := [] |} in
   (api.GetProfile c n = api.readOutcome c id profile api.zeroProfile n
    ∧ api.attempts n (snd (api.GetProfile c n))
      = length (api.readRequests c profile api.zeroProfile n))
   ∧ (api.GetAvailableProviders c n = api.readOutcome c id providers noProviders n
      ∧ api.attempts n (snd (api.GetAvailableProviders c n))
        = length (api.readRequests c providers noProviders n))
   ∧ (∀ g,
        api.GetProviderAlternatives c g n
        = api.readOutcome c api.Data (api.alternativesPath g) {| api.Data := [] |} n
        ∧ api.attempts n (snd (api.GetProviderAlternatives c g n))
          = length (api.readRequests c (api.alternativesPath g)
                      {| api.Data := [] |} n))
   ∧ (∀ g,
        api.GetProviderSelection c g n
        = api.readOutcome c api.envData (api.selectionPath g)
            {| api.envData := api.zeroSelection |} n
        ∧ api.attempts n (snd (api.GetProviderSelection c g n))
          = length (api.readRequests c (api.selectionPath g)
                      {| api.envData := api.zeroSelection |} n))
   ∧ (∀ g alt,
        let payload := api.PayloadInt "selected_alternative_id" alt in
        api.SwitchProvider c g alt n
        = api.writeOutcome c api.envData (api.selectionPath g) payload
            {| api.envData := api.zeroSelection |} n
        ∧ api.attempts n (snd (api.SwitchProvider c g alt n))
          = length (api.writeRequests c (api.selectionPath g) payload))
   ∧ (∀ pref,
        pref ≠ "" →
        let payload := api.PayloadString "balance_preference" pref in
        let path := "/api/v1/user/balance-preference" in
        api.UpdateBalancePreference c pref n
        = api.writeOutcome c id path payload
            {| api.respBalancePreference := ""; api.UpdatedAt := "" |} n
        ∧ api.attempts n (snd (api.UpdateBalancePreference c pref n))
          = length (api.writeRequests c path payload))).
Proof.
  split; [ | split].
  - split; [apply get_attempts_le | ].
    split.
    { intros req Hreq.
      pose proof (get_sent c path out n req Hreq) as Hs.
      rewrite (get_two_attempts _ _ _ _ _ Hreq) in *.
      destruct (api.do req out n) as [[[e1 | ] out1] n1]; simpl in *.
      - split; [reflexivity | ].
        destruct (api.do req out1 n1) as [[r2 out2] n2]; simpl in *.
        apply (attempts_app _ _ _ Hs).
      - destruct Hs as [_ Hs]. split; [reflexivity | apply (attempts_app _ _ _ Hs)]. }
    unfold api.GetProfile, api.GetAvailableProviders,
      api.GetProviderAlternatives, api.GetProviderSelection.
    repeat split; intros; rewrite attempts_bind_result; apply get_attempts_le.
  - split; [apply put_attempts_le | ].
    split.
    { intros buf req Hb Hreq.
      rewrite (put_single_attempt _ _ _ _ _ _ _ Hb Hreq).
      split; [reflexivity | ].
      apply (attempts_app _ _ [api.withContentType req]), do_sends_once. }
    split.
    + intros id alt. unfold api.SwitchProvider.
      rewrite attempts_bind_result. apply put_attempts_le.
    + intros pref. unfold api.UpdateBalancePreference.
      destruct (String.eqb pref "").
      * unfold api.attempts, api.ret. simpl. lia.
      * rewrite attempts_bind_result. apply put_attempts_le.
  - assert (Hread : ∀ Out' A (f : Out' → A) p (zero : Out'),
              let op := api.bind (api.get c p zero)
                          (λ r, api.ret (api.result f r)) in
              op n = api.readOutcome c f p zero n
              ∧ api.attempts n (snd (op n))
                = length (api.readRequests c p zero n)).
    { intros Out' A f p zero op.
      destruct (get_outcome f p zero n) as [Ho Hs]. split; [exact Ho | ].
      unfold op. rewrite attempts_bind_result. by apply attempts_app. }
    assert (Hwrite : ∀ Out' A (f : Out' → A) p payload (zero : Out'),
              let op := api.bind (api.put c p (Some payload) zero)
                          (λ r, api.ret (api.result f r)) in
              op n = api.writeOutcome c f p payload zero n
              ∧ api.attempts n (snd (op n))
                = length (api.writeRequests c p payload)).
    { intros Out' A f p payload zero op.
      destruct (put_outcome f p payload zero n) as [Ho Hs]. split; [exact Ho | ].
      unfold op. rewrite attempts_bind_result. by apply attempts_app. }
    cbv zeta.
    split; [apply Hread | ].
    split; [apply Hread | ].
    split; [intros g; apply Hread | ].
    split; [intros g; apply Hread | ].
    split; [intros g alt; apply Hwrite | ].
    intros pref Hne. unfold api.UpdateBalancePreference.
    destruct (String.eqb_spec pref ""); [done | ]. apply Hwrite.
Qed.

End ClientOutcomes.

(** The retry on a scripted server: the first answer is a 500, the second
    a 200. [get] asks twice and succeeds; [put] asks once and fails. *)
Example get_retries_after_failure :
  let c := {| api.baseURL := api.defaultBaseURL; api.apiKey := "k" |} in
  let n := @api.Build_Net api.scriptedTransport [api.serverError; api.serverOK] [] in
  let '(r, _, n') := @api.get api.scriptedTransport c unit "/api/v1/auth/profile" tt n in
  r = None ∧ length (api.sent n') = 2%nat ∧ api.remote n' = [].
Proof. vm_compute. repeat split. Qed.

Example put_fails_at_once :
  let c := {| api.baseURL := api.defaultBaseURL; api.apiKey := "k" |} in
  let n := @api.Build_Net api.scriptedTransport [api.serverError; api.serverOK] [] in
  let '(r, _, n') :=
    @api.put api.scriptedTransport c unit "/api/v1/user/balance-preference"
      (Some (api.PayloadString "balance_preference" "payg_only")) tt n in
  r = Some (api.APIError 500 "" "oops")
  ∧ length (api.sent n') = 1%nat ∧ api.remote n' = [api.serverOK].
Proof. vm_compute. repeat split. Qed.

(** * Facts about the model *)

Import tui.

#[local] Set Warnings "-clear-no-such-hyp".

(** ** The cache primitives *)

Lemma set_providerData_same (m : Model) : set_providerData (providerData m) m = m.
Proof. destruct m; reflexivity. Qed.

Lemma set_spinner_same (m : Model) : set_spinner (spinner m) m = m.
Proof. destruct m; reflexivity. Qed.

Lemma ensureProviderState_eq (m : Model) (id : Z) :
  ensureProviderState m id =
    (set_providerData (ensured (providerData m) id) m, entry m id).
Proof.
  unfold ensureProviderState, ensured, entry.
  destruct (id =? 0); [by rewrite set_providerData_same | ].
  destruct (providerData m !! id); simpl; [by rewrite set_providerData_same | done].
Qed.

Lemma storeProviderState_eq (m : Model) (id : Z) (st : providerState) :
  storeProviderState m id st = set_providerData (stored (providerData m) id st) m.
Proof.
  unfold storeProviderState, stored.
  destruct (id =? 0); [by rewrite set_providerData_same | done].
Qed.

Lemma entry_eq (m : Model) (id : Z) : entry m id = lookupEntry (providerData m) id.
Proof. reflexivity. Qed.

Lemma lookupEntry_ensured (pd : gmap Z providerState) (id id' : Z) :
  lookupEntry (ensured pd id) id' = lookupEntry pd id'.
Proof.
  unfold lookupEntry, ensured.
  destruct (id' =? 0) eqn:H0; [done | ].
  destruct (id =? 0); [done | ].
  destruct (pd !! id) eqn:Hid; [done | ].
  destruct (decide (id = id')) as [-> | Hne].
  - by rewrite lookup_insert_eq, Hid.
  - by rewrite lookup_insert_ne.
Qed.

Lemma lookupEntry_stored (pd : gmap Z providerState) (id id' : Z) st :
  lookupEntry (stored pd id st) id' =
    if (id' =? id) && negb (id =? 0) then st else lookupEntry pd id'.
Proof.
  unfold lookupEntry, stored.
  destruct (Z.eqb_spec id' id) as [-> | Hne]; simpl.
  - destruct (id =? 0); [done | ]. by rewrite lookup_insert_eq.
  - destruct (id' =? 0); [done | ].
    destruct (id =? 0); [done | ]. by rewrite lookup_insert_ne.
Qed.

Lemma stored_ensured (pd : gmap Z providerState) (id : Z) st :
  stored (ensured pd id) id st = stored pd id st.
Proof.
  unfold stored, ensured. destruct (id =? 0); [done | ].
  destruct (pd !! id); [done | ]. by rewrite insert_insert_eq.
Qed.

Lemma lookup_ensured_ne (pd : gmap Z providerState) (id id' : Z) :
  id' ≠ id → ensured pd id !! id' = pd !! id'.
Proof.
  intros Hne. unfold ensured. destruct (id =? 0); [done | ].
  destruct (pd !! id); [done | ]. by rewrite lookup_insert_ne.
Qed.

Lemma lookup_stored_ne (pd : gmap Z providerState) (id id' : Z) st :
  id' ≠ id → stored pd id st !! id' = pd !! id'.
Proof.
  intros Hne. unfold stored. destruct (id =? 0); [done | ].
  by rewrite lookup_insert_ne.
Qed.

Lemma dom_ensured (pd : gmap Z providerState) (id : Z) :
  dom (ensured pd id) = dom pd ∪ (if id =? 0 then ∅ else {[id]}).
Proof.
  unfold ensured. destruct (id =? 0); [set_solver | ].
  destruct (pd !! id) eqn:H.
  - apply (elem_of_dom_2 pd) in H. set_solver.
  - rewrite dom_insert_L. set_solver.
Qed.

Lemma dom_stored (pd : gmap Z providerState) (id : Z) st :
  dom (stored pd id st) = dom pd ∪ (if id =? 0 then ∅ else {[id]}).
Proof.
  unfold stored. destruct (id =? 0); [set_solver | ].
  rewrite dom_insert_L. set_solver.
Qed.

(** An entry with a flag up is in the map, and a write of what is already
    there changes nothing. *)
Lemma ensured_present (pd : gmap Z providerState) (id : Z) :
  lookupEntry pd id ≠ zeroState → ensured pd id = pd.
Proof.
  unfold lookupEntry, ensured. destruct (id =? 0); [done | ].
  destruct (pd !! id); [done | ]. simpl. congruence.
Qed.

Lemma stored_same (pd : gmap Z providerState) (id : Z) :
  lookupEntry pd id ≠ zeroState → stored pd id (lookupEntry pd id) = pd.
Proof.
  unfold lookupEntry, stored. destruct (id =? 0); [done | ].
  destruct (pd !! id) eqn:H; simpl; [ | congruence].
  intros _. by apply insert_id.
Qed.

(** ** Cursors *)

Lemma clampIndex_range (idx length : Z) :
  0 < length → 0 ≤ clampIndex idx length < length.
Proof.
  intros H. unfold clampIndex.
  destruct (Z.ltb_spec idx 0); [lia | ].
  destruct (Z.geb_spec idx length); lia.
Qed.

Lemma clampIndex_id (idx length : Z) :
  0 ≤ idx < length → clampIndex idx length = idx.
Proof.
  intros H. unfold clampIndex.
  destruct (Z.ltb_spec idx 0); [lia | ].
  destruct (Z.geb_spec idx length); lia.
Qed.

Lemma index_Some {A} (l : list A) (i : Z) :
  0 ≤ i < len l → ∃ x, index l i = Some x ∧ x ∈ l.
Proof.
  intros H. unfold index, len in *.
  destruct (Z.ltb_spec i 0); [lia | ].
  destruct (lookup_lt_is_Some_2 l (Z.to_nat i)) as [x Hx]; [lia | ].
  exists x. split; [done | ]. by eapply list_elem_of_lookup_2.
Qed.

Lemma currentProviderID_empty (m : Model) :
  providers m = [] → currentProviderID m = 0.
Proof. intros H. unfold currentProviderID. by rewrite H. Qed.

Lemma currentProviderID_in (m : Model) :
  providers m ≠ [] → currentProviderID m ∈ providerIDs m.
Proof.
  intros H. unfold currentProviderID, providerIDs.
  assert (0 < len (providers m)) as Hlen.
  { unfold len. destruct (providers m); [done | simpl; lia]. }
  destruct (Z.eqb_spec (len (providers m)) 0); [lia | ].
  destruct (index_Some (providers m)
              (clampIndex (providerIdx m) (len (providers m)))) as (b & -> & Hb);
    [by apply clampIndex_range | ].
  apply list_elem_of_fmap. by exists b.
Qed.

(** ** What the completion handlers touch *)

Lemma currentProviderID_set_providerData (m : Model) pd :
  currentProviderID (set_providerData pd m) = currentProviderID m.
Proof. reflexivity. Qed.

Lemma syncAltIdx_eq (m : Model) (id : Z) :
  syncAltIdx m id =
    if (id =? 0) || negb (id =? currentProviderID m) then m
    else set_altIdx (syncedIdx (entry m id) (altIdx m))
           (set_providerData (ensured (providerData m) id) m).
Proof.
  unfold syncAltIdx. rewrite ensureProviderState_eq.
  destruct ((id =? 0) || negb (id =? currentProviderID m)); reflexivity.
Qed.

Lemma syncAltIdx_other (m : Model) (id : Z) :
  id ≠ currentProviderID m → syncAltIdx m id = m.
Proof.
  intros H. rewrite syncAltIdx_eq.
  destruct (Z.eqb_spec id (currentProviderID m)); [done | ].
  by rewrite orb_true_r.
Qed.

Lemma syncAltIdx_providerData (m : Model) (id : Z) :
  providerData (syncAltIdx m id) = providerData m
  ∨ providerData (syncAltIdx m id) = ensured (providerData m) id.
Proof.
  rewrite syncAltIdx_eq.
  destruct ((id =? 0) || negb (id =? currentProviderID m)); auto.
Qed.

Lemma syncAltIdx_lookup_ne (m : Model) (id id' : Z) :
  id' ≠ id → providerData (syncAltIdx m id) !! id' = providerData m !! id'.
Proof.
  intros H. destruct (syncAltIdx_providerData m id) as [-> | ->]; [done | ].
  by apply lookup_ensured_ne.
Qed.

Lemma clearLoadingStatus_providerData (m : Model) st :
  providerData (clearLoadingStatus m st) = providerData m.
Proof. unfold clearLoadingStatus. by destruct (_ && _). Qed.

Lemma clearLoadingStatus_altIdx (m : Model) st :
  altIdx (clearLoadingStatus m st) = altIdx m.
Proof. unfold clearLoadingStatus. by destruct (_ && _). Qed.

Lemma handleAlternativesLoaded_eq (m : Model) (id : Z) alts :
  handleAlternativesLoaded m id alts =
    clearLoadingStatus
      (syncAltIdx (written m id (alternativesLoadedMsg id alts)) id)
      (completed (alternativesLoadedMsg id alts) (entry m id)).
Proof.
  unfold handleAlternativesLoaded, written.
  rewrite ensureProviderState_eq, storeProviderState_eq. simpl.
  by rewrite stored_ensured.
Qed.

Lemma handleSelectionLoaded_eq (m : Model) (id : Z) sel :
  handleSelectionLoaded m id sel =
    clearLoadingStatus
      (syncAltIdx (written m id (selectionLoadedMsg id sel)) id)
      (completed (selectionLoadedMsg id sel) (entry m id)).
Proof.
  unfold handleSelectionLoaded, written.
  rewrite ensureProviderState_eq, storeProviderState_eq. simpl.
  by rewrite stored_ensured.
Qed.

Lemma handleSwitchCompleted_eq (m : Model) (id : Z) sel :
  handleSwitchCompleted m id sel =
    (set_status ("已切换到 " ++ api.altDisplayName (api.SelectedAlternative sel))
       (syncAltIdx (written m id (switchCompletedMsg id sel)) id),
     [clearStatusAfter statusClearDelay]).
Proof.
  unfold handleSwitchCompleted, written.
  rewrite ensureProviderState_eq, storeProviderState_eq. simpl.
  by rewrite stored_ensured.
Qed.

Lemma handleProviderLoadFailed_eq (m : Model) (id : Z) target e :
  handleProviderLoadFailed m id target e =
    (set_status ("提供商 " ++ sprint_d id ++ ": " ++ api.Error e)
       (set_err (Some e) (written m id (providerLoadFailedMsg id target e))),
     [clearStatusAfter errorClearDelay]).
Proof.
  unfold handleProviderLoadFailed, written.
  rewrite ensureProviderState_eq, storeProviderState_eq. simpl.
  by rewrite stored_ensured.
Qed.

(** The model a scoped result leaves, up to the fields the cache and the
    cursors do not depend on. *)
Lemma scopedResult_providerData (m : Model) (id : Z) (msg : Msg) :
  scopedResult id msg →
  let m' := fst (Update m msg) in
  (providerData m' = providerData (syncAltIdx (written m id msg) id)
   ∨ providerData m' = providerData (written m id msg))
  ∧ (altIdx m' = altIdx (syncAltIdx (written m id msg) id)
     ∨ altIdx m' = altIdx m).
Proof.
  destruct msg; simpl; try done; intros ->; unfold Update; simpl.
  - rewrite handleAlternativesLoaded_eq. simpl.
    rewrite clearLoadingStatus_providerData, clearLoadingStatus_altIdx. auto.
  - rewrite handleSelectionLoaded_eq. simpl.
    rewrite clearLoadingStatus_providerData, clearLoadingStatus_altIdx. auto.
  - rewrite handleSwitchCompleted_eq. simpl. auto.
  - rewrite handleProviderLoadFailed_eq. simpl. auto.
Qed.

(** C6. A result scoped to provider [G] (a failure, or the alternatives,
    the selection or the switch arriving late) leaves the cache entry of
    every other provider as it was, and leaves the alternative cursor alone
    when [G] is not the provider the cursor is on. *)
Theorem scoped_result_frame (m : Model) (G G' : Z) (msg : Msg) :
  scopedResult G msg →
  (G' ≠ G → providerData (fst (Update m msg)) !! G' = providerData m !! G')
  ∧ (G ≠ currentProviderID m → altIdx (fst (Update m msg)) = altIdx m)
  ∧ providerIdx (fst (Update m msg)) = providerIdx m.
Proof.
  intros Hmsg.
  destruct (scopedResult_providerData m G msg Hmsg) as [Hpd Halt].
  split; [ | split].
  - intros Hne.
    assert (providerData (written m G msg) !! G' = providerData m !! G') as Hw.
    { unfold written. simpl. by apply lookup_stored_ne. }
    destruct Hpd as [-> | ->]; [ | done].
    by rewrite syncAltIdx_lookup_ne.
  - intros Hcur. destruct Halt as [-> | ->]; [ | done].
    rewrite syncAltIdx_other; [done | ].
    unfold written. by rewrite currentProviderID_set_providerData.
  - destruct msg; simpl in Hmsg; try done; subst; unfold Update; simpl.
    + rewrite handleAlternativesLoaded_eq. unfold clearLoadingStatus.
      destruct (_ && _); simpl; rewrite syncAltIdx_eq; by destruct (_ || _).
    + rewrite handleSelectionLoaded_eq. unfold clearLoadingStatus.
      destruct (_ && _); simpl; rewrite syncAltIdx_eq; by destruct (_ || _).
    + rewrite handleSwitchCompleted_eq. simpl.
      rewrite syncAltIdx_eq; by destruct (_ || _).
    + by rewrite handleProviderLoadFailed_eq.
Qed.

(** ** Confirm on the alternatives list *)

Lemma entry_zero (m : Model) : entry m 0 = zeroState.
Proof. reflexivity. Qed.

Lemma entry_set_providerData (m : Model) pd (id : Z) :
  entry (set_providerData pd m) id = lookupEntry pd id.
Proof. reflexivity. Qed.

Lemma switchSelection_eq (m : Model) :
  switchSelection m =
    if len (providers m) =? 0 then (m, [])
    else
      let G := currentProviderID m in
      let m1 := set_providerData (ensured (providerData m) G) m in
      if switching (entry m G) || loadingAlternatives (entry m G)
         || (len (alternatives (entry m G)) =? 0)
      then (m1, [])
      else if altIdx m >=? len (alternatives (entry m G)) then (m1, [])
      else
        match index (alternatives (entry m G)) (altIdx m) with
        | None => (m1, [])
        | Some chosen => confirmed m chosen
        end.
Proof.
  unfold switchSelection, confirmed.
  destruct (len (providers m) =? 0); [done | ].
  rewrite ensureProviderState_eq. simpl.
  destruct (_ || _); [done | ].
  destruct (altIdx m >=? _); [done | ].
  destruct (index _ _); [ | done].
  destruct (match selection _ with Some _ => _ | None => _ end); [done | ].
  rewrite storeProviderState_eq. simpl. by rewrite stored_ensured.
Qed.

(** The guard: with a switch in flight for the current group, Confirm
    changes nothing and issues nothing. *)
Lemma switchSelection_gated (m : Model) :
  switching (entry m (currentProviderID m)) = true → switchSelection m = (m, []).
Proof.
  intros H. rewrite switchSelection_eq.
  destruct (len (providers m) =? 0); [done | ]. simpl. rewrite H. simpl.
  rewrite ensured_present, set_providerData_same; [done | ].
  rewrite <- entry_eq. intros Hz. by rewrite Hz in H.
Qed.

(** The other guard: while the alternatives of the current group are being
    loaded, Confirm changes nothing and issues nothing. *)
Lemma switchSelection_loading (m : Model) :
  loadingAlternatives (entry m (currentProviderID m)) = true →
  switchSelection m = (m, []).
Proof.
  intros H. rewrite switchSelection_eq.
  destruct (len (providers m) =? 0); [done | ]. simpl. rewrite H. simpl.
  rewrite orb_true_r. simpl.
  rewrite ensured_present, set_providerData_same; [done | ].
  rewrite <- entry_eq. intros Hz. by rewrite Hz in H.
Qed.

Lemma switchSelection_issued (m m1 : Model) (c : Cmd) (cmds : list Cmd) :
  switchSelection m = (m1, c :: cmds) →
  ∃ chosen,
    index (alternatives (entry m (currentProviderID m))) (altIdx m) = Some chosen
    ∧ c = switchProviderCmd (currentProviderID m) (api.altID (api.Alternative chosen))
    ∧ cmds = []
    ∧ currentProviderID m ≠ 0
    ∧ currentProviderID m1 = currentProviderID m
    ∧ entry m1 (currentProviderID m) =
        set_switching true (entry m (currentProviderID m)).
Proof.
  rewrite switchSelection_eq.
  destruct (len (providers m) =? 0); [done | ]. simpl.
  destruct (_ || _) eqn:Hg; [done | ].
  destruct (altIdx m >=? _); [done | ].
  destruct (index _ _) as [chosen | ] eqn:Hi; [ | done].
  unfold confirmed.
  destruct (match selection _ with Some _ => _ | None => _ end); [done | ].
  intros [= <- <- <-]. exists chosen.
  assert (currentProviderID m ≠ 0) as Hne.
  { intros H0. rewrite H0, entry_zero in Hi. unfold index in Hi. simpl in Hi.
    by destruct (altIdx m <? 0). }
  repeat split; try done.
  transitivity
    (lookupEntry
       (stored (providerData m) (currentProviderID m)
          (set_switching true (entry m (currentProviderID m))))
       (currentProviderID m)); [reflexivity | ].
  rewrite lookupEntry_stored.
  destruct (Z.eqb_spec (currentProviderID m) 0); [done | ].
  by rewrite Z.eqb_refl.
Qed.

(** A key press is [handleKey]. *)
Lemma Update_key (m : Model) (k : KeyMsg) : Update m (keyMsg k) = handleKey m k.
Proof.
  unfold Update. destruct (handleKey m k) as [m1 cmds]. simpl.
  by rewrite set_spinner_same, app_nil_r.
Qed.

(** Confirm as a key press. *)
Lemma Update_enterKey (m : Model) :
  Update m enterKey =
    match currentTab m with
    | tabProviders =>
        match focus m with
        | focusAlternatives => switchSelection m
        | focusProviders => (m, [])
        end
    | tabBalancePreference => toggleBalancePreference m
    | tabProfile => (m, [])
    end.
Proof.
  assert (handleFocusSwitch m "enter" = m) as Hfocus.
  { unfold handleFocusSwitch. by destruct (currentTab m). }
  unfold Update, enterKey, key, handleKey. simpl. rewrite Hfocus.
  unfold handleEnter. simpl.
  destruct (currentTab m); simpl.
  - by rewrite set_spinner_same.
  - destruct (focus m); simpl; [by rewrite set_spinner_same | ].
    destruct (switchSelection m) as [m1 [ | c cmds]]; simpl;
      by rewrite set_spinner_same, ?app_nil_r.
  - destruct (toggleBalancePreference m) as [m1 [ | c cmds]]; simpl;
      by rewrite set_spinner_same, ?app_nil_r.
Qed.

(** C3. When Confirm issues a switch request, a second Confirm right
    after it is gated by the switch-in-flight flag of the same group: it
    returns no command and leaves the model as it is, so the two
    invocations issue exactly one switch request. *)
Theorem confirm_twice_one_switch (m m1 : Model) (cmds1 : list Cmd) (c : Cmd) :
  Update m enterKey = (m1, cmds1) →
  c ∈ cmds1 → isAnySwitch c = true →
  switching (entry m1 (currentProviderID m1)) = true
  ∧ Update m1 enterKey = (m1, [])
  ∧ count isAnySwitch (cmds1 ++ snd (Update m1 enterKey))%list = 1.
Proof.
  intros Hup Hc Hsw.
  rewrite Update_enterKey in Hup.
  assert (switchSelection m = (m1, cmds1)
          ∧ currentTab m = tabProviders ∧ focus m = focusAlternatives)
    as (Hsel & Htab & Hfocus).
  { destruct (currentTab m) eqn:Htab.
    - injection Hup as <- <-. by apply elem_of_nil in Hc.
    - destruct (focus m) eqn:Hfocus; [ | done].
      injection Hup as <- <-. by apply elem_of_nil in Hc.
    - unfold toggleBalancePreference in Hup.
      destruct (profile m); [ | injection Hup as <- <-; by apply elem_of_nil in Hc].
      destruct (preferenceSwitching m);
        [injection Hup as <- <-; by apply elem_of_nil in Hc | ].
      destruct (String.eqb _ _);
        [injection Hup as <- <-; by apply elem_of_nil in Hc | ].
      injection Hup as <- <-. apply list_elem_of_singleton in Hc. by subst c. }
  destruct cmds1 as [ | c1 rest]; [by apply elem_of_nil in Hc | ].
  destruct (switchSelection_issued m m1 c1 rest Hsel)
    as (chosen & Hidx & -> & -> & Hne & Hcur & Hentry).
  assert (switching (entry m1 (currentProviderID m1)) = true) as Hflag.
  { rewrite Hcur, Hentry. reflexivity. }
  assert (currentTab m1 = tabProviders ∧ focus m1 = focusAlternatives)
    as [Htab1 Hfocus1].
  { rewrite switchSelection_eq in Hsel.
    destruct (len (providers m) =? 0); [done | ]. simpl in Hsel.
    destruct (_ || _); [done | ].
    destruct (altIdx m >=? _); [done | ].
    destruct (index _ _); [ | done].
    unfold confirmed in Hsel.
    destruct (match selection _ with Some _ => _ | None => _ end); [done | ].
    injection Hsel as <- _. simpl. done. }
  assert (Update m1 enterKey = (m1, [])) as Hsecond.
  { rewrite Update_enterKey, Htab1, Hfocus1. by apply switchSelection_gated. }
  split; [done | ]. split; [done | ].
  rewrite Hsecond. reflexivity.
Qed.

Lemma confirm_twice_one_switch_witness :
  let m := fst (run NewModel (group3Loaded ++ [key "j"])) in
  let m1 := fst (Update m enterKey) in
  Update m enterKey = (m1, [switchProviderCmd 3 102])
  ∧ switching (entry m1 (currentProviderID m1)) = true
  ∧ Update m1 enterKey = (m1, [])
  ∧ count isAnySwitch ([switchProviderCmd 3 102] ++ snd (Update m1 enterKey))%list = 1.
Proof.
  split; [vm_compute; reflexivity | ].
  apply (confirm_twice_one_switch
           (fst (run NewModel (group3Loaded ++ [key "j"])))
           (fst (Update (fst (run NewModel (group3Loaded ++ [key "j"]))) enterKey))
           [switchProviderCmd 3 102] (switchProviderCmd 3 102)).
  - vm_compute. reflexivity.
  - apply list_elem_of_singleton. reflexivity.
  - reflexivity.
Defined.

(** C5. Confirm on the alternatives list. With the cursor on an
    alternative of the current group, no switch in flight and the
    alternatives not being loaded: when the alternative is the active
    selection, the status line says so and no command is issued; otherwise
    the switch-in-flight flag is raised, the status line announces the
    switch, and one switch request for (current provider, that alternative)
    is issued. While a switch is in flight for the current group or its
    alternatives are being loaded, Confirm returns the model as it is, the
    status line included, and issues no command. *)
Theorem confirm_on_alternative (m : Model) (chosen : api.AlternativeOption) :
  let G := currentProviderID m in
  let target := api.Alternative chosen in
  currentTab m = tabProviders → focus m = focusAlternatives →
  (index (alternatives (entry m G)) (altIdx m) = Some chosen →
   switching (entry m G) = false →
   loadingAlternatives (entry m G) = false →
   (∀ sel, selection (entry m G) = Some sel →
      api.SelectedAlternativeID sel = api.altID target →
      Update m enterKey = (set_status (alreadyActive target) m, []))
   ∧ ((∀ sel, selection (entry m G) = Some sel →
         api.SelectedAlternativeID sel ≠ api.altID target) →
      ∃ m', Update m enterKey = (m', [switchProviderCmd G (api.altID target)])
            ∧ switching (entry m' G) = true
            ∧ status m' = "切换到 " ++ api.altDisplayName target ++ " 中..."))
  ∧ (switching (entry m G) = true ∨ loadingAlternatives (entry m G) = true →
     Update m enterKey = (m, [])
     ∧ status (fst (Update m enterKey)) = status m
     ∧ snd (Update m enterKey) = []).
Proof.
  intros G target Htab Hfocus. split.
  2: { intros Hgate.
       assert (Update m enterKey = (m, [])) as ->; [ | done].
       rewrite Update_enterKey, Htab, Hfocus.
       destruct Hgate as [H | H];
         [by apply switchSelection_gated | by apply switchSelection_loading]. }
  intros Hidx Hsw Hload.
  assert (G ≠ 0) as HG.
  { intros H0. subst G. rewrite H0, entry_zero in Hidx. unfold index in Hidx.
    simpl in Hidx. by destruct (altIdx m <? 0). }
  assert (0 ≤ altIdx m < len (alternatives (entry m G))) as Hrange.
  { unfold index in Hidx. destruct (Z.ltb_spec (altIdx m) 0); [done | ].
    apply lookup_lt_Some in Hidx. unfold len. lia. }
  assert (providers m ≠ []) as Hprov.
  { intros Hnil. apply HG. by apply currentProviderID_empty. }
  assert (entry m G ≠ zeroState) as Hpresent.
  { intros Hz. rewrite Hz in Hrange. simpl in Hrange. unfold len in Hrange.
    simpl in Hrange. lia. }
  assert (switchSelection m = confirmed m chosen) as Heq.
  { rewrite switchSelection_eq.
    destruct (Z.eqb_spec (len (providers m)) 0) as [Hlen | _].
    { unfold len in Hlen. destruct (providers m); [done | simpl in Hlen; lia]. }
    simpl. fold G. rewrite Hsw, Hload. simpl.
    destruct (Z.eqb_spec (len (alternatives (entry m G))) 0); [lia | ].
    destruct (Z.geb_spec (altIdx m) (len (alternatives (entry m G)))); [lia | ].
    by rewrite Hidx. }
  rewrite Update_enterKey, Htab, Hfocus, Heq. unfold confirmed. fold G target.
  split.
  - intros sel Hsel Hact. rewrite Hsel.
    apply Z.eqb_eq in Hact. rewrite Hact.
    rewrite ensured_present, set_providerData_same; done.
  - intros Hother.
    assert (match selection (entry m G) with
            | Some sel => api.SelectedAlternativeID sel =? api.altID target
            | None => false
            end = false) as ->.
    { destruct (selection (entry m G)) as [sel | ]; [ | done].
      apply Z.eqb_neq. by apply Hother. }
    eexists. split; [reflexivity | ]. split; [ | reflexivity].
    transitivity
      (switching (lookupEntry
         (stored (providerData m) G (set_switching true (entry m G))) G));
      [reflexivity | ].
    rewrite lookupEntry_stored.
    destruct (Z.eqb_spec G 0); [done | ]. by rewrite Z.eqb_refl.
Qed.

(** Confirm on the active alternative 101 of group 3; on 102 with nothing in
    flight; with the switch to 102 in flight; and while the alternatives are
    fetched again after the refresh key. *)
Lemma confirm_on_alternative_witness :
  let m := fst (run NewModel group3Loaded) in
  let m2 := fst (run NewModel (group3Loaded ++ [key "j"])) in
  let busy := fst (run NewModel switchInFlight) in
  let loading := fst (run NewModel (group3Loaded ++ [refreshKey])) in
  Update m enterKey =
    (set_status (alreadyActive (api.Alternative (demoAlternative 101 "official" true))) m,
     [])
  ∧ snd (Update m2 enterKey) = [switchProviderCmd 3 102]
  ∧ (switching (entry busy 3) = true ∧ Update busy enterKey = (busy, []))
  ∧ (loadingAlternatives (entry loading 3) = true
     ∧ Update loading enterKey = (loading, [])).
Proof.
  intros m m2 busy loading.
  pose proof (confirm_on_alternative m (demoAlternative 101 "official" true)
                eq_refl eq_refl) as [H1 _].
  pose proof (confirm_on_alternative m2 (demoAlternative 102 "mirror" false)
                eq_refl eq_refl) as [H2 _].
  pose proof (confirm_on_alternative busy (demoAlternative 101 "official" true)
                eq_refl eq_refl) as [_ H3].
  pose proof (confirm_on_alternative loading (demoAlternative 101 "official" true)
                eq_refl eq_refl) as [_ H4].
  split.
  { refine (proj1 (H1 _ _ _) (demoSelection 3 101 "official") _ _);
      vm_compute; reflexivity. }
  split.
  { destruct (proj2 (H2 eq_refl eq_refl eq_refl)) as (m' & -> & _).
    - intros sel Hsel. vm_compute in Hsel. injection Hsel as <-. vm_compute.
      discriminate.
    - vm_compute. reflexivity. }
  split.
  { assert (switching (entry busy 3) = true) as Hb by (vm_compute; reflexivity).
    split; [exact Hb | ]. exact (proj1 (H3 (or_introl Hb))). }
  assert (loadingAlternatives (entry loading 3) = true) as Hl
    by (vm_compute; reflexivity).
  split; [exact Hl | ]. exact (proj1 (H4 (or_intror Hl))).
Defined.

(** The claim without the two guards fails: with a switch in flight, Confirm
    on the active selection is gated before the status line is written. *)
Lemma confirm_on_active_gated :
  ¬ (∀ (m : Model) (chosen : api.AlternativeOption) (sel : api.ProviderSelection),
       currentTab m = tabProviders → focus m = focusAlternatives →
       index (alternatives (entry m (currentProviderID m))) (altIdx m)
         = Some chosen →
       selection (entry m (currentProviderID m)) = Some sel →
       api.SelectedAlternativeID sel = api.altID (api.Alternative chosen) →
       status (fst (Update m enterKey)) = alreadyActive (api.Alternative chosen)).
Proof.
  intros H.
  specialize (H (fst (run NewModel switchInFlight))
                (demoAlternative 101 "official" true)
                (demoSelection 3 101 "official")).
  vm_compute in H.
  assert (Hne : ∀ a b : string, a = b → String.eqb a b = true)
    by (intros a b ->; apply String.eqb_refl).
  specialize (H eq_refl eq_refl eq_refl eq_refl eq_refl).
  apply Hne in H. vm_compute in H. discriminate H.
Qed.

(** ** Refreshing the profile *)

Lemma Update_refreshKey_profile (m : Model) :
  currentTab m = tabProfile → Update m refreshKey = refreshProfile m.
Proof.
  intros Htab.
  assert (handleFocusSwitch m "r" = m) as Hfocus.
  { unfold handleFocusSwitch. by rewrite Htab. }
  unfold Update, refreshKey, key, handleKey. simpl. rewrite Hfocus.
  unfold handleRefresh. simpl. rewrite Htab. simpl.
  unfold refreshProfile. by destruct m.
Qed.

Section ProfileTab.

Context `{R : Renderer}.

(** What the profile tab shows depends on the profile, the viewport and the
    width, not on the two loading flags. *)
Lemma renderProfileTab_flags (m : Model) (p : api.Profile) (a b : bool) :
  profile m = Some p →
  snd (renderProfileTab (set_manualRefreshingProfile a (set_loadingProfile b m)))
  = snd (renderProfileTab m).
Proof.
  intros Hp. unfold renderProfileTab. simpl. rewrite Hp. reflexivity.
Qed.

(** C8. The refresh key on the profile tab raises the manual-refresh flag
    (and the loading flag), issues one profile fetch and changes nothing
    else: the profile snapshot stays, the body of the profile tab renders
    as before, and the status line shows the refresh indicator. The
    periodic tick fetches the profile without touching either flag. *)
Theorem manual_refresh_keeps_profile (m : Model) (p : api.Profile) :
  currentTab m = tabProfile →
  profile m = Some p →
  let m' := fst (Update m refreshKey) in
  let tick := Update m profileRefreshTickMsg in
  snd (Update m refreshKey) = [loadProfileCmd]
  ∧ m' = set_manualRefreshingProfile true (set_loadingProfile true m)
  ∧ manualRefreshingProfile m' = true
  ∧ profile m' = Some p
  ∧ snd (renderProfileTab m') = snd (renderProfileTab m)
  ∧ viewStatusText m' = "刷新中... " ++ spinnerView (spinner m)
  ∧ snd tick = [loadProfileCmd; profileRefreshTicker]
  ∧ manualRefreshingProfile (fst tick) = manualRefreshingProfile m
  ∧ loadingProfile (fst tick) = loadingProfile m.
Proof.
  intros Htab Hp m' tick.
  assert (m' = set_manualRefreshingProfile true (set_loadingProfile true m)) as Hm'.
  { unfold m'. by rewrite Update_refreshKey_profile. }
  split; [by rewrite Update_refreshKey_profile | ].
  split; [done | ].
  rewrite Hm'.
  split; [reflexivity | ].
  split; [exact Hp | ].
  split; [by apply renderProfileTab_flags with p | ].
  split.
  { unfold viewStatusText. simpl. by rewrite Htab. }
  unfold tick, Update, handleProfileRefreshTick. rewrite Htab. simpl.
  by destruct m.
Qed.

End ProfileTab.

Lemma manual_refresh_keeps_profile_witness :
  let m := fst (run NewModel [profileLoadedMsg demoProfile]) in
  let m' := fst (Update m refreshKey) in
  snd (Update m refreshKey) = [loadProfileCmd]
  ∧ profile m' = Some demoProfile
  ∧ snd (@renderProfileTab plainRenderer m') = snd (@renderProfileTab plainRenderer m).
Proof.
  intros m m'.
  destruct (@manual_refresh_keeps_profile plainRenderer m demoProfile
              eq_refl eq_refl) as (H1 & _ & _ & H4 & H5 & _).
  exact (conj H1 (conj H4 H5)).
Defined.

Lemma scoped_result_frame_witness :
  let m := fst (run NewModel group3Loaded) in
  let msg := providerLoadFailedMsg 5 "selection" (api.ErrorString "timeout") in
  providerData (fst (Update m msg)) !! 3 = providerData m !! 3
  ∧ altIdx (fst (Update m msg)) = altIdx m.
Proof.
  intros m msg.
  destruct (scoped_result_frame m 5 3 msg eq_refl) as (H1 & H2 & _).
  split; [apply H1 | apply H2]; vm_compute; discriminate.
Defined.

(** ** Counting commands *)

Lemma count_app (p : Cmd → bool) (l1 l2 : list Cmd) :
  count p (l1 ++ l2)%list = count p l1 + count p l2.
Proof. induction l1 as [ | c l1 IH]; simpl; [done | rewrite IH; lia]. Qed.

Lemma count_nonneg (p : Cmd → bool) (l : list Cmd) : 0 ≤ count p l.
Proof.
  induction l as [ | c l IH]; simpl; [done | ].
  destruct (p c); simpl; lia.
Qed.

Lemma count_zero (p : Cmd → bool) (l : list Cmd) :
  (∀ c, c ∈ l → p c = false) → count p l = 0.
Proof.
  induction l as [ | c l IH]; simpl; intros H; [done | ].
  rewrite (H c), IH; [done | | apply list_elem_of_here].
  intros c' Hc'. apply H. by apply list_elem_of_further.
Qed.

Lemma count_remove (p : Cmd → bool) (l1 l2 : list Cmd) (c : Cmd) :
  count p (l1 ++ c :: l2)%list = b2z (p c) + count p (l1 ++ l2)%list.
Proof. rewrite !count_app. simpl. lia. Qed.

Lemma isSwitch_scope (id : Z) (c : Cmd) : isSwitch id c = true → scope c = Some id.
Proof. destruct c; simpl; try done. intros H. apply Z.eqb_eq in H. by subst. Qed.

Lemma isAlternativesFetch_scope (id : Z) (c : Cmd) :
  isAlternativesFetch id c = true → scope c = Some id.
Proof. destruct c; simpl; try done. intros H. apply Z.eqb_eq in H. by subst. Qed.

Lemma isSelectionFetch_scope (id : Z) (c : Cmd) :
  isSelectionFetch id c = true → scope c = Some id.
Proof. destruct c; simpl; try done. intros H. apply Z.eqb_eq in H. by subst. Qed.

Lemma count_other (kind : Z → Cmd → bool) (G id : Z) (cmds : list Cmd) :
  scopedKind kind →
  (∀ c, c ∈ cmds → scope c = None ∨ scope c = Some G) →
  id ≠ G → count (kind id) cmds = 0.
Proof.
  intros Hk Hc Hne. apply count_zero. intros c Hin.
  destruct (kind id c) eqn:E; [ | done].
  apply Hk in E. destruct (Hc c Hin) as [H | H]; congruence.
Qed.

Lemma count_unscoped (kind : Z → Cmd → bool) (id : Z) (cmds : list Cmd) :
  scopedKind kind →
  (∀ c, c ∈ cmds → scope c = None) →
  count (kind id) cmds = 0.
Proof.
  intros Hk Hc. apply count_zero. intros c Hin.
  destruct (kind id c) eqn:E; [ | done].
  apply Hk in E. rewrite (Hc c Hin) in E. done.
Qed.

(** ** Effects compose *)

Lemma tracks_trans flag kind (m m1 m2 : Model) (c1 c2 : list Cmd) :
  tracks flag kind m m1 c1 → tracks flag kind m1 m2 c2 →
  tracks flag kind m m2 (c1 ++ c2)%list.
Proof.
  intros H1 H2 id. rewrite count_app, (H2 id), (H1 id). lia.
Qed.

Lemma providerIDs_same (m m' : Model) :
  providers m' = providers m → providerIDs m' = providerIDs m.
Proof. intros H. unfold providerIDs. by rewrite H. Qed.

Lemma effect_trans loads (m m1 m2 : Model) (c1 c2 : list Cmd) :
  effect loads m m1 c1 → effect loads m1 m2 c2 →
  effect loads m m2 (c1 ++ c2)%list.
Proof.
  intros [P1 O1 N1 S1 W1 A1 L1 X1 C1] [P2 O2 N2 S2 W2 A2 L2 X2 C2].
  split.
  - congruence.
  - set_solver.
  - intros id Hid. destruct (N2 id Hid) as [H | H]; [by apply N1 | ].
    right. by rewrite <- (providerIDs_same _ _ P1).
  - intros c id Hc Hs. apply elem_of_app in Hc as [Hc | Hc].
    + apply O2. by apply (S1 c).
    + by apply (S2 c).
  - by apply tracks_trans with m1.
  - intros Hl. apply tracks_trans with m1; auto.
  - intros Hl. apply tracks_trans with m1; auto.
  - auto.
  - auto.
Qed.

(** The effect of a handler that writes to the entry of one provider [G],
    the current one, and returns commands about [G] only. *)
Lemma effect_single loads (m m' : Model) (cmds : list Cmd) (G : Z) st' :
  providers m' = providers m →
  (cursorsValid m → cursorsValid m') →
  dom (providerData m') = dom (providerData m) ∪ (if G =? 0 then ∅ else {[G]}) →
  (G = 0 ∨ G ∈ providerIDs m) →
  (∀ id, entry m' id = if (id =? G) && negb (G =? 0) then st' else entry m id) →
  (∀ c, c ∈ cmds → scope c = None ∨ (scope c = Some G ∧ G ≠ 0)) →
  (G ≠ 0 →
   b2z (switching st') = b2z (switching (entry m G)) + count (isSwitch G) cmds) →
  (loads = true → G ≠ 0 →
   b2z (loadingAlternatives st')
   = b2z (loadingAlternatives (entry m G)) + count (isAlternativesFetch G) cmds) →
  (loads = true → G ≠ 0 →
   b2z (loadingSelection st')
   = b2z (loadingSelection (entry m G)) + count (isSelectionFetch G) cmds) →
  (G ≠ 0 →
   alternativesLoaded (entry m G) && loadingAlternatives (entry m G) = false →
   alternativesLoaded st' && loadingAlternatives st' = false) →
  effect loads m m' cmds.
Proof.
  intros Hp Hcur Hdom HG Hentry Hscope Hsw Halt Hsel Hex.
  assert (Htr : ∀ flag kind, scopedKind kind →
            (G ≠ 0 → b2z (flag st') = b2z (flag (entry m G)) + count (kind G) cmds) →
            tracks flag kind m m' cmds).
  { intros flag kind Hk Hflag id. rewrite Hentry.
    destruct (Z.eqb_spec G 0) as [H0 | H0]; simpl.
    - rewrite andb_false_r, (count_unscoped kind id cmds Hk); [lia | ].
      intros c Hc. destruct (Hscope c Hc) as [H | [_ H]]; done.
    - rewrite andb_true_r. destruct (Z.eqb_spec id G) as [-> | Hne]; [by apply Hflag | ].
      rewrite (count_other kind G id cmds Hk); [lia | | done].
      intros c Hc. destruct (Hscope c Hc) as [H | [H _]]; auto. }
  split.
  - done.
  - rewrite Hdom. set_solver.
  - intros id. rewrite Hdom. intros Hid. apply elem_of_union in Hid as [Hid | Hid]; [by left | ].
    right. destruct (Z.eqb_spec G 0) as [H0 | H0]; [set_solver | ].
    apply elem_of_singleton in Hid. subst id. destruct HG; done.
  - intros c id Hc Hs. rewrite Hdom.
    destruct (Hscope c Hc) as [H | [H H0]]; [congruence | ].
    assert (id = G) as -> by congruence.
    destruct (Z.eqb_spec G 0); [done | set_solver].
  - apply Htr; [exact isSwitch_scope | done].
  - intros Hl. apply Htr; [exact isAlternativesFetch_scope | auto].
  - intros Hl. apply Htr; [exact isSelectionFetch_scope | auto].
  - intros Hx id. rewrite Hentry.
    destruct ((id =? G) && negb (G =? 0)) eqn:E; [ | apply Hx].
    apply andb_true_iff in E as [_ E]. apply negb_true_iff, Z.eqb_neq in E.
    apply Hex; [done | apply Hx].
  - done.
Qed.

(** A handler that leaves the cache as it is and returns no command about a
    provider. *)
Lemma effect_frame loads (m m' : Model) (cmds : list Cmd) :
  providers m' = providers m →
  providerData m' = providerData m →
  (cursorsValid m → cursorsValid m') →
  (∀ c, c ∈ cmds → scope c = None) →
  effect loads m m' cmds.
Proof.
  intros Hp Hpd Hcur Hscope.
  apply (effect_single loads m m' cmds 0 zeroState); try done.
  - rewrite Hpd. simpl. set_solver.
  - by left.
  - intros id. rewrite andb_false_r. unfold entry. by rewrite Hpd.
  - intros c Hc. left. by apply Hscope.
Qed.

Lemma effect_refl loads (m : Model) : effect loads m m [].
Proof. apply effect_frame; try done. intros c Hc. by apply elem_of_nil in Hc. Qed.

Lemma effect_weaken (m m' : Model) (cmds : list Cmd) :
  effect true m m' cmds → effect false m m' cmds.
Proof. intros []. split; try done. Qed.

(** ** The effect of each action *)

Lemma currentProviderID_known (m : Model) :
  currentProviderID m = 0 ∨ currentProviderID m ∈ providerIDs m.
Proof.
  destruct (providers m) eqn:H.
  - left. by apply currentProviderID_empty.
  - right. apply currentProviderID_in. by rewrite H.
Qed.

Lemma findAlternativeIndex_from_bound (i : Z) alts (id : Z) :
  findAlternativeIndex_from i alts id = -1
  ∨ i ≤ findAlternativeIndex_from i alts id < i + len alts.
Proof.
  revert i. induction alts as [ | a alts IH]; intros i; simpl; [by left | ].
  unfold len in *. simpl length.
  destruct (api.altID (api.Alternative a) =? id); [right; lia | ].
  destruct (IH (i + 1)) as [H | H]; [by left | right; lia].
Qed.

Lemma syncedIdx_range (st : providerState) (cur : Z) :
  (alternatives st = [] ∧ syncedIdx st cur = 0)
  ∨ 0 ≤ syncedIdx st cur < len (alternatives st).
Proof.
  unfold syncedIdx.
  set (idx := match selection st with Some _ => _ | None => _ end).
  assert (idx = -1 ∨ 0 ≤ idx < len (alternatives st)) as Hidx.
  { unfold idx. destruct (selection st); [ | by left].
    destruct (0 <? len (alternatives st)); [ | by left].
    destruct (findAlternativeIndex_from_bound 0 (alternatives st)
                (api.SelectedAlternativeID p)) as [H | H]; [by left | right].
    unfold findAlternativeIndex. lia. }
  destruct (Z.geb_spec idx 0); [right; lia | ].
  destruct (Z.eqb_spec (len (alternatives st)) 0) as [H0 | H0].
  - left. split; [ | done]. unfold len in H0. by destruct (alternatives st).
  - right. apply clampIndex_range. unfold len in *. lia.
Qed.

Lemma syncedIdx_nonneg (st : providerState) (cur : Z) : 0 ≤ syncedIdx st cur.
Proof. destruct (syncedIdx_range st cur) as [[_ ->] | H]; lia. Qed.

Lemma ensured_stored (pd : gmap Z providerState) (id : Z) st :
  ensured (stored pd id st) id = stored pd id st.
Proof.
  unfold ensured, stored. destruct (id =? 0); [done | ].
  by rewrite lookup_insert_eq.
Qed.

Lemma ensured_ensured (pd : gmap Z providerState) (id : Z) :
  ensured (ensured pd id) id = ensured pd id.
Proof.
  unfold ensured. destruct (id =? 0); [done | ].
  destruct (pd !! id) eqn:H; [by rewrite H | by rewrite lookup_insert_eq].
Qed.

Lemma entry_present (m : Model) (id : Z) :
  id ≠ 0 → id ∈ dom (providerData m) →
  ensured (providerData m) id = providerData m.
Proof.
  intros H0 Hin. unfold ensured. destruct (id =? 0); [done | ].
  apply elem_of_dom in Hin as [st ->]. done.
Qed.

Lemma cursorsValid_altIdx (m m' : Model) :
  providers m' = providers m → providerIdx m' = providerIdx m →
  balancePreferenceIdx m' = balancePreferenceIdx m →
  (altIdx m' = altIdx m ∨ 0 ≤ altIdx m') →
  cursorsValid m → cursorsValid m'.
Proof.
  unfold cursorsValid. intros -> -> -> Ha (H1 & H2 & H3 & H4).
  split; [done | ]. split; [done | ]. split; [ | done].
  destruct Ha; lia.
Qed.

Lemma effect_ensure loads (m : Model) (G : Z) :
  G = 0 ∨ G ∈ providerIDs m →
  effect loads m (fst (ensureProviderState m G)) [].
Proof.
  intros HG. rewrite ensureProviderState_eq. simpl.
  apply (effect_single loads _ _ _ G (entry m G)); try done.
  - simpl. apply dom_ensured.
  - intros id. rewrite entry_set_providerData, lookupEntry_ensured.
    destruct ((id =? G) && negb (G =? 0)) eqn:E; [ | done].
    apply andb_true_iff in E as [E _]. apply Z.eqb_eq in E. by subst.
  - intros c Hc. by apply elem_of_nil in Hc.
  - simpl. lia.
  - simpl. lia.
  - simpl. lia.
Qed.

Lemma effect_syncAltIdx loads (m : Model) (G : Z) :
  G = 0 ∨ G ∈ providerIDs m → effect loads m (syncAltIdx m G) [].
Proof.
  intros HG. rewrite syncAltIdx_eq.
  destruct (_ || _); [apply effect_refl | ].
  apply (effect_single loads _ _ _ G (entry m G)); try done.
  - apply cursorsValid_altIdx; try done. right. apply syncedIdx_nonneg.
  - simpl. apply dom_ensured.
  - intros id.
    transitivity (lookupEntry (ensured (providerData m) G) id); [done | ].
    rewrite lookupEntry_ensured.
    destruct ((id =? G) && negb (G =? 0)) eqn:E; [ | done].
    apply andb_true_iff in E as [E _]. apply Z.eqb_eq in E. by subst.
  - intros c Hc. by apply elem_of_nil in Hc.
  - simpl. lia.
  - simpl. lia.
  - simpl. lia.
Qed.

Lemma syncAltIdx_fields (m : Model) (id : Z) :
  providers (syncAltIdx m id) = providers m
  ∧ providerIdx (syncAltIdx m id) = providerIdx m
  ∧ balancePreferenceIdx (syncAltIdx m id) = balancePreferenceIdx m
  ∧ (altIdx (syncAltIdx m id) = altIdx m ∨ 0 ≤ altIdx (syncAltIdx m id))
  ∧ (providerData (syncAltIdx m id) = providerData m
     ∨ providerData (syncAltIdx m id) = ensured (providerData m) id).
Proof.
  rewrite syncAltIdx_eq. destruct (_ || _); [repeat split; auto | ].
  simpl. repeat split; auto. right. apply syncedIdx_nonneg.
Qed.

(** [queueProviderDetailLoad] on a provider other than 0. *)
Lemma queueProviderDetailLoad_eq (m : Model) (id : Z) :
  id ≠ 0 →
  queueProviderDetailLoad m id =
    let st := entry m id in
    let m1 := set_providerData (stored (providerData m) id (queued st)) m in
    let m2 :=
      if needAlternatives st || needSelection st
      then set_status ("加载提供商 " ++ sprint_d id ++ " 详情中...") m1
      else m1 in
    (if alternativesLoaded (queued st) && selectionLoaded (queued st)
     then syncAltIdx m2 id else m2,
     queueCmds id st).
Proof.
  intros H0. unfold queueProviderDetailLoad.
  destruct (Z.eqb_spec id 0); [done | ].
  rewrite ensureProviderState_eq. simpl.
  unfold queued, queueCmds, needAlternatives, needSelection.
  generalize (entry m id). intros [alts sel al sl la ls sw le].
  destruct al, sl, la, ls; simpl;
    rewrite storeProviderState_eq; simpl; rewrite stored_ensured; reflexivity.
Qed.

Lemma queued_flags (st : providerState) (id : Z) :
  switching (queued st) = switching st
  ∧ b2z (loadingAlternatives (queued st))
    = b2z (loadingAlternatives st) + count (isAlternativesFetch id) (queueCmds id st)
  ∧ b2z (loadingSelection (queued st))
    = b2z (loadingSelection st) + count (isSelectionFetch id) (queueCmds id st)
  ∧ count (isSwitch id) (queueCmds id st) = 0
  ∧ (alternativesLoaded st && loadingAlternatives st = false →
     alternativesLoaded (queued st) && loadingAlternatives (queued st) = false).
Proof.
  unfold queued, queueCmds, needAlternatives, needSelection.
  destruct st as [alts sel al sl la ls sw le].
  destruct al, sl, la, ls; simpl; rewrite ?Z.eqb_refl; simpl; done.
Qed.

Lemma queueCmds_scope (id : Z) (st : providerState) (c : Cmd) :
  c ∈ queueCmds id st → scope c = Some id ∧ isFetch c = true.
Proof.
  unfold queueCmds. intros Hc. apply elem_of_app in Hc as [Hc | Hc].
  - destruct (needAlternatives st); [ | by apply elem_of_nil in Hc].
    apply list_elem_of_singleton in Hc. by subst.
  - destruct (needSelection st); [ | by apply elem_of_nil in Hc].
    apply list_elem_of_singleton in Hc. by subst.
Qed.

Lemma effect_queue (m : Model) (G : Z) :
  G = 0 ∨ G ∈ providerIDs m →
  effect true m (fst (queueProviderDetailLoad m G))
    (snd (queueProviderDetailLoad m G)).
Proof.
  intros HG. destruct (Z.eq_dec G 0) as [-> | H0]; [apply effect_refl | ].
  rewrite (queueProviderDetailLoad_eq m G H0). simpl.
  destruct (queued_flags (entry m G) G) as (Hsw & Ha & Hs & Hw & Hx).
  set (m1 := set_providerData _ m).
  set (m2 := if _ || _ then _ else m1).
  assert (providerData m2 = stored (providerData m) G (queued (entry m G))
          ∧ providers m2 = providers m ∧ providerIdx m2 = providerIdx m
          ∧ balancePreferenceIdx m2 = balancePreferenceIdx m
          ∧ altIdx m2 = altIdx m ∧ currentProviderID m2 = currentProviderID m)
    as (Hpd & Hp & Hpi & Hbi & Hai & Hcp).
  { unfold m2. by destruct (_ || _). }
  set (m3 := if _ && _ then _ else m2).
  assert (providerData m3 = stored (providerData m) G (queued (entry m G))
          ∧ providers m3 = providers m ∧ providerIdx m3 = providerIdx m
          ∧ balancePreferenceIdx m3 = balancePreferenceIdx m
          ∧ (altIdx m3 = altIdx m ∨ 0 ≤ altIdx m3))
    as (Hpd3 & Hp3 & Hpi3 & Hbi3 & Hai3).
  { unfold m3.
    destruct (alternativesLoaded (queued _) && selectionLoaded _);
      [ | repeat split; auto].
    destruct (syncAltIdx_fields m2 G) as (-> & -> & -> & Ha3 & Hd3).
    repeat split; try done.
    - destruct Hd3 as [-> | ->]; [done | ]. by rewrite Hpd, ensured_stored.
    - destruct Ha3 as [-> | Ha3]; auto. }
  apply (effect_single true m m3 _ G (queued (entry m G))); try done.
  - by apply cursorsValid_altIdx.
  - rewrite Hpd3. apply dom_stored.
  - intros id. rewrite (entry_eq m3 id), Hpd3. apply lookupEntry_stored.
  - intros c Hc. right. split; [ | done]. by apply queueCmds_scope in Hc as [? _].
  - intros _. rewrite Hsw, Hw. lia.
Qed.

Lemma effect_refreshCurrentProvider (m : Model) :
  effect false m (fst (refreshCurrentProvider m)) (snd (refreshCurrentProvider m)).
Proof.
  unfold refreshCurrentProvider.
  destruct (len (providers m) =? 0); [apply effect_refl | ].
  rewrite ensureProviderState_eq. simpl. rewrite storeProviderState_eq. simpl.
  rewrite stored_ensured. fold (invalidated (entry m (currentProviderID m))).
  set (G := currentProviderID m).
  set (m1 := set_providerData (stored (providerData m) G (invalidated (entry m G))) m).
  change (currentProviderID m1) with G.
  apply (effect_trans false m m1 _ [] _).
  - apply (effect_single false m m1 [] G (invalidated (entry m G))); try done.
    + apply dom_stored.
    + apply currentProviderID_known.
    + intros id. unfold m1. rewrite entry_set_providerData. apply lookupEntry_stored.
    + intros c Hc. by apply elem_of_nil in Hc.
    + simpl. lia.
  - apply effect_weaken, effect_queue. apply (currentProviderID_known m).
Qed.

Lemma effect_switchSelection (m : Model) :
  effect true m (fst (switchSelection m)) (snd (switchSelection m)).
Proof.
  rewrite switchSelection_eq.
  destruct (len (providers m) =? 0); [apply effect_refl | ]. simpl.
  set (G := currentProviderID m).
  pose proof (effect_ensure true m G (currentProviderID_known m)) as Hens.
  rewrite ensureProviderState_eq in Hens. simpl in Hens.
  destruct (switching (entry m G)) eqn:Hsw; [done | ].
  destruct (loadingAlternatives (entry m G)); [done | ].
  destruct (len (alternatives (entry m G)) =? 0); [done | ]. simpl.
  destruct (altIdx m >=? len (alternatives (entry m G))); [done | ].
  destruct (index (alternatives (entry m G)) (altIdx m)) as [chosen | ] eqn:Hi;
    [ | done].
  assert (G ≠ 0) as HG.
  { intros H0. rewrite H0, entry_zero in Hi. unfold index in Hi. simpl in Hi.
    by destruct (altIdx m <? 0). }
  unfold confirmed. fold G.
  destruct (match selection (entry m G) with Some _ => _ | None => _ end).
  - simpl.
    apply (effect_single true _ _ _ G (entry m G)); try done.
    + simpl. apply dom_ensured.
    + apply currentProviderID_known.
    + intros id.
      transitivity (lookupEntry (ensured (providerData m) G) id); [done | ].
      rewrite lookupEntry_ensured.
      destruct ((id =? G) && negb (G =? 0)) eqn:E; [ | done].
      apply andb_true_iff in E as [E _]. apply Z.eqb_eq in E. by subst.
    + intros c Hc. by apply elem_of_nil in Hc.
    + simpl. lia.
    + simpl. lia.
    + simpl. lia.
  - simpl.
    apply (effect_single true _ _ _ G (set_switching true (entry m G))); try done.
    + simpl. apply dom_stored.
    + apply currentProviderID_known.
    + intros id.
      transitivity
        (lookupEntry (stored (providerData m) G (set_switching true (entry m G))) id);
        [done | ].
      apply lookupEntry_stored.
    + intros c Hc. apply list_elem_of_singleton in Hc. subst c. by right.
    + intros _. simpl. rewrite Hsw, Z.eqb_refl. simpl. lia.
    + intros _ _. simpl. lia.
    + intros _ _. simpl. lia.
Qed.

(** A handler that moves cursors only. *)
Lemma effect_cursors loads (m m' : Model) :
  providers m' = providers m → providerData m' = providerData m →
  (cursorsValid m → cursorsValid m') →
  effect loads m m' [].
Proof.
  intros. apply effect_frame; try done. intros c Hc. by apply elem_of_nil in Hc.
Qed.

Lemma len_pos {A} (l : list A) : (len l =? 0) = false → 0 < len l.
Proof. intros H. apply Z.eqb_neq in H. unfold len in *. lia. Qed.

Lemma effect_moveSelection (m : Model) (delta : Z) :
  effect true m (fst (moveSelection m delta)) (snd (moveSelection m delta)).
Proof.
  unfold moveSelection.
  destruct (len (providers m) =? 0) eqn:Hlen; [apply effect_refl | ].
  apply len_pos in Hlen.
  destruct (focus m).
  - set (m1 := set_providerIdx _ m).
    set (m2 := syncAltIdx m1 (currentProviderID m1)).
    apply (effect_trans true m m1 _ [] _).
    { apply effect_cursors; try done.
      unfold cursorsValid. simpl. intros (_ & _ & H3 & H4).
      pose proof (clampIndex_range (int_add (providerIdx m) delta)
                    (len (providers m)) Hlen).
      repeat split; try lia. }
    apply (effect_trans true m1 m2 _ [] _).
    { apply effect_syncAltIdx, currentProviderID_known. }
    apply effect_queue.
    assert (providerIDs m2 = providerIDs m1) as ->.
    { apply providerIDs_same. apply syncAltIdx_fields. }
    assert (currentProviderID m2 = currentProviderID m1) as ->.
    { unfold currentProviderID.
      destruct (syncAltIdx_fields m1 (currentProviderID m1)) as (Hp & Hi & _).
      fold m2 in Hp, Hi. by rewrite Hp, Hi. }
    apply currentProviderID_known.
  - rewrite ensureProviderState_eq. simpl.
    set (G := currentProviderID m).
    pose proof (effect_ensure true m G (currentProviderID_known m)) as Hens.
    rewrite ensureProviderState_eq in Hens. simpl in Hens.
    destruct (len (alternatives (entry m G)) =? 0) eqn:Ha; [done | ].
    apply len_pos in Ha. simpl.
    set (m1 := set_providerData _ m) in *.
    apply (effect_trans true m m1 _ [] []); [done | ].
    apply effect_cursors; try done.
    apply cursorsValid_altIdx; try done. right. simpl.
    by apply clampIndex_range.
Qed.

Lemma effect_ensureProvidersLoaded loads (m : Model) :
  effect loads m (fst (ensureProvidersLoaded m)) (snd (ensureProvidersLoaded m)).
Proof.
  unfold ensureProvidersLoaded. destruct (_ || _); [apply effect_refl | ].
  apply effect_frame; try done.
  intros c Hc. apply list_elem_of_singleton in Hc. by subst.
Qed.

Lemma effect_syncBalancePreferenceIdx loads (m : Model) :
  effect loads m (syncBalancePreferenceIdx m) [].
Proof.
  unfold syncBalancePreferenceIdx.
  destruct (profile m) as [p | ]; [destruct (String.eqb _ _) | ];
    apply effect_cursors; try done; unfold cursorsValid; simpl; lia.
Qed.

Lemma effect_toggleBalancePreference loads (m : Model) :
  effect loads m (fst (toggleBalancePreference m)) (snd (toggleBalancePreference m)).
Proof.
  unfold toggleBalancePreference.
  destruct (profile m); [ | apply effect_refl].
  destruct (preferenceSwitching m); [apply effect_refl | ].
  destruct (String.eqb _ _); [apply effect_refl | ].
  apply effect_frame; try done.
  intros c Hc. apply list_elem_of_singleton in Hc. by subst.
Qed.

Lemma effect_any loads (m m' : Model) (cmds : list Cmd) :
  effect true m m' cmds → effect loads m m' cmds.
Proof. destruct loads; [done | apply effect_weaken]. Qed.

(** ** The effect of a key press *)

Lemma effect_handleQuitAndHelp loads (m : Model) (key : string) :
  effect loads m (fst (handleQuitAndHelp m key)) (snd (handleQuitAndHelp m key)).
Proof.
  unfold handleQuitAndHelp.
  destruct (String.eqb key "esc").
  - destruct (showHelpDialog m); [by apply effect_cursors | ].
    apply effect_frame; try done.
    intros c Hc. apply list_elem_of_singleton in Hc. by subst.
  - destruct (_ || _); [by apply effect_cursors | apply effect_refl].
Qed.

Lemma effect_handleTabChanged loads (m : Model) :
  effect loads m (fst (handleTabChanged m)) (snd (handleTabChanged m)).
Proof.
  unfold handleTabChanged. destruct (currentTab m); simpl.
  - apply effect_refl.
  - apply (effect_trans loads m (set_focus focusProviders m) _ [] _);
      [by apply effect_cursors | apply effect_ensureProvidersLoaded].
  - apply effect_syncBalancePreferenceIdx.
Qed.

(** Changing the tab or the focus leaves the cache and the cursors alone. *)
Lemma effect_set_currentTab loads (m : Model) (t : tabIndex) :
  effect loads m (set_currentTab t m) [].
Proof. by apply effect_cursors. Qed.

Lemma effect_set_focus loads (m : Model) (a : focusArea) :
  effect loads m (set_focus a m) [].
Proof. by apply effect_cursors. Qed.

Lemma effect_then loads (m m1 : Model) (h : Model → Model * list Cmd) :
  effect loads m m1 [] →
  (∀ m, effect loads m (fst (h m)) (snd (h m))) →
  effect loads m (fst (h m1)) (snd (h m1)).
Proof. intros H1 H2. apply (effect_trans loads m m1 _ [] _); auto. Qed.

Lemma effect_handleTabSwitch loads (m : Model) (key : string) :
  effect loads m (fst (handleTabSwitch m key)) (snd (handleTabSwitch m key)).
Proof.
  unfold handleTabSwitch, switchToNextTab, switchToPrevTab.
  destruct (String.eqb key "1"); [apply effect_set_currentTab | ].
  destruct (String.eqb key "2").
  { apply effect_then; [ | apply effect_ensureProvidersLoaded].
    by apply effect_cursors. }
  destruct (String.eqb key "3").
  { apply (effect_trans loads m (set_currentTab tabBalancePreference m) _ [] []);
      [apply effect_set_currentTab | apply effect_syncBalancePreferenceIdx]. }
  destruct (String.eqb key "tab").
  { apply effect_then; [apply effect_set_currentTab | apply effect_handleTabChanged]. }
  destruct (String.eqb key "shift+tab").
  { apply effect_then; [apply effect_set_currentTab | apply effect_handleTabChanged]. }
  apply effect_refl.
Qed.

Lemma effect_handleFocusSwitch loads (m : Model) (key : string) :
  effect loads m (handleFocusSwitch m key) [].
Proof.
  unfold handleFocusSwitch. destruct (currentTab m); try apply effect_refl.
  destruct (_ || _); [apply effect_set_focus | ].
  destruct (_ || _); [ | apply effect_refl].
  apply (effect_trans loads m (set_focus focusAlternatives m) _ [] []);
    [apply effect_set_focus | ].
  apply effect_syncAltIdx, currentProviderID_known.
Qed.

Lemma effect_handleRefresh loads (m : Model) (key : string) :
  (loads = true → key ≠ "r") →
  effect loads m (fst (handleRefresh m key)) (snd (handleRefresh m key)).
Proof.
  intros Hl. unfold handleRefresh.
  destruct (String.eqb_spec key "r") as [-> | Hne]; simpl; [ | apply effect_refl].
  destruct loads; [by destruct Hl | ].
  destruct (currentTab m).
  - unfold refreshProfile. apply effect_frame; try done.
    intros c Hc. apply list_elem_of_singleton in Hc. by subst.
  - apply effect_refreshCurrentProvider.
  - apply effect_refl.
Qed.

Lemma effect_handleEnter loads (m : Model) (key : string) :
  effect loads m (fst (handleEnter m key)) (snd (handleEnter m key)).
Proof.
  unfold handleEnter. destruct (negb _); [apply effect_refl | ].
  destruct (currentTab m).
  - apply effect_refl.
  - destruct (focus m); [apply effect_refl | ].
    apply effect_any, effect_switchSelection.
  - apply effect_toggleBalancePreference.
Qed.

Lemma effect_scroll loads (m : Model) (vp : viewportModel) :
  effect loads m (set_profileViewport vp m) [].
Proof. by apply effect_cursors. Qed.

Lemma effect_handleNavigation loads (m : Model) (key : string) :
  effect loads m (fst (handleNavigation m key)) (snd (handleNavigation m key)).
Proof.
  unfold handleNavigation.
  set (delta := if _ || _ then Some (-1) else _).
  assert (delta = None ∨ delta = Some (-1) ∨ delta = Some 1) as Hd.
  { unfold delta. destruct (_ || _); [auto | ]. destruct (_ || _); auto. }
  destruct delta as [d | ]; [ | apply effect_refl].
  destruct (currentTab m).
  - destruct (d <? 0); apply effect_scroll.
  - apply effect_any, effect_moveSelection.
  - simpl. apply effect_cursors; try done.
    unfold cursorsValid. simpl. intros (H1 & H2 & H3 & H4).
    pose proof (clampIndex_range (int_add (balancePreferenceIdx m) d) 2).
    repeat split; try lia.
Qed.

(** The command a handler returned, as [handleKey] tests it. *)
Lemma isNil_false (cmd : list Cmd) : negb (isNil cmd) = false → cmd = [].
Proof. by destruct cmd. Qed.

Lemma effect_handleKey loads (m : Model) (k : KeyMsg) :
  (loads = true → keyString k ≠ "r") →
  effect loads m (fst (handleKey m k)) (snd (handleKey m k)).
Proof.
  intros Hl. unfold handleKey.
  destruct (keyType k).
  { apply effect_frame; try done.
    intros c Hc. apply list_elem_of_singleton in Hc. by subst. }
  pose proof (effect_handleQuitAndHelp loads m (keyString k)) as H1.
  destruct (handleQuitAndHelp m (keyString k)) as [m1 cmd1]. simpl in H1.
  destruct (negb (isNil cmd1)) eqn:E1; [done | ].
  apply isNil_false in E1. subst cmd1.
  pose proof (effect_handleTabSwitch loads m1 (keyString k)) as H2.
  destruct (handleTabSwitch m1 (keyString k)) as [m2 cmd2]. simpl in H2.
  destruct (negb (isNil cmd2)) eqn:E2;
    [exact (effect_trans loads m m1 m2 [] cmd2 H1 H2) | ].
  apply isNil_false in E2. subst cmd2.
  pose proof (effect_trans loads m m1 m2 [] [] H1 H2) as H12. simpl in H12.
  pose proof (effect_handleFocusSwitch loads m2 (keyString k)) as H3.
  set (m3 := handleFocusSwitch m2 (keyString k)) in *.
  pose proof (effect_trans loads m m2 m3 [] [] H12 H3) as H13. simpl in H13.
  pose proof (effect_handleRefresh loads m3 (keyString k) Hl) as H4.
  destruct (handleRefresh m3 (keyString k)) as [m4 cmd4]. simpl in H4.
  destruct (negb (isNil cmd4)) eqn:E4;
    [exact (effect_trans loads m m3 m4 [] cmd4 H13 H4) | ].
  apply isNil_false in E4. subst cmd4.
  pose proof (effect_trans loads m m3 m4 [] [] H13 H4) as H14. simpl in H14.
  pose proof (effect_handleEnter loads m4 (keyString k)) as H5.
  destruct (handleEnter m4 (keyString k)) as [m5 cmd5]. simpl in H5.
  destruct (negb (isNil cmd5)) eqn:E5;
    [exact (effect_trans loads m m4 m5 [] cmd5 H14 H5) | ].
  apply isNil_false in E5. subst cmd5.
  pose proof (effect_trans loads m m4 m5 [] [] H14 H5) as H15. simpl in H15.
  pose proof (effect_handleNavigation loads m5 (keyString k)) as H6.
  destruct (handleNavigation m5 (keyString k)) as [m6 cmd6]. simpl in H6.
  destruct (negb (isNil cmd6)) eqn:E6;
    [exact (effect_trans loads m m5 m6 [] cmd6 H15 H6) | ].
  apply isNil_false in E6. subst cmd6.
  exact (effect_trans loads m m5 m6 [] [] H15 H6).
Qed.

(** ** The effect of the mouse *)

Lemma effect_handleMouseWheel loads (m : Model) (delta : Z) :
  effect loads m (fst (handleMouseWheel m delta)) (snd (handleMouseWheel m delta)).
Proof.
  unfold handleMouseWheel. destruct (currentTab m).
  - destruct (delta <? 0); apply effect_scroll.
  - apply effect_any, effect_moveSelection.
  - apply effect_any, effect_moveSelection.
Qed.

Lemma effect_handleTabClick loads (m : Model) (x : Z) :
  effect loads m (fst (handleTabClick m x)) (snd (handleTabClick m x)).
Proof.
  unfold handleTabClick. simpl.
  destruct (x <? tab1Width); [apply effect_set_currentTab | ].
  destruct (x <? tab1Width + tab2Width).
  - apply effect_then; [ | apply effect_ensureProvidersLoaded].
    by apply effect_cursors.
  - apply (effect_trans loads m (set_currentTab tabBalancePreference m) _ [] []);
      [apply effect_set_currentTab | apply effect_syncBalancePreferenceIdx].
Qed.

Lemma effect_handleProvidersClick loads (m : Model) (x contentY : Z) :
  effect loads m (fst (handleProvidersClick m x contentY))
    (snd (handleProvidersClick m x contentY)).
Proof.
  unfold handleProvidersClick.
  destruct (len (providers m) =? 0) eqn:Hlen; [apply effect_refl | ].
  set (listItemY := int_sub contentY (panelInnerOffsetY getUILayout)).
  destruct (x <? Z.quot (width m) 2).
  - destruct ((listItemY >=? 0) && (listItemY <? len (providers (set_focus focusProviders m))))
      eqn:Hy; [ | apply effect_set_focus].
    apply andb_true_iff in Hy as [Hy1 Hy2]. simpl in Hy2.
    set (m1 := set_providerIdx listItemY (set_focus focusProviders m)).
    apply (effect_trans loads m m1 _ [] _).
    + apply effect_cursors; try done. unfold cursorsValid. simpl.
      intros (_ & _ & H3 & H4). repeat split; lia.
    + apply effect_any, effect_queue, currentProviderID_known.
  - rewrite ensureProviderState_eq. simpl.
    set (G := currentProviderID m).
    set (m1 := set_providerData (ensured (providerData m) G) (set_focus focusAlternatives m)).
    assert (effect loads m m1 []) as H1.
    { apply (effect_trans loads m (set_focus focusAlternatives m) _ [] []);
        [apply effect_set_focus | ].
      pose proof (effect_ensure loads (set_focus focusAlternatives m) G
                    (currentProviderID_known m)) as H.
      by rewrite ensureProviderState_eq in H. }
    destruct (alternativesLoaded _); [ | done].
    destruct ((listItemY >=? 0) && _) eqn:Hy.
    + apply andb_true_iff in Hy as [Hy1 Hy2].
      apply (effect_trans loads m (set_altIdx listItemY m1) _ [] _).
      * apply (effect_trans loads m m1 _ [] []); [done | ].
        apply effect_cursors; try done.
        apply cursorsValid_altIdx; try done. right. simpl. lia.
      * apply effect_any, effect_switchSelection.
    + simpl. apply (effect_trans loads m m1 _ [] []); [done | ].
      apply effect_syncAltIdx, currentProviderID_known.
Qed.

Lemma effect_handleBalancePreferenceClick loads (m : Model) (contentY : Z) :
  effect loads m (fst (handleBalancePreferenceClick m contentY))
    (snd (handleBalancePreferenceClick m contentY)).
Proof.
  unfold handleBalancePreferenceClick.
  set (targetIdx := if _ && _ then Some 0 else _).
  assert (targetIdx = None ∨ targetIdx = Some 0 ∨ targetIdx = Some 1) as Ht.
  { unfold targetIdx. destruct (_ && _); [auto | ]. destruct (_ && _); auto. }
  destruct targetIdx as [t | ]; [ | apply effect_refl].
  destruct (negb _); [ | apply effect_refl].
  apply effect_then; [ | apply effect_toggleBalancePreference].
  apply effect_cursors; try done. unfold cursorsValid. simpl.
  intros (H1 & H2 & H3 & H4). repeat split; try done;
    destruct Ht as [Ht | [Ht | Ht]]; try done; injection Ht as ->; lia.
Qed.

Lemma effect_handleMouse loads (m : Model) (e : MouseMsg) :
  effect loads m (fst (handleMouse m e)) (snd (handleMouse m e)).
Proof.
  unfold handleMouse, handleContentClick.
  destruct (mouseButton e); try apply effect_refl;
    try apply effect_handleMouseWheel.
  destruct (mouseAction e); try apply effect_refl.
  destruct (mouseY e =? _); [apply effect_handleTabClick | ].
  destruct (mouseY e >=? _); [ | apply effect_refl].
  destruct (currentTab m).
  - apply effect_refl.
  - apply effect_handleProvidersClick.
  - apply effect_handleBalancePreferenceClick.
Qed.

(** ** The effect of an input *)

Lemma effect_set_spinner loads (m : Model) sp : effect loads m (set_spinner sp m) [].
Proof. by apply effect_cursors. Qed.

Lemma effect_input loads (m : Model) (msg : Msg) :
  isInput msg →
  (loads = true → noRefresh msg) →
  effect loads m (fst (Update m msg)) (snd (Update m msg)).
Proof.
  intros Hin Hl. unfold Update.
  destruct msg; try done; simpl.
  - apply (effect_trans loads m (handleWindowResize m Width Height) _ [] []);
      [by apply effect_cursors | apply effect_set_spinner].
  - pose proof (effect_handleKey loads m k Hl) as H.
    destruct (handleKey m k) as [m1 cmds]. simpl in *.
    apply (effect_trans loads m m1 _ cmds []); [done | apply effect_set_spinner].
  - pose proof (effect_handleMouse loads m e) as H.
    destruct (handleMouse m e) as [m1 cmds]. simpl in *.
    apply (effect_trans loads m m1 _ cmds []); [done | apply effect_set_spinner].
Qed.

Section LoopFacts.

Context `{R : Renderer}.

Lemma effect_viewEffect loads (m : Model) : effect loads m (viewEffect m) [].
Proof.
  unfold viewEffect. destruct (currentTab m).
  - unfold renderProfileTab. destruct (profile m); simpl.
    + by apply effect_cursors.
    + destruct (negb _); apply effect_refl.
  - destruct (len (providers m) =? 0); [apply effect_refl | ].
    apply effect_ensure, currentProviderID_known.
  - apply effect_refl.
Qed.

End LoopFacts.

(** ** The invariant of the event loop *)

Lemma invariant_initial loads : invariant loads NewModel Init.
Proof.
  split.
  - simpl. set_solver.
  - intros c id Hc. unfold Init in Hc.
    repeat (apply elem_of_cons in Hc as [-> | Hc]; [done | ]).
    by apply elem_of_nil in Hc.
  - intros id. unfold entry. simpl. by destruct (id =? 0).
  - intros _ id. unfold entry. simpl. by destruct (id =? 0).
  - intros _ id. unfold entry. simpl. by destruct (id =? 0).
  - intros id. unfold entry. simpl. by destruct (id =? 0).
  - unfold cursorsValid. simpl. lia.
Qed.

Lemma invariant_effect loads (m m' : Model) (l cmds : list Cmd) :
  invariant loads m l → effect loads m m' cmds →
  invariant loads m' (l ++ cmds)%list.
Proof.
  intros [Iz Is Iw Ia Il Ix Ic] [P O N S W A L X C].
  split.
  - intros H0. destruct (N 0 H0) as [H | [H _]]; done.
  - intros c id Hc Hs. apply elem_of_app in Hc as [Hc | Hc].
    + apply O. by apply (Is c).
    + by apply (S c).
  - intros id. rewrite count_app, Iw, (W id). lia.
  - intros Hl id. rewrite count_app, (Ia Hl), (A Hl id). lia.
  - intros Hl id. rewrite count_app, (Il Hl), (L Hl id). lia.
  - auto.
  - auto.
Qed.

(** A command that is about no provider can leave the commands in flight. *)
Lemma invariant_remove loads (m : Model) (l1 l2 : list Cmd) (c : Cmd) :
  scope c = None →
  invariant loads m (l1 ++ c :: l2)%list → invariant loads m (l1 ++ l2)%list.
Proof.
  intros Hc [Iz Is Iw Ia Il Ix Ic].
  assert (Hk : ∀ kind id, scopedKind kind → b2z (kind id c) = 0).
  { intros kind id Hk. destruct (kind id c) eqn:E; [ | done].
    apply Hk in E. congruence. }
  split; try done.
  - intros c' id Hc' Hs. apply (Is c'); [ | done].
    apply elem_of_app in Hc' as [H | H]; apply elem_of_app; [by left | right].
    by apply list_elem_of_further.
  - intros id. rewrite <- Iw, count_remove, (Hk isSwitch); [done | ].
    exact isSwitch_scope.
  - intros Hl id. rewrite <- (Ia Hl), count_remove, (Hk isAlternativesFetch); [done | ].
    exact isAlternativesFetch_scope.
  - intros Hl id. rewrite <- (Il Hl), count_remove, (Hk isSelectionFetch); [done | ].
    exact isSelectionFetch_scope.
Qed.

Lemma effect_plainResult loads (m : Model) (msg : Msg) :
  plainResult msg → effect loads m (fst (Update m msg)) (snd (Update m msg)).
Proof.
  destruct msg; try done; intros _; unfold Update; simpl.
  - by apply effect_cursors.
  - unfold handlePreferenceUpdated.
    set (m1 := set_preferenceSwitching false _).
    assert (effect loads m m1 []) as H1.
    { unfold m1. destruct (profile m); by apply effect_cursors. }
    pose proof (effect_syncBalancePreferenceIdx loads m1) as H2.
    pose proof (effect_trans loads _ _ _ _ _ H1 H2) as H3.
    apply (effect_trans loads m (syncBalancePreferenceIdx m1) _ [] _); [done | ].
    apply effect_frame; try done.
    intros c Hc. apply list_elem_of_singleton in Hc. by subst.
  - apply effect_frame; try done.
    intros c Hc. apply list_elem_of_singleton in Hc. by subst.
  - unfold handleError. simpl.
    destruct (loadingProviders m); simpl; destruct (loadingProfile m); simpl;
      apply effect_frame; try done;
      intros c Hc; apply list_elem_of_singleton in Hc; by subst.
  - by apply effect_cursors.
  - unfold handleProfileRefreshTick.
    destruct (currentTab m); simpl; apply effect_frame; try done;
      intros c Hc;
      repeat (apply elem_of_cons in Hc as [-> | Hc]; [done | ]);
      by apply elem_of_nil in Hc.
  - apply effect_frame; try done.
    intros c Hc. apply list_elem_of_singleton in Hc. by subst.
Qed.

(** What a result about provider [G] leaves in the cache. *)
Lemma scoped_result_entry (m : Model) (G : Z) (msg : Msg) :
  scopedResult G msg →
  let m' := fst (Update m msg) in
  providerData m' = stored (providerData m) G (completed msg (entry m G))
  ∧ providers m' = providers m
  ∧ (cursorsValid m → cursorsValid m')
  ∧ (∀ c, c ∈ snd (Update m msg) → scope c = None).
Proof.
  intros Hmsg.
  set (mw := written m G msg).
  assert (Hsync : providerData (syncAltIdx mw G)
                  = stored (providerData m) G (completed msg (entry m G))
                  ∧ providers (syncAltIdx mw G) = providers m
                  ∧ (cursorsValid m → cursorsValid (syncAltIdx mw G))).
  { destruct (syncAltIdx_fields mw G) as (Hp & Hi & Hb & Ha & Hd).
    split; [ | split].
    - destruct Hd as [-> | ->]; [done | ]. unfold mw, written. simpl.
      apply ensured_stored.
    - by rewrite Hp.
    - apply cursorsValid_altIdx; try done. }
  destruct Hsync as (Hs1 & Hs2 & Hs3).
  assert (Hnil : ∀ c : Cmd, c ∈ @nil Cmd → scope c = None).
  { intros c Hc. by apply elem_of_nil in Hc. }
  assert (Hone : ∀ d (c : Cmd), c ∈ [clearStatusAfter d] → scope c = None).
  { intros d c Hc. apply list_elem_of_singleton in Hc. by subst. }
  destruct msg; simpl in Hmsg; try done; subst providerID; unfold Update;
    cbn [spinner_Update fst snd].
  - rewrite handleAlternativesLoaded_eq. fold mw. unfold clearLoadingStatus.
    destruct (_ && _); (split; [ | split; [ | split]]); done.
  - rewrite handleSelectionLoaded_eq. fold mw. unfold clearLoadingStatus.
    destruct (_ && _); (split; [ | split; [ | split]]); done.
  - rewrite handleSwitchCompleted_eq. fold mw.
    split; [ | split; [ | split]]; try done. apply Hone.
  - rewrite handleProviderLoadFailed_eq. fold mw.
    split; [ | split; [ | split]]; try done. apply Hone.
Qed.

Lemma delivers_scoped (c : Cmd) (msg : Msg) (G : Z) :
  delivers c msg → scope c = Some G → scopedResult G msg.
Proof.
  intros Hd Hs. destruct Hd; simpl in Hs; try done;
    injection Hs as ->; by destruct r.
Qed.

Lemma delivers_unscoped (c : Cmd) (msg : Msg) :
  delivers c msg → scope c = None →
  plainResult msg ∨ ∃ response, msg = providersLoadedMsg response.
Proof.
  intros Hd Hs. destruct Hd; simpl in Hs; try done;
    try (by left); try (destruct r; simpl; eauto; by left).
Qed.

(** The flags of the entry once the result of [c] is in. *)
Lemma completed_flags (c : Cmd) (msg : Msg) (G : Z) (st : providerState) :
  delivers c msg → scope c = Some G →
  b2z (switching (completed msg st))
    = (if isSwitch G c then 0 else b2z (switching st))
  ∧ b2z (loadingAlternatives (completed msg st))
    = (if isAlternativesFetch G c then 0 else b2z (loadingAlternatives st))
  ∧ b2z (loadingSelection (completed msg st))
    = (if isSelectionFetch G c then 0 else b2z (loadingSelection st))
  ∧ (alternativesLoaded st && loadingAlternatives st = false →
     alternativesLoaded (completed msg st) && loadingAlternatives (completed msg st)
     = false).
Proof.
  intros Hd Hs. destruct Hd; simpl in Hs; try done; injection Hs as ->;
    destruct r; simpl; rewrite ?Z.eqb_refl; repeat split; try done;
    by rewrite ?andb_false_r.
Qed.

Lemma invariant_scoped loads (m : Model) (l1 l2 : list Cmd) (c : Cmd)
    (msg : Msg) (G : Z) :
  invariant loads m (l1 ++ c :: l2)%list →
  delivers c msg → scope c = Some G →
  invariant loads (fst (Update m msg)) (l1 ++ l2 ++ snd (Update m msg))%list.
Proof.
  intros [Iz Is Iw Ia Il Ix Ic] Hd Hs.
  assert (G ∈ dom (providerData m)) as HG.
  { apply (Is c); [ | done]. apply elem_of_app. right. apply list_elem_of_here. }
  assert (G ≠ 0) as H0 by (intros ->; done).
  destruct (scoped_result_entry m G msg (delivers_scoped c msg G Hd Hs))
    as (Hpd & Hp & Hcur & Hcmds).
  destruct (completed_flags c msg G (entry m G) Hd Hs) as (Fw & Fa & Fl & Fx).
  set (m' := fst (Update m msg)) in *.
  set (cmds := snd (Update m msg)) in *.
  assert (Hentry : ∀ id, entry m' id
            = if id =? G then completed msg (entry m G) else entry m id).
  { intros id. rewrite (entry_eq m' id), Hpd, lookupEntry_stored.
    destruct (Z.eqb_spec G 0); [done | ]. by rewrite andb_true_r. }
  assert (Hdom : dom (providerData m') = dom (providerData m)).
  { rewrite Hpd, dom_stored. destruct (G =? 0); set_solver. }
  assert (Hcount : ∀ (flag : providerState → bool) kind, scopedKind kind →
            (∀ id, count (kind id) (l1 ++ c :: l2)%list = b2z (flag (entry m id))) →
            b2z (flag (completed msg (entry m G)))
              = (if kind G c then 0 else b2z (flag (entry m G))) →
            ∀ id, count (kind id) (l1 ++ l2 ++ cmds)%list = b2z (flag (entry m' id))).
  { intros flag kind Hk Hinv Hflag id.
    rewrite app_assoc, count_app, (count_unscoped kind id cmds Hk Hcmds).
    specialize (Hinv id). rewrite count_remove in Hinv.
    pose proof (count_nonneg (kind id) (l1 ++ l2)%list) as Hnn.
    rewrite Hentry. destruct (Z.eqb_spec id G) as [-> | Hne].
    - rewrite Hflag. destruct (kind G c); simpl in Hinv.
      + destruct (flag (entry m G)); simpl in Hinv; lia.
      + lia.
    - destruct (kind id c) eqn:E; [ | simpl in Hinv; lia].
      apply Hk in E. congruence. }
  split.
  - by rewrite Hdom.
  - intros c' id Hc' Hs'. rewrite Hdom.
    rewrite app_assoc in Hc'. apply elem_of_app in Hc' as [Hc' | Hc'].
    + apply (Is c'); [ | done].
      apply elem_of_app in Hc' as [H | H]; apply elem_of_app; [by left | right].
      by apply list_elem_of_further.
    + rewrite (Hcmds c' Hc') in Hs'. done.
  - apply (Hcount switching isSwitch); [exact isSwitch_scope | done | done].
  - intros Hl.
    apply (Hcount loadingAlternatives isAlternativesFetch);
      [exact isAlternativesFetch_scope | auto | done].
  - intros Hl.
    apply (Hcount loadingSelection isSelectionFetch);
      [exact isSelectionFetch_scope | auto | done].
  - intros id. rewrite Hentry. destruct (id =? G); [ | apply Ix].
    apply Fx, Ix.
  - auto.
Qed.

(** The invariant reads the model through its cache and its cursors. *)
Lemma invariant_core loads (m m1 : Model) (l : list Cmd) :
  providerData m1 = providerData m →
  (cursorsValid m → cursorsValid m1) →
  invariant loads m l → invariant loads m1 l.
Proof.
  intros Hpd Hcur [Iz Is Iw Ia Il Ix Ic].
  assert (He : ∀ id, entry m1 id = entry m id).
  { intros id. unfold entry. by rewrite Hpd. }
  split.
  - by rewrite Hpd.
  - intros c id. rewrite Hpd. apply Is.
  - intros id. by rewrite He.
  - intros Hl id. rewrite He. by apply Ia.
  - intros Hl id. rewrite He. by apply Il.
  - intros id. rewrite He. apply Ix.
  - auto.
Qed.

Lemma invariant_providersLoaded loads (m : Model) (l : list Cmd) response :
  invariant loads m l →
  invariant loads (fst (Update m (providersLoadedMsg response)))
    (l ++ snd (Update m (providersLoadedMsg response)))%list.
Proof.
  intros Hinv. unfold Update, handleProvidersLoaded.
  set (m0 := set_loadingProviders false _).
  set (m1 := if providerIdx m0 >=? len (providers m0) then _ else m0).
  set (m2 := if contains (status m1) _ then _ else m1).
  assert (invariant loads m2 l) as H2.
  { apply (invariant_core loads m); [ | | done].
    - unfold m2, m1. by destruct (contains _ _), (providerIdx m0 >=? _).
    - unfold cursorsValid. intros (H1 & _ & H3 & H4).
      assert (providers m2 = api.Providers response
              ∧ altIdx m2 = altIdx m
              ∧ balancePreferenceIdx m2 = balancePreferenceIdx m
              ∧ (providerIdx m2 = 0
                 ∨ providerIdx m2 = providerIdx m
                   ∧ providerIdx m < len (api.Providers response)))
        as (-> & -> & -> & Hi).
      { unfold m2, m1. destruct (contains _ _);
          destruct (Z.geb_spec (providerIdx m0) (len (providers m0))); simpl;
          simpl in *; repeat split; auto. }
      destruct Hi as [-> | [-> Hi]]; repeat split; auto; lia. }
  destruct (0 <? len (providers m2)).
  - pose proof (effect_queue m2 (currentProviderID m2) (currentProviderID_known m2))
      as Hq.
    destruct (queueProviderDetailLoad m2 (currentProviderID m2)) as [m3 cmds].
    simpl in *. rewrite app_nil_r.
    apply (invariant_core loads m3); [done | done | ].
    apply (invariant_effect loads m2); [done | by apply effect_any].
  - simpl. rewrite app_nil_r. by apply (invariant_core loads m2).
Qed.

Lemma invariant_deliver loads (m : Model) (l1 l2 : list Cmd) (c : Cmd) (msg : Msg) :
  invariant loads m (l1 ++ c :: l2)%list →
  delivers c msg →
  invariant loads (fst (Update m msg)) (l1 ++ l2 ++ snd (Update m msg))%list.
Proof.
  intros Hinv Hd. destruct (scope c) as [G | ] eqn:Hs.
  - by apply (invariant_scoped loads m l1 l2 c msg G).
  - apply invariant_remove in Hinv; [ | done]. rewrite app_assoc.
    destruct (delivers_unscoped c msg Hd Hs) as [Hp | [response ->]].
    + apply (invariant_effect loads m); [done | by apply effect_plainResult].
    + by apply invariant_providersLoaded.
Qed.

Section Reachability.

Context `{R : Renderer}.

Lemma invariant_step loads (allowed : Msg → Prop) (s s' : System) :
  (∀ msg, allowed msg → loads = true → noRefresh msg) →
  invariant loads (model s) (inflight s) →
  step allowed s s' →
  invariant loads (model s') (inflight s').
Proof.
  intros Hallowed Hinv Hstep.
  destruct Hstep as [m l msg m' cmds Hin Hal Hup | m l1 c l2 msg m' cmds Hd Hup | m l];
    simpl in *.
  - apply (invariant_effect loads m); [done | ].
    pose proof (effect_input loads m msg Hin (Hallowed msg Hal)) as H.
    by rewrite Hup in H.
  - pose proof (invariant_deliver loads m l1 l2 c msg Hinv Hd) as H.
    by rewrite Hup in H.
  - rewrite <- (app_nil_r l).
    apply (invariant_effect loads m); [done | apply effect_viewEffect].
Qed.

(** The invariant holds in every reachable state of the loop; its part
    about the two fetches holds as long as the refresh key is not pressed. *)
Lemma invariant_reachable loads (allowed : Msg → Prop) (s : System) :
  (∀ msg, allowed msg → loads = true → noRefresh msg) →
  reachable allowed s →
  invariant loads (model s) (inflight s).
Proof.
  intros Hallowed Hreach. induction Hreach as [ | s s' _ IH Hstep].
  - apply invariant_initial.
  - by apply (invariant_step loads allowed s s').
Qed.

End Reachability.

(** ** Scripts reach reachable states *)

Lemma deliversb_sound (c : Cmd) (msg : Msg) :
  deliversb c msg = true → delivers c msg.
Proof.
  destruct c as [ | | id | id | id alt | pref | d | | | ],
    msg as [w h | k | ev | p | resp | id' alts | id' sel | id' sel | pref'
            | e | id' target e | e | | | ];
    simpl; try done; intros H;
    try (apply andb_true_iff in H as [H1 H2]; apply String.eqb_eq in H2 as ->;
         apply Z.eqb_eq in H1 as <-);
    try (apply Z.eqb_eq in H as <-).
  - apply (delivers_profile (inr p)).
  - apply (delivers_profile (inl e)).
  - apply (delivers_providers (inr resp)).
  - apply (delivers_providers (inl e)).
  - apply (delivers_alternatives id (inr alts)).
  - apply (delivers_alternatives id (inl e)).
  - apply (delivers_selection id (inr sel)).
  - apply (delivers_selection id (inl e)).
  - apply (delivers_switch id alt (inr sel)).
  - apply (delivers_switch id alt (inl e)).
  - apply (delivers_preference pref
             (inr {| api.respBalancePreference := pref'; api.UpdatedAt := "" |})).
  - apply (delivers_preference pref (inl e)).
  - apply delivers_clear.
  - apply delivers_refresh.
  - apply delivers_spinner.
Qed.

Lemma deliverFirst_split (l l' : list Cmd) (msg : Msg) :
  deliverFirst l msg = Some l' →
  ∃ l1 c l2, l = (l1 ++ c :: l2)%list ∧ l' = (l1 ++ l2)%list ∧ delivers c msg.
Proof.
  revert l'. induction l as [ | c l IH]; intros l'; simpl; [done | ].
  destruct (deliversb c msg) eqn:E.
  - intros [= <-]. exists [], c, l. repeat split. by apply deliversb_sound.
  - destruct (deliverFirst l msg) as [l0 | ]; simpl; [ | done].
    intros [= <-]. destruct (IH l0 eq_refl) as (l1 & c' & l2 & -> & -> & Hd).
    by exists (c :: l1), c', l2.
Qed.

Lemma isInputb_isInput (msg : Msg) : isInputb msg = true → isInput msg.
Proof. by destruct msg. Qed.

Section Scripts.

Context `{R : Renderer}.

Lemma play_reachable (allowed : Msg → Prop) (events : list event) (s s' : System) :
  reachable allowed s →
  Forall allowed (inputsOf events) →
  play s events = Some s' →
  reachable allowed s'.
Proof.
  revert s. induction events as [ | e events IH]; intros s Hs Hal; simpl.
  - by intros [= <-].
  - destruct e as [msg | msg | ]; simpl in Hal.
    + apply Forall_cons in Hal as [Hmsg Hal].
      destruct (isInputb msg) eqn:Hin; [ | done].
      destruct (Update (model s) msg) as [m' cmds] eqn:Hup.
      apply IH; [ | done].
      apply (reachable_step allowed s); [done | ]. destruct s as [m l].
      apply step_input with msg; [by apply isInputb_isInput | done | done].
    + destruct (deliverFirst (inflight s) msg) as [l | ] eqn:Hd; [ | done].
      destruct (Update (model s) msg) as [m' cmds] eqn:Hup.
      apply IH; [ | done].
      destruct (deliverFirst_split _ _ _ Hd) as (l1 & c & l2 & Hl & -> & Hc).
      apply (reachable_step allowed s); [done | ]. destruct s as [m l0].
      simpl in *. subst l0. rewrite <- app_assoc.
      by apply step_deliver with msg.
    + apply IH; [ | done].
      apply (reachable_step allowed s); [done | ]. destruct s as [m l].
      apply step_view.
Qed.

End Scripts.

(** ** Ensure-loaded is idempotent *)

Lemma ensureProvidersLoaded_gated (m : Model) :
  providersLoaded m || loadingProviders m = true →
  ensureProvidersLoaded m = (m, []).
Proof. intros H. unfold ensureProvidersLoaded. by rewrite H. Qed.

Lemma ensureProvidersLoaded_twice (m : Model) :
  ensureProvidersLoaded (fst (ensureProvidersLoaded m))
  = (fst (ensureProvidersLoaded m), []).
Proof.
  apply ensureProvidersLoaded_gated. unfold ensureProvidersLoaded.
  destruct (providersLoaded m || loadingProviders m) eqn:E; [done | ].
  simpl. apply orb_true_r.
Qed.

Lemma queueCmds_gated (id : Z) (st : providerState) :
  (alternativesLoaded st || loadingAlternatives st = true →
   loadAlternativesCmd id ∉ queueCmds id st)
  ∧ (selectionLoaded st || loadingSelection st = true →
     loadSelectionCmd id ∉ queueCmds id st).
Proof.
  unfold queueCmds, needAlternatives, needSelection.
  destruct st as [alts sel al sl la ls sw le]; simpl.
  split; intros H Hin; apply elem_of_app in Hin as [Hin | Hin];
    destruct al, sl, la, ls; simpl in *; try done;
    try (by apply elem_of_nil in Hin);
    apply list_elem_of_singleton in Hin; done.
Qed.

Lemma queueProviderDetailLoad_cmds (m : Model) (id : Z) :
  snd (queueProviderDetailLoad m id)
  = if id =? 0 then [] else queueCmds id (entry m id).
Proof.
  destruct (Z.eqb_spec id 0) as [-> | H0]; [done | ].
  by rewrite (queueProviderDetailLoad_eq m id H0).
Qed.

Lemma queueProviderDetailLoad_entry (m : Model) (id : Z) :
  id ≠ 0 → entry (fst (queueProviderDetailLoad m id)) id = queued (entry m id).
Proof.
  intros H0. rewrite (queueProviderDetailLoad_eq m id H0). simpl.
  set (m1 := set_providerData _ m).
  set (m2 := if _ || _ then _ else m1).
  assert (providerData m2 = stored (providerData m) id (queued (entry m id))) as Hpd.
  { unfold m2. by destruct (_ || _). }
  assert (∀ m3, providerData m3 = providerData m2 ∨
                providerData m3 = ensured (providerData m2) id →
                entry m3 id = queued (entry m id)) as Hany.
  { intros m3 [H | H]; rewrite (entry_eq m3), H, Hpd, ?ensured_stored,
      lookupEntry_stored; destruct (Z.eqb_spec id 0); try done;
      by rewrite Z.eqb_refl. }
  destruct (alternativesLoaded (queued _) && selectionLoaded _).
  - apply Hany. apply syncAltIdx_fields.
  - apply Hany. by left.
Qed.

Lemma queued_settled (id : Z) (st : providerState) :
  queueCmds id (queued st) = [] ∧ queued (queued st) = queued st.
Proof.
  unfold queueCmds, queued, needAlternatives, needSelection.
  destruct st as [alts sel al sl la ls sw le].
  destruct al, sl, la, ls; done.
Qed.

Lemma queueProviderDetailLoad_twice (m : Model) (id : Z) :
  let m1 := fst (queueProviderDetailLoad m id) in
  snd (queueProviderDetailLoad m1 id) = []
  ∧ entry (fst (queueProviderDetailLoad m1 id)) id = entry m1 id.
Proof.
  intros m1. destruct (Z.eq_dec id 0) as [-> | H0]; [done | ].
  rewrite queueProviderDetailLoad_cmds, !queueProviderDetailLoad_entry; try done.
  unfold m1. rewrite queueProviderDetailLoad_entry; [ | done].
  destruct (Z.eqb_spec id 0); [done | ]. apply queued_settled.
Qed.

(** ** Where the cache grows *)

Lemma providersLoaded_dom (m : Model) response (id : Z) :
  let m' := fst (Update m (providersLoadedMsg response)) in
  id ∈ dom (providerData m') →
  id ∈ dom (providerData m) ∨ id ∈ providerIDs m'.
Proof.
  unfold Update, handleProvidersLoaded.
  set (m0 := set_loadingProviders false _).
  set (m1 := if providerIdx m0 >=? len (providers m0) then _ else m0).
  set (m2 := if contains (status m1) _ then _ else m1).
  assert (providerData m2 = providerData m) as Hpd.
  { unfold m2, m1. by destruct (contains _ _), (providerIdx m0 >=? _). }
  destruct (0 <? len (providers m2)).
  - pose proof (effect_queue m2 (currentProviderID m2) (currentProviderID_known m2))
      as Hq.
    destruct (queueProviderDetailLoad m2 (currentProviderID m2)) as [m3 cmds].
    destruct Hq as [P _ N _ _ _ _ _ _].
    simpl in *. intros Hid. destruct (N id Hid) as [H | [_ H]].
    + left. by rewrite <- Hpd.
    + right. unfold providerIDs in *. simpl. by rewrite P.
  - simpl. rewrite Hpd. by left.
Qed.

(** ** The refresh key on an idle provider *)

Lemma queued_invalidated (st : providerState) (id : Z) :
  loadingAlternatives (queued (invalidated st)) = true
  ∧ loadingSelection (queued (invalidated st)) = true
  ∧ alternativesLoaded (queued (invalidated st)) = false
  ∧ selectionLoaded (queued (invalidated st)) = false
  ∧ switching (queued (invalidated st)) = switching st
  ∧ queueCmds id (invalidated st) = [loadAlternativesCmd id; loadSelectionCmd id].
Proof. by destruct st as [alts sel al sl la ls sw le]. Qed.

(** With no fetch for the current provider under way, the refresh key keeps
    the loading flags in step with the fetches it issues. *)
Lemma effect_refreshCurrentProvider_idle (m : Model) :
  loadingAlternatives (entry m (currentProviderID m)) = false →
  loadingSelection (entry m (currentProviderID m)) = false →
  effect true m (fst (refreshCurrentProvider m)) (snd (refreshCurrentProvider m)).
Proof.
  intros Ha Hs. unfold refreshCurrentProvider.
  destruct (len (providers m) =? 0); [apply effect_refl | ].
  rewrite ensureProviderState_eq. simpl. rewrite storeProviderState_eq. simpl.
  rewrite stored_ensured. fold (invalidated (entry m (currentProviderID m))).
  set (G := currentProviderID m) in *.
  set (m1 := set_providerData (stored (providerData m) G (invalidated (entry m G))) m).
  change (currentProviderID m1) with G.
  apply (effect_trans true m m1 _ [] _).
  - apply (effect_single true m m1 [] G (invalidated (entry m G))); try done.
    + apply dom_stored.
    + apply currentProviderID_known.
    + intros id. unfold m1. rewrite entry_set_providerData. apply lookupEntry_stored.
    + intros c Hc. by apply elem_of_nil in Hc.
    + simpl. lia.
    + intros _ _. simpl. rewrite Ha. reflexivity.
    + intros _ _. simpl. rewrite Hs. reflexivity.
  - apply effect_queue. apply (currentProviderID_known m).
Qed.

(** The refresh key goes straight to [handleRefresh]. *)
Lemma handleKey_refresh (m : Model) (k : KeyMsg) :
  keyType k = KeyOther → keyString k = "r" →
  handleKey m k = handleRefresh m "r".
Proof.
  intros Ht Hs. unfold handleKey. rewrite Ht, Hs.
  assert (handleFocusSwitch m "r" = m) as Hf
    by (unfold handleFocusSwitch; by destruct (currentTab m)).
  unfold handleQuitAndHelp, handleTabSwitch. simpl. rewrite Hf.
  destruct (handleRefresh m "r") as [m1 [ | c cmds]] eqn:Hr; simpl; [ | done].
  unfold handleRefresh in Hr. simpl in Hr.
  unfold handleEnter, handleNavigation. simpl. done.
Qed.

Lemma fetchesInFlight_zero (l : list Cmd) (id : Z) :
  (0 <? fetchesInFlight l id) = false →
  count (isAlternativesFetch id) l = 0 ∧ count (isSelectionFetch id) l = 0.
Proof.
  unfold fetchesInFlight. intros H. apply Z.ltb_ge in H.
  pose proof (count_nonneg (isAlternativesFetch id) l).
  pose proof (count_nonneg (isSelectionFetch id) l). lia.
Qed.

(** An input that is not a refresh of a busy provider keeps the invariant
    with the loading flags tracked. *)
Lemma effect_input_calm (m : Model) (l : list Cmd) (msg : Msg) :
  invariant true m l →
  isInput msg →
  calmRefresh {| model := m; inflight := l |} msg →
  effect true m (fst (Update m msg)) (snd (Update m msg)).
Proof.
  intros Hinv Hin Hcalm.
  destruct msg as [w h | k | e | | | | | | | | | | | | ]; try done.
  - by apply effect_input.
  - destruct (keyType k) eqn:Ht.
    { rewrite Update_key. unfold handleKey. rewrite Ht. simpl.
      apply effect_frame; try done.
      intros c Hc. apply list_elem_of_singleton in Hc. by subst. }
    destruct (String.eqb_spec (keyString k) "r") as [Hr | Hr];
      [ | by apply effect_input].
    rewrite Update_key, (handleKey_refresh m k Ht Hr).
    unfold calmRefresh, refreshesBusy in Hcalm. simpl in Hcalm.
    rewrite Ht, Hr in Hcalm. simpl in Hcalm.
    unfold handleRefresh. simpl.
    destruct (currentTab m) eqn:Htab.
    + unfold refreshProfile. apply effect_frame; try done.
      intros c Hc. apply list_elem_of_singleton in Hc. by subst.
    + simpl in Hcalm. apply fetchesInFlight_zero in Hcalm as [Ha Hs].
      destruct Hinv as [_ _ _ Ia Il _ _].
      rewrite (Ia eq_refl) in Ha. rewrite (Il eq_refl) in Hs.
      apply effect_refreshCurrentProvider_idle.
      * by destruct (loadingAlternatives _).
      * by destruct (loadingSelection _).
    + apply effect_refl.
  - by apply effect_input.
Qed.

Section CalmReachability.

Context `{R : Renderer}.

Lemma invariant_step_calm (s s' : System) :
  invariant true (model s) (inflight s) →
  step (calmRefresh s) s s' →
  invariant true (model s') (inflight s').
Proof.
  intros Hinv Hstep.
  inversion Hstep as [m l msg m' cmds Hin Hal Hup | m l1 c l2 msg m' cmds Hd Hup | m l];
    subst; simpl in *.
  - apply (invariant_effect true m); [done | ].
    pose proof (effect_input_calm m l msg Hinv Hin Hal) as H.
    by rewrite Hup in H.
  - pose proof (invariant_deliver true m l1 l2 c msg Hinv Hd) as H.
    by rewrite Hup in H.
  - rewrite <- (app_nil_r l).
    apply (invariant_effect true m); [done | apply effect_viewEffect].
Qed.

(** The invariant, with the two fetches, holds in every state reached
    without a refresh of a busy provider. *)
Lemma invariant_reachable_calm (s : System) :
  reachableWhen calmRefresh s → invariant true (model s) (inflight s).
Proof.
  intros Hreach. induction Hreach as [ | s s' _ IH Hstep].
  - apply invariant_initial.
  - by apply (invariant_step_calm s s').
Qed.

(** A state reached without the refresh key is reached without a refresh
    of a busy provider. *)
Lemma reachable_noRefresh_calm (s : System) :
  reachable noRefresh s → reachableWhen calmRefresh s.
Proof.
  intros Hreach. induction Hreach as [ | s s' _ IH Hstep].
  - apply reachableWhen_initial.
  - apply (reachableWhen_step _ s s' IH).
    destruct Hstep as [m l msg m' cmds Hin Hal Hup | m l1 c l2 msg m' cmds Hd Hup | m l].
    + apply step_input with msg; try done.
      unfold calmRefresh, refreshesBusy. destruct msg; try done.
      destruct (keyType k); [done | ]. simpl in Hal.
      by destruct (String.eqb_spec (keyString k) "r").
    + by apply step_deliver with msg.
    + apply step_view.
Qed.

Lemma play_reachableWhen (refused : System → Msg → bool) (events : list event)
    (s s' : System) :
  reachableWhen (λ s msg, refused s msg = false) s →
  allowedAlong refused s events = true →
  play s events = Some s' →
  reachableWhen (λ s msg, refused s msg = false) s'.
Proof.
  revert s. induction events as [ | e events IH]; intros s Hs Hal.
  - by intros [= <-].
  - simpl in Hal. apply andb_true_iff in Hal as [He Hal].
    destruct e as [msg | msg | ].
    + simpl in *. apply negb_true_iff in He.
      destruct (isInputb msg) eqn:Hin; [ | done].
      destruct (Update (model s) msg) as [m' cmds] eqn:Hup. simpl in Hal.
      apply IH; [ | done].
      apply (reachableWhen_step _ s); [done | ]. destruct s as [m l].
      apply step_input with msg; [by apply isInputb_isInput | done | done].
    + simpl in *.
      destruct (deliverFirst (inflight s) msg) as [l | ] eqn:Hd; [ | done].
      destruct (Update (model s) msg) as [m' cmds] eqn:Hup. simpl in Hal.
      apply IH; [ | done].
      destruct (deliverFirst_split _ _ _ Hd) as (l1 & c & l2 & Hl & -> & Hc).
      apply (reachableWhen_step _ s); [done | ]. destruct s as [m l0].
      simpl in *. subst l0. rewrite <- app_assoc.
      by apply step_deliver with msg.
    + simpl in *. apply IH; [ | done].
      apply (reachableWhen_step _ s); [done | ]. destruct s as [m l].
      apply step_view.
Qed.

End CalmReachability.

(** What the refresh key does on the providers tab, whatever the flags of
    the current provider are. *)
Lemma Update_refreshKey_providers (m : Model) :
  let G := currentProviderID m in
  currentTab m = tabProviders → G ≠ 0 →
  snd (Update m refreshKey) = [loadAlternativesCmd G; loadSelectionCmd G]
  ∧ entry (fst (Update m refreshKey)) G = queued (invalidated (entry m G)).
Proof.
  intros G Htab HG. subst G.
  unfold refreshKey, key.
  rewrite Update_key,
    (handleKey_refresh m {| keyType := KeyOther; keyString := "r" |}
       eq_refl eq_refl).
  unfold handleRefresh. simpl. rewrite Htab. unfold refreshCurrentProvider.
  destruct (Z.eqb_spec (len (providers m)) 0) as [Hlen | _].
  { destruct HG. apply currentProviderID_empty.
    unfold len in Hlen. destruct (providers m); [done | simpl in Hlen; lia]. }
  rewrite ensureProviderState_eq. simpl. rewrite storeProviderState_eq. simpl.
  rewrite stored_ensured. fold (invalidated (entry m (currentProviderID m))).
  set (G := currentProviderID m) in *.
  set (m1 := set_providerData (stored (providerData m) G (invalidated (entry m G))) m).
  change (snd (queueProviderDetailLoad m1 G)
          = [loadAlternativesCmd G; loadSelectionCmd G]
          ∧ entry (fst (queueProviderDetailLoad m1 G)) G
            = queued (invalidated (entry m G))).
  assert (entry m1 G = invalidated (entry m G)) as Hentry.
  { unfold m1. rewrite entry_set_providerData, lookupEntry_stored.
    destruct (Z.eqb_spec G 0); [done | ]. by rewrite Z.eqb_refl. }
  rewrite queueProviderDetailLoad_cmds, (queueProviderDetailLoad_entry m1 G HG).
  rewrite Hentry. destruct (Z.eqb_spec G 0); [done | ].
  split; [ | done]. apply queued_invalidated.
Qed.

(** Pressed while a fetch for the current provider is in flight, the
    refresh key puts a second one of its kind in flight. *)
Lemma refresh_busy_doubles (m : Model) (l : list Cmd) (msg : Msg) :
  invariant true m l →
  refreshesBusy {| model := m; inflight := l |} msg = true →
  let G := currentProviderID m in
  let l' := (l ++ snd (Update m msg))%list in
  1 < count (isAlternativesFetch G) l' ∨ 1 < count (isSelectionFetch G) l'.
Proof.
  intros [_ _ _ Ia Il _ _] Hbusy G l'.
  destruct msg as [w h | k | e | | | | | | | | | | | | ]; try done.
  unfold refreshesBusy in Hbusy. simpl in Hbusy.
  destruct k as [t key]. simpl in Hbusy. destruct t; [done | ].
  apply andb_true_iff in Hbusy as [Hbusy Hfetch].
  apply andb_true_iff in Hbusy as [Hkey Htab].
  apply String.eqb_eq in Hkey. subst key.
  assert (currentTab m = tabProviders) as Htab'
    by (by destruct (currentTab m)).
  apply Z.ltb_lt in Hfetch. unfold fetchesInFlight in Hfetch. fold G in Hfetch.
  assert (G ≠ 0) as HG.
  { intros H0. rewrite H0, (Ia eq_refl 0), (Il eq_refl 0) in Hfetch.
    rewrite entry_zero in Hfetch. simpl in Hfetch. lia. }
  destruct (Update_refreshKey_providers m Htab' HG) as [Hc _].
  unfold l'. change (keyMsg {| keyType := KeyOther; keyString := "r" |})
    with refreshKey. rewrite Hc, !count_app. fold G. simpl.
  rewrite Z.eqb_refl. simpl.
  pose proof (count_nonneg (isAlternativesFetch G) l).
  pose proof (count_nonneg (isSelectionFetch G) l). lia.
Qed.

Section Claims.

Context `{R : Renderer}.

Lemma step_dom (allowed : Msg → Prop) (s s' : System) (id : Z) :
  invariant false (model s) (inflight s) →
  step allowed s s' →
  id ∈ dom (providerData (model s')) →
  id ∈ dom (providerData (model s)) ∨ id ∈ providerIDs (model s').
Proof.
  intros Hinv Hstep.
  assert (Heff : ∀ m m' cmds, effect false m m' cmds →
            id ∈ dom (providerData m') →
            id ∈ dom (providerData m) ∨ id ∈ providerIDs m').
  { intros m m' cmds [P _ N _ _ _ _ _ _] Hid.
    destruct (N id Hid) as [H | [_ H]]; [by left | right].
    by rewrite (providerIDs_same _ _ P). }
  destruct Hstep as [m l msg m' cmds Hin Hal Hup | m l1 c l2 msg m' cmds Hd Hup | m l];
    simpl in *.
  - apply (Heff m m' cmds).
    pose proof (effect_input false m msg Hin) as H. rewrite Hup in H. by apply H.
  - destruct (scope c) as [G | ] eqn:Hs.
    + destruct (scoped_result_entry m G msg (delivers_scoped c msg G Hd Hs))
        as (Hpd & _). rewrite Hup in Hpd. simpl in Hpd.
      rewrite Hpd, dom_stored. intros Hid. left.
      apply elem_of_union in Hid as [Hid | Hid]; [done | ].
      destruct (G =? 0); [set_solver | ].
      apply elem_of_singleton in Hid. subst id.
      apply (inv_scope _ _ _ Hinv c); [ | done].
      apply elem_of_app. right. apply list_elem_of_here.
    + destruct (delivers_unscoped c msg Hd Hs) as [Hp | [response ->]].
      * apply (Heff m m' cmds).
        pose proof (effect_plainResult false m msg Hp) as H. by rewrite Hup in H.
      * pose proof (providersLoaded_dom m response id) as H.
        rewrite Hup in H. exact H.
  - apply (Heff m _ []), effect_viewEffect.
Qed.

(** C10. With an empty provider list the current provider id is 0 and the
    provider-scoped operations change nothing and issue nothing; a lookup of
    id 0 returns a fresh entry and leaves the map alone; and along the event
    loop the map never holds id 0 and gains a key in a step only when the
    key is an id of the provider list. *)
Theorem empty_list_and_detached_entry (m : Model) (delta : Z) :
  (providers m = [] →
   currentProviderID m = 0
   ∧ moveSelection m delta = (m, [])
   ∧ refreshCurrentProvider m = (m, [])
   ∧ switchSelection m = (m, [])
   ∧ queueProviderDetailLoad m (currentProviderID m) = (m, []))
  ∧ ensureProviderState m 0 = (m, zeroState)
  ∧ (∀ s s', reachable anyInput s → step anyInput s s' →
       (0 ∉ dom (providerData (model s')))
       ∧ ∀ id, id ∈ dom (providerData (model s')) →
           id ∈ dom (providerData (model s)) ∨ id ∈ providerIDs (model s')).
Proof.
  split; [ | split].
  - intros Hnil.
    assert (currentProviderID m = 0) as H0 by (by apply currentProviderID_empty).
    unfold moveSelection, refreshCurrentProvider, switchSelection. rewrite H0, Hnil.
    done.
  - reflexivity.
  - intros s s' Hs Hstep.
    assert (invariant false (model s) (inflight s)) as Hinv.
    { by apply (invariant_reachable false anyInput). }
    split.
    + apply (inv_zero false _ (inflight s')).
      by apply (invariant_step false anyInput s s').
    + intros id. by apply (step_dom anyInput s s').
Qed.

(** X1. The alternatives flags exclude each other, the cursors stay valid
    and at most one switch per provider is in flight, in every reachable
    state. *)
Lemma cursors_invariant (s : System) :
  reachable anyInput s →
  cursorsValid (model s)
  ∧ exclusive (model s)
  ∧ ∀ id, count (isSwitch id) (inflight s) = b2z (switching (entry (model s) id))
          ∧ count (isSwitch id) (inflight s) ≤ 1.
Proof.
  intros Hs.
  destruct (invariant_reachable false anyInput s) as [_ _ Iw _ _ Ix Ic]; try done.
  split; [done | ]. split; [done | ].
  intros id. split; [apply Iw | ]. rewrite Iw. by destruct (switching _).
Qed.

(** C2. [queueProviderDetailLoad] issues no fetch for a
    sub-resource whose loaded or loading flag is set, and a second call
    right after a first issues nothing and leaves the entry as it is; the
    same for [ensureProvidersLoaded]. As long as the refresh key is not
    pressed on the providers tab while a fetch for the current provider is
    in flight, at most one alternatives fetch and one selection fetch per
    provider are in flight, and the loading flag is up exactly when one is;
    the sequences without the refresh key are among these, and every press
    that is left out does put a second fetch of a kind in flight. The
    refresh key on the providers tab clears the loaded and loading flags of
    the current provider and issues both fetches whatever the flags were, so
    that it adds one fetch of each kind to those in flight. *)
Theorem ensure_loaded_idempotent (m : Model) (id : Z) :
  (alternativesLoaded (entry m id) || loadingAlternatives (entry m id) = true →
   loadAlternativesCmd id ∉ snd (queueProviderDetailLoad m id))
  ∧ (selectionLoaded (entry m id) || loadingSelection (entry m id) = true →
     loadSelectionCmd id ∉ snd (queueProviderDetailLoad m id))
  ∧ (let m1 := fst (queueProviderDetailLoad m id) in
     snd (queueProviderDetailLoad m1 id) = []
     ∧ entry (fst (queueProviderDetailLoad m1 id)) id = entry m1 id)
  ∧ (providersLoaded m || loadingProviders m = true →
     ensureProvidersLoaded m = (m, []))
  ∧ ensureProvidersLoaded (fst (ensureProvidersLoaded m))
    = (fst (ensureProvidersLoaded m), [])
  ∧ (∀ s, reachableWhen calmRefresh s →
       count (isAlternativesFetch id) (inflight s)
         = b2z (loadingAlternatives (entry (model s) id))
       ∧ count (isSelectionFetch id) (inflight s)
         = b2z (loadingSelection (entry (model s) id))
       ∧ count (isAlternativesFetch id) (inflight s) ≤ 1
       ∧ count (isSelectionFetch id) (inflight s) ≤ 1)
  ∧ (∀ s, reachable noRefresh s → reachableWhen calmRefresh s)
  ∧ (∀ s msg, reachableWhen calmRefresh s → refreshesBusy s msg = true →
       let G := currentProviderID (model s) in
       let l := (inflight s ++ snd (Update (model s) msg))%list in
       1 < count (isAlternativesFetch G) l ∨ 1 < count (isSelectionFetch G) l)
  ∧ (currentTab m = tabProviders → id = currentProviderID m → id ≠ 0 →
     let m' := fst (Update m refreshKey) in
     let cmds := snd (Update m refreshKey) in
     cmds = [loadAlternativesCmd id; loadSelectionCmd id]
     ∧ alternativesLoaded (entry m' id) = false
     ∧ selectionLoaded (entry m' id) = false
     ∧ loadingAlternatives (entry m' id) = true
     ∧ loadingSelection (entry m' id) = true
     ∧ ∀ l, count (isAlternativesFetch id) (l ++ cmds)
            = count (isAlternativesFetch id) l + 1
            ∧ count (isSelectionFetch id) (l ++ cmds)
              = count (isSelectionFetch id) l + 1).
Proof.
  rewrite queueProviderDetailLoad_cmds.
  split;
    [ | split; [ | split; [ | split; [ | split; [ | split; [ | split; [ | split]]]]]]].
  - destruct (id =? 0); [intros _ H; by apply elem_of_nil in H | ].
    apply queueCmds_gated.
  - destruct (id =? 0); [intros _ H; by apply elem_of_nil in H | ].
    apply queueCmds_gated.
  - apply queueProviderDetailLoad_twice.
  - apply ensureProvidersLoaded_gated.
  - apply ensureProvidersLoaded_twice.
  - intros s Hs.
    destruct (invariant_reachable_calm s Hs) as [_ _ _ Ia Il _ _].
    rewrite (Ia eq_refl id), (Il eq_refl id).
    repeat split; try done; by destruct (_ (entry (model s) id)).
  - apply reachable_noRefresh_calm.
  - intros s msg Hs Hbusy. destruct s as [m0 l0].
    apply (refresh_busy_doubles m0 l0 msg); [ | done].
    apply (invariant_reachable_calm {| model := m0; inflight := l0 |} Hs).
  - intros Htab -> HG m' cmds.
    destruct (Update_refreshKey_providers m Htab HG) as [Hc He].
    destruct (queued_invalidated (entry m (currentProviderID m))
                (currentProviderID m)) as (Ha & Hs & Hal & Hsl & _).
    unfold m', cmds. rewrite Hc, He.
    repeat split; try done; rewrite count_app; simpl; rewrite Z.eqb_refl; simpl; lia.
Qed.

End Claims.

(** The reachable state a script ends in. *)
Lemma script_reachable (events : list event) (s : System) :
  @play plainRenderer initial events = Some s →
  @reachable plainRenderer anyInput s.
Proof.
  intros Hplay.
  apply (play_reachable anyInput events initial s); [apply reachable_initial | | done].
  apply Forall_forall. done.
Qed.

(** C2, with a manual refresh among the events: the refresh key pressed while the first fetches of
    group 3 are in flight clears the loading flags and issues both fetches
    again, so two of each are in flight. *)
Lemma two_fetches_after_refresh :
  ¬ (∀ (s : System) (id : Z),
       @reachable plainRenderer anyInput s →
       count (isAlternativesFetch id) (inflight s) ≤ 1
       ∧ count (isSelectionFetch id) (inflight s) ≤ 1).
Proof.
  intros H.
  destruct (@play plainRenderer initial refreshWhileLoading) as [s | ] eqn:Hplay;
    [ | vm_compute in Hplay; discriminate Hplay].
  destruct (H s 3 (script_reachable _ _ Hplay)) as [Ha _].
  vm_compute in Hplay. injection Hplay as <-.
  vm_compute in Ha. by apply Ha.
Qed.

(** The refresh key on the profile tab, and on the providers tab once
    group 3 is loaded and no fetch for it is under way: the loop stays
    within the states the count is stated for, with one fetch of each kind in
    flight. *)
Example refresh_when_idle :
  ∃ s, @play plainRenderer initial refreshWhenIdle = Some s
       ∧ @reachableWhen plainRenderer calmRefresh s
       ∧ count (isAlternativesFetch 3) (inflight s) = 1
       ∧ count (isSelectionFetch 3) (inflight s) = 1.
Proof.
  destruct (@play plainRenderer initial refreshWhenIdle) as [s | ] eqn:Hplay;
    [ | vm_compute in Hplay; discriminate Hplay].
  exists s. split; [done | ].
  split.
  - apply (@play_reachableWhen plainRenderer refreshesBusy refreshWhenIdle initial s);
      [apply reachableWhen_initial | vm_compute; reflexivity | done].
  - vm_compute in Hplay. injection Hplay as <-. vm_compute. done.
Qed.

(** C1. A reachable state breaks the exclusion: the switch completes while the
    selection fetch issued by the refresh key is still in flight, and the
    entry of group 3 ends with its selection both loaded and loading. *)
Lemma switch_completed_during_refetch :
  ∃ s, @play plainRenderer initial switchDuringRefresh = Some s
       ∧ @reachable plainRenderer anyInput s
       ∧ count (isSelectionFetch 3) (inflight s) = 1
       ∧ selectionLoaded (entry (model s) 3) = true
       ∧ loadingSelection (entry (model s) 3) = true.
Proof.
  destruct (@play plainRenderer initial switchDuringRefresh) as [s | ] eqn:Hplay;
    [ | vm_compute in Hplay; discriminate Hplay].
  exists s. split; [done | ]. split; [apply (script_reachable _ _ Hplay) | ].
  vm_compute in Hplay. injection Hplay as <-.
  vm_compute. done.
Qed.

(** C4. A reachable state has a cursor out of range: after the click on group 5 the
    alternative cursor is still 1 while the list it governs is empty. *)
Lemma click_leaves_stale_cursor :
  ∃ s, @play plainRenderer initial clickOtherProvider = Some s
       ∧ @reachable plainRenderer anyInput s
       ∧ currentProviderID (model s) = 5
       ∧ alternatives (entry (model s) (currentProviderID (model s))) = []
       ∧ altIdx (model s) = 1.
Proof.
  destruct (@play plainRenderer initial clickOtherProvider) as [s | ] eqn:Hplay;
    [ | vm_compute in Hplay; discriminate Hplay].
  exists s. split; [done | ]. split; [apply (script_reachable _ _ Hplay) | ].
  vm_compute in Hplay. injection Hplay as <-.
  vm_compute. done.
Qed.

(** The keyboard path to the same provider synchronises the cursor. *)
Example move_resets_cursor :
  let before := [input (WindowSizeMsg 80 24); input (key "2");
                 result (providersLoadedMsg demoProviders); render;
                 result (alternativesLoadedMsg 3 demoAlternatives); render;
                 input (key "l"); input (key "j"); render;
                 input (key "h"); input (key "j")] in
  option_map (λ s, (currentProviderID (model s), altIdx (model s)))
    (@play plainRenderer initial before) = Some (5, 0).
Proof. vm_compute. reflexivity. Qed.

(** ** Navigation issues fetches only *)

Lemma fetchOnly_nil : fetchOnly [].
Proof. intros c Hc. by apply elem_of_nil in Hc. Qed.

Lemma fetchOnly_noMutation (cmds : list Cmd) : fetchOnly cmds → noMutation cmds.
Proof. intros H c Hc. specialize (H c Hc). by destruct c. Qed.

Lemma noMutation_app (l1 l2 : list Cmd) :
  noMutation l1 → noMutation l2 → noMutation (l1 ++ l2)%list.
Proof. intros H1 H2 c Hc. apply elem_of_app in Hc as [Hc | Hc]; auto. Qed.

Lemma fetchOnly_queue (m : Model) (id : Z) :
  fetchOnly (snd (queueProviderDetailLoad m id)).
Proof.
  rewrite queueProviderDetailLoad_cmds. destruct (id =? 0); [apply fetchOnly_nil | ].
  intros c Hc. by apply queueCmds_scope in Hc as [_ ?].
Qed.

Lemma fetchOnly_ensureProvidersLoaded (m : Model) :
  fetchOnly (snd (ensureProvidersLoaded m)).
Proof.
  unfold ensureProvidersLoaded. destruct (_ || _); [apply fetchOnly_nil | ].
  intros c Hc. apply list_elem_of_singleton in Hc. by subst.
Qed.

Lemma fetchOnly_moveSelection (m : Model) (delta : Z) :
  fetchOnly (snd (moveSelection m delta)).
Proof.
  unfold moveSelection. destruct (len (providers m) =? 0); [apply fetchOnly_nil | ].
  destruct (focus m); [apply fetchOnly_queue | ].
  destruct (ensureProviderState m (currentProviderID m)) as [m1 st].
  destruct (len (alternatives st) =? 0); apply fetchOnly_nil.
Qed.

Lemma fetchOnly_handleTabChanged (m : Model) : fetchOnly (snd (handleTabChanged m)).
Proof.
  unfold handleTabChanged. destruct (currentTab m);
    try apply fetchOnly_nil. apply fetchOnly_ensureProvidersLoaded.
Qed.

Lemma fetchOnly_handleTabSwitch (m : Model) (key : string) :
  fetchOnly (snd (handleTabSwitch m key)).
Proof.
  unfold handleTabSwitch, switchToNextTab, switchToPrevTab.
  repeat (destruct (String.eqb key _);
          [first [apply fetchOnly_nil | apply fetchOnly_ensureProvidersLoaded
                 | apply fetchOnly_handleTabChanged] | ]).
  apply fetchOnly_nil.
Qed.

Lemma fetchOnly_handleNavigation (m : Model) (key : string) :
  fetchOnly (snd (handleNavigation m key)).
Proof.
  unfold handleNavigation.
  destruct (if _ || _ then Some (-1) else _) as [d | ]; [ | apply fetchOnly_nil].
  destruct (currentTab m).
  - destruct (d <? 0); apply fetchOnly_nil.
  - apply fetchOnly_moveSelection.
  - apply fetchOnly_nil.
Qed.

Lemma navigationKeys_plain (key : string) :
  existsb (String.eqb key) navigationKeys = true →
  String.eqb key "esc" = false ∧ String.eqb key "?" = false
  ∧ String.eqb key "？" = false ∧ String.eqb key "r" = false
  ∧ String.eqb key "enter" = false.
Proof.
  unfold navigationKeys. simpl.
  repeat match goal with
         | |- context [String.eqb key ?s] =>
             destruct (String.eqb_spec key s) as [-> | _]; [done | ]
         end.
  done.
Qed.

Lemma fetchOnly_handleKey (m : Model) (k : KeyMsg) :
  isNavigation m (keyMsg k) = true → fetchOnly (snd (handleKey m k)).
Proof.
  simpl. unfold handleKey. destruct (keyType k); [done | ].
  intros Hnav.
  destruct (navigationKeys_plain _ Hnav) as (Hesc & Hq1 & Hq2 & Hr & Henter).
  unfold handleQuitAndHelp. rewrite Hesc, Hq1, Hq2. simpl.
  pose proof (fetchOnly_handleTabSwitch m (keyString k)) as H2.
  destruct (handleTabSwitch m (keyString k)) as [m2 cmd2]. simpl in H2.
  destruct (negb (isNil cmd2)); [done | ].
  unfold handleRefresh, handleEnter. rewrite Hr, Henter. simpl.
  pose proof (fetchOnly_handleNavigation (handleFocusSwitch m2 (keyString k))
                (keyString k)) as H6.
  destruct (handleNavigation _ _) as [m6 cmd6]. simpl in H6.
  destruct (negb (isNil cmd6)); [done | apply fetchOnly_nil].
Qed.

Lemma fetchOnly_handleMouse (m : Model) (e : MouseMsg) :
  isNavigation m (mouseMsg e) = true → fetchOnly (snd (handleMouse m e)).
Proof.
  simpl. unfold handleMouse, handleMouseWheel, handleContentClick.
  destruct (mouseButton e); try done.
  - destruct (mouseAction e); try done.
    change (tabHeaderY getUILayout) with 4.
    destruct (mouseY e =? 4).
    + intros _. unfold handleTabClick. simpl.
      destruct (mouseX e <? tab1Width); [apply fetchOnly_nil | ].
      destruct (mouseX e <? tab1Width + tab2Width);
        [apply fetchOnly_ensureProvidersLoaded | apply fetchOnly_nil].
    + simpl. intros Hnav. apply andb_true_iff in Hnav as [Htab Hx].
      destruct (mouseY e >=? 6); [ | apply fetchOnly_nil].
      destruct (currentTab m); try done.
      unfold handleProvidersClick.
      destruct (len (providers m) =? 0); [apply fetchOnly_nil | ].
      rewrite Hx. destruct (_ && _); [apply fetchOnly_queue | apply fetchOnly_nil].
  - intros _. destruct (currentTab m);
      [destruct (-1 <? 0); apply fetchOnly_nil | | ]; apply fetchOnly_moveSelection.
  - intros _. destruct (currentTab m);
      [destruct (1 <? 0); apply fetchOnly_nil | | ]; apply fetchOnly_moveSelection.
Qed.

Lemma Update_cmds_input (m : Model) (msg : Msg) (P : list Cmd → Prop) :
  isInputb msg = true →
  (∀ k, msg = keyMsg k → P (snd (handleKey m k))) →
  (∀ e, msg = mouseMsg e → P (snd (handleMouse m e))) →
  P [] →
  P (snd (Update m msg)).
Proof.
  intros Hin Hk He Hnil. unfold Update. destruct msg; try done; simpl.
  - specialize (Hk k eq_refl). destruct (handleKey m k) as [m1 cmds].
    simpl in *. by rewrite app_nil_r.
  - specialize (He e eq_refl). destruct (handleMouse m e) as [m1 cmds].
    simpl in *. by rewrite app_nil_r.
Qed.

Lemma fetchOnly_navigation (m : Model) (msg : Msg) :
  isNavigation m msg = true → fetchOnly (snd (Update m msg)).
Proof.
  intros Hnav. apply Update_cmds_input.
  - by destruct msg.
  - intros k ->. by apply fetchOnly_handleKey.
  - intros e ->. by apply fetchOnly_handleMouse.
  - apply fetchOnly_nil.
Qed.

(** A result or a timer issues no mutation either. *)
Lemma noMutation_result (m : Model) (msg : Msg) :
  isInputb msg = false → noMutation (snd (Update m msg)).
Proof.
  intros Hin.
  assert (Hone : ∀ c : Cmd, isMutation c = false → noMutation [c]).
  { intros c Hc c' Hc'. apply list_elem_of_singleton in Hc'. by subst. }
  assert (Hnil : noMutation []) by apply fetchOnly_noMutation, fetchOnly_nil.
  unfold Update.
  destruct msg as [w h | k | ev | p | resp | id alts | id sel | id sel | pref
                   | e | id target e | e | | | ];
    try done; simpl; try done; try by apply Hone.
  - unfold handleProvidersLoaded. destruct (0 <? len _); [ | done].
    match goal with
    | |- context [queueProviderDetailLoad ?a ?b] =>
        pose proof (fetchOnly_queue a b) as Hq;
        destruct (queueProviderDetailLoad a b) as [m3 cmds]
    end.
    simpl in *. rewrite app_nil_r. by apply fetchOnly_noMutation.
  - destruct (handleSwitchCompleted m id sel) as [m1 cmds] eqn:E.
    rewrite handleSwitchCompleted_eq in E. injection E as <- <-. simpl. by apply Hone.
  - destruct (handleProviderLoadFailed m id target e) as [m1 cmds] eqn:E.
    rewrite handleProviderLoadFailed_eq in E. injection E as <- <-. simpl.
    by apply Hone.
  - destruct (handleProfileRefreshTick m) as [m1 cmds] eqn:E.
    unfold handleProfileRefreshTick in E.
    destruct (currentTab m); injection E as <- <-; simpl;
      intros c Hc; repeat (apply elem_of_cons in Hc as [-> | Hc]; [done | ]);
      by apply elem_of_nil in Hc.
Qed.

Lemma fetchOnly_app (l1 l2 : list Cmd) :
  fetchOnly l1 → fetchOnly l2 → fetchOnly (l1 ++ l2)%list.
Proof. intros H1 H2 c Hc. apply elem_of_app in Hc as [Hc | Hc]; auto. Qed.

(** C7. Along a sequence of events whose inputs only navigate (tab,
    cursor and focus keys, the wheel, clicks on a tab or on the provider
    list), with results and timers arriving in between, no switch and no
    preference update is ever issued; and what the navigation inputs
    themselves issue are fetches. *)
Theorem navigation_issues_no_mutation (m : Model) (msgs : list Msg) :
  navigationOnly m msgs = true →
  noMutation (snd (run m msgs))
  ∧ (Forall (λ msg, isInputb msg = true) msgs → fetchOnly (snd (run m msgs))).
Proof.
  revert m. induction msgs as [ | msg msgs IH]; intros m; simpl.
  - intros _. split; [apply fetchOnly_noMutation | intros _]; apply fetchOnly_nil.
  - intros Hnav. apply andb_true_iff in Hnav as [Hmsg Hrest].
    destruct (IH (fst (Update m msg)) Hrest) as [IH1 IH2].
    assert (noMutation (snd (Update m msg))) as Hhere.
    { apply orb_true_iff in Hmsg as [Hmsg | Hmsg].
      - by apply fetchOnly_noMutation, fetchOnly_navigation.
      - apply noMutation_result. by apply negb_true_iff. }
    assert (isInputb msg = true → fetchOnly (snd (Update m msg))) as Hfetch.
    { intros Hin. rewrite Hin, orb_false_r in Hmsg.
      by apply fetchOnly_navigation. }
    destruct (Update m msg) as [m1 cmds1]. simpl in *.
    destruct (run m1 msgs) as [m2 cmds2]. simpl in *.
    split; [by apply noMutation_app | ].
    intros Hall. apply Forall_cons in Hall as [Hin Hall].
    apply fetchOnly_app; auto.
Qed.

Lemma navigation_issues_no_mutation_witness :
  noMutation (snd (run NewModel browseProviders))
  ∧ snd (run NewModel browseProviders)
    = [loadProvidersCmd; loadAlternativesCmd 3; loadSelectionCmd 3;
       loadAlternativesCmd 5; loadSelectionCmd 5].
Proof.
  split.
  - apply (navigation_issues_no_mutation NewModel browseProviders).
    vm_compute. reflexivity.
  - vm_compute. reflexivity.
Defined.

(** Group 3 is loaded and a switch to 102 is in flight: both providers are
    listed, the alternative cursor is on the second alternative, and one
    switch for group 3 and none for group 5 is in flight, beside the first
    fetch of the profile and the two timers. *)
Lemma cursors_invariant_witness :
  ∃ s, @play plainRenderer initial switchConfirmed = Some s
       ∧ len (providers (model s)) = 2
       ∧ altIdx (model s) = 1
       ∧ switching (entry (model s) 3) = true
       ∧ inflight s
         = [loadProfileCmd; spinnerTick; profileRefreshTicker;
            switchProviderCmd 3 102]
       ∧ cursorsValid (model s)
       ∧ exclusive (model s)
       ∧ (count (isSwitch 3) (inflight s) = b2z (switching (entry (model s) 3))
          ∧ count (isSwitch 3) (inflight s) ≤ 1)
       ∧ (count (isSwitch 5) (inflight s) = b2z (switching (entry (model s) 5))
          ∧ count (isSwitch 5) (inflight s) ≤ 1).
Proof.
  destruct (@play plainRenderer initial switchConfirmed) as [s | ] eqn:Hplay;
    [ | vm_compute in Hplay; discriminate Hplay].
  exists s. split; [done | ].
  destruct (@cursors_invariant plainRenderer s (script_reachable _ _ Hplay))
    as (Hc & Hx & Hsw).
  pose proof (Hsw 3) as H3. pose proof (Hsw 5) as H5.
  vm_compute in Hplay. injection Hplay as <-.
  split; [reflexivity | ]. split; [reflexivity | ]. split; [reflexivity | ].
  split; [vm_compute; reflexivity | ].
  split; [exact Hc | ]. split; [exact Hx | ]. split; [exact H3 | exact H5].
Defined.

(** * The requests of the client *)

Section ClientRequests.

Context `{T : api.Transport}.
Variable c : api.Client.

Lemma newRequest_read (path : string) req :
  api.newRequest c api.MethodGet path None = inr req → req = api.readRequest c path.
Proof.
  unfold api.newRequest. destruct (api.parseURL _); [done | ].
  intros H. injection H as <-. reflexivity.
Qed.

Lemma newRequest_ok (method : api.Method) (path : string) (body : option string) :
  api.parseURL (api.baseURL c ++ path) = None →
  api.newRequest c method path body
  = inr {| api.reqMethod := method; api.reqURL := api.baseURL c ++ path;
           api.reqBody := body; api.reqHeader := api.signedHeader c |}.
Proof. intros H. unfold api.newRequest. by rewrite H. Qed.

Lemma newRequest_refused (method : api.Method) (path : string)
    (body : option string) (e : api.error) :
  api.parseURL (api.baseURL c ++ path) = Some e →
  api.newRequest c method path body = inl e.
Proof. intros H. unfold api.newRequest. by rewrite H. Qed.

Lemma sends_nothing {A} (op : api.M A) (n : api.Net) (req : api.Request) :
  snd (op n) = n → api.sends op n req.
Proof.
  intros H. unfold api.sends, api.attempts. rewrite H, Nat.sub_diag. simpl.
  by rewrite app_nil_r.
Qed.

Lemma sends_result {Out A} (f : Out → A) (op : api.M (option api.error * Out))
    (n : api.Net) (req : api.Request) :
  api.sends op n req →
  api.sends (api.bind op (λ r, api.ret (api.result f r))) n req.
Proof.
  unfold api.sends. rewrite attempts_bind_result.
  unfold api.bind, api.ret. by destruct (op n) as [r n'].
Qed.

Lemma get_sends {Out} (path : string) (out : Out) (n : api.Net) :
  api.sends (api.get c path out) n (api.readRequest c path).
Proof.
  destruct (api.newRequest c api.MethodGet path None) as [e | req] eqn:Hreq.
  - apply sends_nothing. by rewrite (get_no_request c path out n e Hreq).
  - unfold api.sends.
    pose proof (get_sent c path out n req Hreq) as H.
    apply newRequest_read in Hreq. subst req.
    destruct (api.get c path out n) as [[r out'] n']. simpl.
    destruct (fst (fst (api.do (api.readRequest c path) out n))).
    + rewrite (attempts_app n n' _ H). exact H.
    + destruct H as [_ H]. rewrite (attempts_app n n' _ H). exact H.
Qed.

Lemma put_sends {Out} (path : string) (payload : api.Payload) (out : Out)
    (n : api.Net) :
  match api.jsonEncode payload with
  | inr body =>
      api.sends (api.put c path (Some payload) out) n (api.writeRequest c path body)
  | inl e =>
      api.put c path (Some payload) out n
      = (Some (api.WrapError "encode body" e), out, n)
  end.
Proof.
  unfold api.put. destruct (api.jsonEncode payload) as [e | body]; [done | ].
  unfold api.newRequest.
  destruct (api.parseURL _); [by apply sends_nothing | ].
  unfold api.sends. rewrite do_sends_once.
  by rewrite (attempts_app n _ [_] (do_sends_once _ _ _)).
Qed.

(** The requests of a read: none when the URL does not parse, otherwise
    one [GET], and the same once more when the first attempt failed. *)
Lemma readRequests_shape {Out} (path : string) (zero : Out) (n : api.Net) :
  (∀ e, api.parseURL (api.baseURL c ++ path) = Some e →
     api.readRequests c path zero n = [])
  ∧ (api.parseURL (api.baseURL c ++ path) = None →
     api.readRequests c path zero n
     = api.readRequest c path
       :: match fst (fst (api.do (api.readRequest c path) zero n)) with
          | Some _ => [api.readRequest c path]
          | None => []
          end).
Proof.
  unfold api.readRequests. destruct (api.parseURL _); split; try done.
  intros _. by destruct (api.do _ zero n) as [[[e | ] out1] n1].
Qed.

(** The requests of a write: one [PUT] when the payload can be encoded and
    the URL parses, none otherwise. *)
Lemma writeRequests_shape (path : string) (payload : api.Payload) :
  (∀ body, api.parseURL (api.baseURL c ++ path) = None →
     api.jsonEncode payload = inr body →
     api.writeRequests c path payload = [api.writeRequest c path body])
  ∧ (∀ e, api.parseURL (api.baseURL c ++ path) = Some e →
       api.writeRequests c path payload = [])
  ∧ (∀ e, api.jsonEncode payload = inl e → api.writeRequests c path payload = []).
Proof.
  unfold api.writeRequests.
  destruct (api.jsonEncode payload) as [e | body]; [done | ].
  destruct (api.parseURL _); [done | ].
  split; [ | done]. by intros body' _ [= <-].
Qed.

(** X2. Every request an operation of the client sends goes to the base URL
    followed by the operation's path and carries the client's key in the
    X-API-Key header. A read sends one GET without a body, and the same GET
    once more exactly when the first attempt failed; a write sends exactly
    one PUT with the encoded payload and a JSON content type; neither sends
    anything when the URL does not parse, and a write sends nothing when the
    payload cannot be encoded or the preference is empty. *)
Theorem requests_carry_key (n : api.Net) :
  (api.sends (api.GetProfile c) n (api.readRequest c "/api/v1/auth/profile")
   ∧ api.sends (api.GetAvailableProviders c) n
       (api.readRequest c "/api/v1/user/available-providers")
   ∧ (∀ id, api.sends (api.GetProviderAlternatives c id) n
              (api.readRequest c (api.alternativesPath id)))
   ∧ (∀ id, api.sends (api.GetProviderSelection c id) n
              (api.readRequest c (api.selectionPath id)))
   ∧ (∀ id alt,
        match api.jsonEncode (api.PayloadInt "selected_alternative_id" alt) with
        | inr body =>
            api.sends (api.SwitchProvider c id alt) n
              (api.writeRequest c (api.selectionPath id) body)
        | inl _ => snd (api.SwitchProvider c id alt n) = n
        end)
   ∧ (∀ pref,
        match api.jsonEncode (api.PayloadString "balance_preference" pref) with
        | inr body =>
            api.sends (api.UpdateBalancePreference c pref) n
              (api.writeRequest c "/api/v1/user/balance-preference" body)
        | inl _ => snd (api.UpdateBalancePreference c pref n) = n
        end)
   ∧ ∀ path body,
       ("X-API-Key", api.apiKey c) ∈ api.reqHeader (api.readRequest c path)
       ∧ ("X-API-Key", api.apiKey c) ∈ api.reqHeader (api.writeRequest c path body)
       ∧ api.reqURL (api.readRequest c path) = api.baseURL c ++ path
       ∧ api.reqURL (api.writeRequest c path body) = api.baseURL c ++ path)
  ∧
  (api.sent (snd (api.GetProfile c n))
   = (api.sent n
      ++ api.readRequests c "/api/v1/auth/profile" api.zeroProfile n)%list
   ∧ api.sent (snd (api.GetAvailableProviders c n))
     = (api.sent n
        ++ api.readRequests c "/api/v1/user/available-providers"
             {| api.HasPaygBalance := false; api.HasSubscription := false;
                api.Providers := [] |} n)%list
   ∧ (∀ id, api.sent (snd (api.GetProviderAlternatives c id n))
            = (api.sent n
               ++ api.readRequests c (api.alternativesPath id)
                    {| api.Data := [] |} n)%list)
   ∧ (∀ id, api.sent (snd (api.GetProviderSelection c id n))
            = (api.sent n
               ++ api.readRequests c (api.selectionPath id)
                    {| api.envData := api.zeroSelection |} n)%list)
   ∧ (∀ id alt, api.sent (snd (api.SwitchProvider c id alt n))
                = (api.sent n
                   ++ api.writeRequests c (api.selectionPath id)
                        (api.PayloadInt "selected_alternative_id" alt))%list)
   ∧ (∀ pref, api.sent (snd (api.UpdateBalancePreference c pref n))
              = (api.sent n
                 ++ (if String.eqb pref "" then []
                     else api.writeRequests c "/api/v1/user/balance-preference"
                            (api.PayloadString "balance_preference" pref)))%list))
  ∧
  ((∀ Out path (zero : Out),
      (∀ e, api.parseURL (api.baseURL c ++ path) = Some e →
         api.readRequests c path zero n = [])
      ∧ (api.parseURL (api.baseURL c ++ path) = None →
         api.readRequests c path zero n
         = api.readRequest c path
           :: match fst (fst (api.do (api.readRequest c path) zero n)) with
              | Some _ => [api.readRequest c path]
              | None => []
              end))
   ∧ ∀ path payload,
       (∀ body, api.parseURL (api.baseURL c ++ path) = None →
          api.jsonEncode payload = inr body →
          api.writeRequests c path payload = [api.writeRequest c path body])
       ∧ (∀ e, api.parseURL (api.baseURL c ++ path) = Some e →
            api.writeRequests c path payload = [])
       ∧ (∀ e, api.jsonEncode payload = inl e →
            api.writeRequests c path payload = [])).
Proof.
  split; [ | split].
  - split; [apply sends_result, get_sends | ].
    split; [apply sends_result, get_sends | ].
    split; [intros id; apply sends_result, get_sends | ].
    split; [intros id; apply sends_result, get_sends | ].
    split.
    { intros id alt. unfold api.SwitchProvider.
      pose proof (put_sends (api.selectionPath id)
                    (api.PayloadInt "selected_alternative_id" alt)
                    {| api.envData := api.zeroSelection |} n) as H.
      destruct (api.jsonEncode _) as [e | body].
      - unfold api.bind, api.ret. fold (api.selectionPath id). by rewrite H.
      - by apply sends_result. }
    split.
    { intros pref. unfold api.UpdateBalancePreference.
      pose proof (put_sends "/api/v1/user/balance-preference"
                    (api.PayloadString "balance_preference" pref)
                    {| api.respBalancePreference := ""; api.UpdatedAt := "" |} n) as H.
      destruct (String.eqb pref "").
      - destruct (api.jsonEncode _); [done | by apply sends_nothing].
      - destruct (api.jsonEncode _) as [e | body].
        + unfold api.bind, api.ret. by rewrite H.
        + by apply sends_result. }
    intros path body. simpl. split; [set_solver | ]. split; [set_solver | done].
  - assert (Hread : ∀ Out A (f : Out → A) p (zero : Out),
              api.sent (snd (api.bind (api.get c p zero)
                               (λ r, api.ret (api.result f r)) n))
              = (api.sent n ++ api.readRequests c p zero n)%list).
    { intros Out A f p zero. rewrite sent_bind_result.
      apply (get_outcome c f p zero n). }
    assert (Hwrite : ∀ Out A (f : Out → A) p payload (zero : Out),
              api.sent (snd (api.bind (api.put c p (Some payload) zero)
                               (λ r, api.ret (api.result f r)) n))
              = (api.sent n ++ api.writeRequests c p payload)%list).
    { intros Out A f p payload zero. rewrite sent_bind_result.
      apply (put_outcome c f p payload zero n). }
    split; [apply Hread | ].
    split; [apply Hread | ].
    split; [intros id; apply Hread | ].
    split; [intros id; apply Hread | ].
    split; [intros id alt; apply Hwrite | ].
    intros pref. unfold api.UpdateBalancePreference.
    destruct (String.eqb pref ""); [simpl; by rewrite app_nil_r | apply Hwrite].
  - split; [intros Out path zero; apply readRequests_shape | ].
    intros path payload. apply writeRequests_shape.
Qed.

(** X3. A failure on the client's side sends nothing and is not retried.
    When the request URL does not parse, get and put return the parser's
    error and the network is untouched. When the body cannot be encoded,
    whether or not the URL parses, put and the two write operations return
    the encoder's error wrapped as 'encode body' and the network is
    untouched. An empty preference is refused with 'preference is required'
    before any request is built. *)
Theorem local_failure_sends_nothing {Out} (path : string) (out : Out)
    (n : api.Net) :
  (∀ e, api.parseURL (api.baseURL c ++ path) = Some e →
     api.get c path out n = (Some e, out, n)
     ∧ api.put c path None out n = (Some e, out, n)
     ∧ ∀ payload body,
         api.jsonEncode payload = inr body →
         api.put c path (Some payload) out n = (Some e, out, n))
  ∧ (∀ payload e',
       api.jsonEncode payload = inl e' →
       api.put c path (Some payload) out n
       = (Some (api.WrapError "encode body" e'), out, n))
  ∧ (∀ id alt e',
       api.jsonEncode (api.PayloadInt "selected_alternative_id" alt) = inl e' →
       api.SwitchProvider c id alt n
       = (inl (api.WrapError "encode body" e'), n))
  ∧ (∀ pref e',
       pref ≠ "" →
       api.jsonEncode (api.PayloadString "balance_preference" pref) = inl e' →
       api.UpdateBalancePreference c pref n
       = (inl (api.WrapError "encode body" e'), n))
  ∧ api.UpdateBalancePreference c "" n
    = (inl (api.ErrorString "preference is required"), n).
Proof.
  split.
  { intros e Hurl.
    split; [apply get_no_request; by apply newRequest_refused | ].
    split; [unfold api.put; by rewrite (newRequest_refused _ _ _ e Hurl) | ].
    intros payload body Henc. unfold api.put. rewrite Henc.
    by rewrite (newRequest_refused _ _ _ e Hurl). }
  split.
  { intros payload e' Henc. unfold api.put. by rewrite Henc. }
  split.
  { intros id alt e' Henc.
    unfold api.SwitchProvider, api.bind, api.ret, api.put. by rewrite Henc. }
  split; [ | done].
  intros pref e' Hne Henc. unfold api.UpdateBalancePreference.
  destruct (String.eqb_spec pref ""); [done | ].
  unfold api.bind, api.ret, api.put. by rewrite Henc.
Qed.

(** [do] on an answer of less than 300 with an empty body: [out] is left
    as it was. *)
Lemma do_empty_body {Out} (req : api.Request) (out : Out) (n : api.Net)
    (resp : api.Response) (w : api.World) :
  api.roundTrip req (api.remote n) = (inr resp, w) →
  api.respStatusCode resp < 300 →
  api.respBody resp = inr "" →
  api.do req out n = (None, out, api.after n req w).
Proof.
  intros Hrt Hcode Hbody. unfold api.do, api.bind, api.httpClientDo, api.ret.
  rewrite Hrt, Hbody.
  destruct (Z.leb_spec 300 (api.respStatusCode resp)); [lia | done].
Qed.

(** [do] on an answer of 300 or more. *)
Lemma do_status_error {Out} (req : api.Request) (out : Out) (n : api.Net)
    (resp : api.Response) (w : api.World) (bodyBytes : string) :
  api.roundTrip req (api.remote n) = (inr resp, w) →
  300 ≤ api.respStatusCode resp →
  api.respBody resp = inr bodyBytes →
  api.do req out n
  = (Some (api.APIError (api.respStatusCode resp)
             (api.apiErrorMessage bodyBytes) bodyBytes), out, api.after n req w).
Proof.
  intros Hrt Hcode Hbody. unfold api.do, api.bind, api.httpClientDo, api.ret.
  rewrite Hrt, Hbody.
  destruct (Z.leb_spec 300 (api.respStatusCode resp)); [done | lia].
Qed.

(** X4. An answer with a status below 300 and an empty body is a success
    that decodes nothing: after exactly one request each operation returns
    the zero value it started from (an empty profile, no providers, no
    alternatives, a selection of alternative 0, an empty preference). *)
Theorem empty_answer_gives_zero_value (n : api.Net) (resp : api.Response)
    (w : api.World) :
  (∀ path, api.parseURL (api.baseURL c ++ path) = None) →
  (∀ req, api.roundTrip req (api.remote n) = (inr resp, w)) →
  api.respStatusCode resp < 300 →
  api.respBody resp = inr "" →
  api.GetProfile c n
  = (inr api.zeroProfile, api.after n (api.readRequest c "/api/v1/auth/profile") w)
  ∧ (∃ n', api.GetAvailableProviders c n = (inr {| api.HasPaygBalance := false;
                                                    api.HasSubscription := false;
                                                    api.Providers := [] |}, n')
           ∧ api.attempts n n' = 1%nat)
  ∧ (∀ id, api.GetProviderAlternatives c id n
           = (inr [], api.after n (api.readRequest c (api.alternativesPath id)) w))
  ∧ (∀ id, api.GetProviderSelection c id n
           = (inr api.zeroSelection,
              api.after n (api.readRequest c (api.selectionPath id)) w))
  ∧ (∀ id alt body,
       api.jsonEncode (api.PayloadInt "selected_alternative_id" alt) = inr body →
       api.SwitchProvider c id alt n
       = (inr api.zeroSelection,
          api.after n (api.writeRequest c (api.selectionPath id) body) w))
  ∧ (∀ pref body,
       pref ≠ "" →
       api.jsonEncode (api.PayloadString "balance_preference" pref) = inr body →
       api.UpdateBalancePreference c pref n
       = (inr {| api.respBalancePreference := ""; api.UpdatedAt := "" |},
          api.after n (api.writeRequest c "/api/v1/user/balance-preference" body) w)).
Proof.
  intros Hurl Hrt Hcode Hbody.
  assert (Hget : ∀ Out path (out : Out),
            api.get c path out n
            = (None, out, api.after n (api.readRequest c path) w)).
  { intros Out path out.
    rewrite (get_two_attempts c path out n (api.readRequest c path));
      [ | by apply newRequest_ok].
    by rewrite (do_empty_body _ out n resp w (Hrt _) Hcode Hbody). }
  assert (Hput : ∀ Out path payload body (out : Out),
            api.jsonEncode payload = inr body →
            api.put c path (Some payload) out n
            = (None, out, api.after n (api.writeRequest c path body) w)).
  { intros Out path payload body out Henc. unfold api.put.
    rewrite Henc, (newRequest_ok api.MethodPut path (Some body) (Hurl path)).
    apply (do_empty_body _ out n resp w (Hrt _) Hcode Hbody). }
  split; [unfold api.GetProfile, api.bind, api.ret; by rewrite Hget | ].
  split.
  { eexists. unfold api.GetAvailableProviders, api.bind, api.ret.
    rewrite Hget. split; [done | ].
    unfold api.attempts. simpl. rewrite length_app. simpl. lia. }
  split.
  { intros id. unfold api.GetProviderAlternatives, api.bind, api.ret.
    fold (api.alternativesPath id). by rewrite Hget. }
  split.
  { intros id. unfold api.GetProviderSelection, api.bind, api.ret.
    fold (api.selectionPath id). by rewrite Hget. }
  split.
  { intros id alt body Henc. unfold api.SwitchProvider, api.bind, api.ret.
    fold (api.selectionPath id). by rewrite (Hput _ _ _ body _ Henc). }
  intros pref body Hne Henc. unfold api.UpdateBalancePreference.
  destruct (String.eqb_spec pref ""); [done | ].
  unfold api.bind, api.ret. by rewrite (Hput _ _ _ body _ Henc).
Qed.

End ClientRequests.

(** A base URL with a line feed in it, and an encoder that refuses the
    payload while the URL parses: in both cases nothing is sent, though the
    server would answer. *)
Lemma local_failure_sends_nothing_witness :
  let bad := {| api.baseURL := String (ascii_of_nat 10) "https://co.yes.vg";
                api.apiKey := "k" |} in
  let c := {| api.baseURL := api.defaultBaseURL; api.apiKey := "k" |} in
  let n := @api.Build_Net api.strictTransport [api.serverOK] [] in
  let n' := @api.Build_Net api.brokenEncoder [api.serverOK] [] in
  let refused := api.ErrorString "net/url: invalid control character in URL" in
  let unsupported :=
    api.WrapError "encode body" (api.ErrorString "json: unsupported value") in
  @api.get api.strictTransport bad unit "/api/v1/auth/profile" tt n
  = (Some refused, tt, n)
  ∧ @api.put api.strictTransport bad unit "/api/v1/user/balance-preference"
      (Some (api.PayloadString "balance_preference" "payg_only")) tt n
    = (Some refused, tt, n)
  ∧ @api.put api.brokenEncoder c unit "/api/v1/user/balance-preference"
      (Some (api.PayloadString "balance_preference" "payg_only")) tt n'
    = (Some unsupported, tt, n')
  ∧ @api.SwitchProvider api.brokenEncoder c 3 102 n' = (inl unsupported, n')
  ∧ @api.UpdateBalancePreference api.brokenEncoder c "payg_only" n'
    = (inl unsupported, n').
Proof.
  intros bad c n n' refused unsupported.
  destruct (@local_failure_sends_nothing api.strictTransport bad unit
              "/api/v1/auth/profile" tt n) as [Hurl _].
  destruct (Hurl refused eq_refl) as (Hget & _ & _).
  destruct (@local_failure_sends_nothing api.strictTransport bad unit
              "/api/v1/user/balance-preference" tt n) as [Hurl' _].
  destruct (Hurl' refused eq_refl) as (_ & _ & Hput).
  destruct (@local_failure_sends_nothing api.brokenEncoder c unit
              "/api/v1/user/balance-preference" tt n')
    as (_ & Henc & Hswitch & Hpref & _).
  split; [exact Hget | ].
  split;
    [exact (Hput (api.PayloadString "balance_preference" "payg_only") "{}"
              eq_refl) | ].
  split;
    [exact (Henc (api.PayloadString "balance_preference" "payg_only")
              (api.ErrorString "json: unsupported value") eq_refl) | ].
  split;
    [exact (Hswitch 3 102 (api.ErrorString "json: unsupported value") eq_refl) | ].
  refine (Hpref "payg_only" (api.ErrorString "json: unsupported value") _ eq_refl).
  discriminate.
Defined.

(** The server answers 204 without a body. *)
Lemma empty_answer_gives_zero_value_witness :
  let c := {| api.baseURL := api.defaultBaseURL; api.apiKey := "k" |} in
  let n := @api.Build_Net api.scriptedTransport [api.serverNoContent] [] in
  fst (@api.GetProviderAlternatives api.scriptedTransport c 3 n) = inr [].
Proof.
  intros c n.
  pose proof (@empty_answer_gives_zero_value api.scriptedTransport c n
                {| api.respStatusCode := 204; api.respBody := inr "" |} []) as H.
  destruct H as (_ & _ & H & _).
  - intros path. reflexivity.
  - intros req. reflexivity.
  - simpl. lia.
  - reflexivity.
  - by rewrite (H 3).
Defined.

Lemma WithBaseURL_apiKey (bases : list string) (c : api.Client) :
  api.apiKey (fold_left (λ c opt, opt c) (map api.WithBaseURL bases) c)
  = api.apiKey c.
Proof.
  revert c. induction bases as [ | b bases IH]; intros c; simpl; [done | ].
  by rewrite IH.
Qed.

(** X5. NewClient refuses an empty key whatever the options are. With a key
    it starts from the default base URL and applies the options in order, so
    the last WithBaseURL decides the base URL and the key is kept. *)
Theorem NewClient_options (key : string) (opts : list (api.Client → api.Client))
    (bases : list string) (base : string) :
  api.NewClient "" opts = inl (api.ErrorString "api key is required")
  ∧ (key ≠ "" →
     api.NewClient key []
     = inr {| api.baseURL := api.defaultBaseURL; api.apiKey := key |}
     ∧ api.NewClient key (map api.WithBaseURL bases ++ [api.WithBaseURL base])%list
       = inr {| api.baseURL := base; api.apiKey := key |}
     ∧ ∀ c, api.NewClient key (opts ++ [api.WithBaseURL base])%list = inr c →
            api.baseURL c = base).
Proof.
  split; [done | ]. intros Hkey. unfold api.NewClient.
  destruct (String.eqb_spec key ""); [done | ].
  split; [done | ]. split.
  - rewrite fold_left_app. simpl. unfold api.WithBaseURL at 1.
    by rewrite WithBaseURL_apiKey.
  - intros c0 H. injection H as <-. rewrite fold_left_app. reflexivity.
Qed.

(** * Further facts about the model *)

Import tui.

#[local] Set Warnings "-clear-no-such-hyp".


Lemma findAlternativeIndex_from_spec (i : Z) (alts : list api.AlternativeOption)
    (id : Z) :
  0 ≤ i →
  let r := findAlternativeIndex_from i alts id in
  (r = -1 ∧ ∀ alt, alt ∈ alts → api.altID (api.Alternative alt) ≠ id)
  ∨ (i ≤ r < i + len alts
     ∧ ∃ alt, alts !! Z.to_nat (r - i) = Some alt
         ∧ api.altID (api.Alternative alt) = id
         ∧ ∀ j alt', (j < Z.to_nat (r - i))%nat → alts !! j = Some alt' →
             api.altID (api.Alternative alt') ≠ id).
Proof.
  revert i. induction alts as [ | a alts IH]; intros i Hi; simpl.
  - left. split; [done | ]. intros alt H. by apply elem_of_nil in H.
  - destruct (Z.eqb_spec (api.altID (api.Alternative a)) id) as [Heq | Hne].
    + right. unfold len. simpl length. split; [lia | ].
      exists a. rewrite Z.sub_diag. simpl. split; [done | ]. split; [done | ].
      intros j alt' Hj. lia.
    + destruct (IH (i + 1)) as [[Hr Hall] | [Hr (alt & Hl & Hid & Hfirst)]]; [lia | | ].
      * left. split; [done | ]. intros alt Hin.
        apply elem_of_cons in Hin as [-> | Hin]; auto.
      * right. unfold len in *. simpl length. split; [lia | ].
        exists alt.
        replace (Z.to_nat (findAlternativeIndex_from (i + 1) alts id - i))
          with (S (Z.to_nat (findAlternativeIndex_from (i + 1) alts id - (i + 1))))
          by lia.
        simpl. split; [done | ]. split; [done | ].
        intros [ | j] alt' Hj; simpl.
        -- intros H. injection H as <-. done.
        -- apply Hfirst. lia.
Qed.

(** X6. findAlternativeIndex returns -1 exactly when no alternative has the
    given id; otherwise it returns an index within the list, the alternative
    there has the id, and no alternative before it has. *)
Theorem findAlternativeIndex_first_match (alts : list api.AlternativeOption) (id : Z) :
  let r := findAlternativeIndex alts id in
  (r = -1 ↔ ∀ alt, alt ∈ alts → api.altID (api.Alternative alt) ≠ id)
  ∧ (r ≠ -1 →
     0 ≤ r < len alts
     ∧ ∃ alt, index alts r = Some alt
         ∧ api.altID (api.Alternative alt) = id
         ∧ ∀ j alt', 0 ≤ j < r → index alts j = Some alt' →
             api.altID (api.Alternative alt') ≠ id).
Proof.
  intros r. unfold r, findAlternativeIndex.
  destruct (findAlternativeIndex_from_spec 0 alts id) as [[Hr Hall] | [Hr (alt & Hl & Hid & Hfirst)]];
    [lia | | ].
  - split; [done | ]. intros H. by destruct H.
  - rewrite Z.sub_0_r in Hl, Hfirst. split.
    + split; [lia | ]. intros Hall. apply list_elem_of_lookup_2 in Hl.
      by destruct (Hall alt Hl).
    + intros _. split; [lia | ]. exists alt. unfold index.
      destruct (Z.ltb_spec (findAlternativeIndex_from 0 alts id) 0); [lia | ].
      split; [done | ]. split; [done | ].
      intros j alt' Hj. destruct (Z.ltb_spec j 0); [lia | ].
      apply Hfirst. lia.
Qed.

Lemma syncedIdx_active (st : providerState) (cur : Z) (sel : api.ProviderSelection) :
  selection st = Some sel →
  findAlternativeIndex (alternatives st) (api.SelectedAlternativeID sel) ≠ -1 →
  syncedIdx st cur
  = findAlternativeIndex (alternatives st) (api.SelectedAlternativeID sel).
Proof.
  intros Hsel Hfound. unfold syncedIdx. rewrite Hsel.
  unfold findAlternativeIndex in *.
  destruct (findAlternativeIndex_from_bound 0 (alternatives st)
              (api.SelectedAlternativeID sel)) as [H | H]; [done | ].
  destruct (Z.ltb_spec 0 (len (alternatives st))); [ | lia].
  destruct (Z.geb_spec (findAlternativeIndex_from 0 (alternatives st)
                          (api.SelectedAlternativeID sel)) 0); [done | lia].
Qed.


Lemma syncingResult_model (m : Model) (G : Z) (msg : Msg) :
  syncingResult G msg →
  let m' := fst (Update m msg) in
  let m1 := syncAltIdx (written m G msg) G in
  providers m' = providers m1 ∧ providerIdx m' = providerIdx m1
  ∧ altIdx m' = altIdx m1 ∧ providerData m' = providerData m1.
Proof.
  intros Hmsg. destruct msg; try done; simpl in Hmsg; subst providerID;
    unfold Update; simpl.
  - rewrite handleAlternativesLoaded_eq. unfold clearLoadingStatus.
    by destruct (_ && _).
  - rewrite handleSelectionLoaded_eq. unfold clearLoadingStatus.
    by destruct (_ && _).
  - rewrite handleSwitchCompleted_eq. done.
Qed.

Lemma findAlternativeIndex_index (alts : list api.AlternativeOption) (id : Z)
    (alt : api.AlternativeOption) :
  alt ∈ alts → api.altID (api.Alternative alt) = id →
  findAlternativeIndex alts id ≠ -1
  ∧ ∃ active, index alts (findAlternativeIndex alts id) = Some active
      ∧ api.altID (api.Alternative active) = id.
Proof.
  intros Hin Hid. unfold findAlternativeIndex.
  destruct (findAlternativeIndex_from_spec 0 alts id)
    as [[Hr Hall] | [Hr (active & Hl & Ha & _)]]; [lia | | ].
  - by destruct (Hall alt Hin).
  - split; [lia | ]. exists active. rewrite Z.sub_0_r in Hl. unfold index.
    destruct (Z.ltb_spec (findAlternativeIndex_from 0 alts id) 0); [lia | done].
Qed.

(** X7. When alternatives, a selection or a completed switch arrive for the
    provider under the cursor, the provider under the cursor stays the same,
    its entry is updated with the result, and the alternative cursor ends
    within the alternatives (0 when there are none); if the selected
    alternative is in the list, the cursor ends on an alternative with that
    id. *)
Theorem result_syncs_cursor (m : Model) (msg : Msg) :
  let G := currentProviderID m in
  let m' := fst (Update m msg) in
  let st := entry m' G in
  G ≠ 0 →
  syncingResult G msg →
  currentProviderID m' = G
  ∧ st = completed msg (entry m G)
  ∧ ((alternatives st = [] ∧ altIdx m' = 0) ∨ 0 ≤ altIdx m' < len (alternatives st))
  ∧ ∀ sel alt,
      selection st = Some sel → alt ∈ alternatives st →
      api.altID (api.Alternative alt) = api.SelectedAlternativeID sel →
      ∃ active, index (alternatives st) (altIdx m') = Some active
        ∧ api.altID (api.Alternative active) = api.SelectedAlternativeID sel.
Proof.
  intros G m' st HG Hmsg.
  destruct (syncingResult_model m G msg Hmsg) as (Hp & Hi & Ha & Hd).
  fold m' in Hp, Hi, Ha, Hd.
  rewrite syncAltIdx_eq in Hp, Hi, Ha, Hd.
  assert (currentProviderID (written m G msg) = G) as Hcur by done.
  rewrite Hcur, Z.eqb_refl in Hp, Hi, Ha, Hd.
  destruct (Z.eqb_spec G 0) as [ | _]; [done | ]. simpl in Hp, Hi, Ha, Hd.
  assert (lookupEntry (stored (providerData m) G (completed msg (entry m G))) G
          = completed msg (entry m G)) as Hw.
  { rewrite lookupEntry_stored, Z.eqb_refl. by destruct (Z.eqb_spec G 0). }
  assert (st = completed msg (entry m G)) as Hst.
  { unfold st. by rewrite entry_eq, Hd, lookupEntry_ensured. }
  assert (altIdx m' = syncedIdx st (altIdx m)) as Ha'.
  { rewrite Ha, Hst. f_equal. unfold written. by rewrite entry_set_providerData. }
  split. { unfold currentProviderID. by rewrite Hp, Hi. }
  split; [done | ].
  split.
  { rewrite Ha'. destruct (syncedIdx_range st (altIdx m)) as [[H1 H2] | H]; auto. }
  intros sel alt Hsel Hin Hid.
  destruct (findAlternativeIndex_index _ _ alt Hin Hid) as [Hfound Hactive].
  by rewrite Ha', (syncedIdx_active st _ sel Hsel Hfound).
Qed.

Lemma result_syncs_cursor_witness :
  let m := fst (run NewModel (group3Loaded ++ [key "j"])) in
  let m' := fst (Update m (switchCompletedMsg 3 (demoSelection 3 102 "mirror"))) in
  currentProviderID m' = 3 ∧ altIdx m = 1 ∧ altIdx m' = 1.
Proof.
  intros m m'.
  destruct (result_syncs_cursor m (switchCompletedMsg 3 (demoSelection 3 102 "mirror")))
    as (H1 & _); [vm_compute; discriminate | vm_compute; reflexivity | ].
  split; [exact H1 | ]. vm_compute. split; reflexivity.
Defined.




Lemma Update_tabKey (m : Model) :
  currentTab (fst (Update m (key "tab"))) = nextTab (currentTab m)
  ∧ currentTab (fst (Update m (key "shift+tab"))) = prevTab (currentTab m).
Proof.
  destruct m as [pr ps pi ai bi fo ct rd st er wi he pd psw sp hl vp pl lp lpr mr sh].
  split; destruct ct, pl, lp; try reflexivity; simpl;
    unfold syncBalancePreferenceIdx; simpl; repeat case_match; reflexivity.
Qed.

(** X8. Tab moves to the next tab and Shift+Tab to the previous one, in the
    order profile, providers, balance preference, wrapping around: each key
    undoes the other, and three presses of either return to the tab one
    started from. *)
Theorem tab_keys_cycle (m : Model) :
  let next m := fst (Update m (key "tab")) in
  let prev m := fst (Update m (key "shift+tab")) in
  currentTab (next m) = nextTab (currentTab m)
  ∧ currentTab (prev m) = prevTab (currentTab m)
  ∧ currentTab (prev (next m)) = currentTab m
  ∧ currentTab (next (prev m)) = currentTab m
  ∧ currentTab (next (next (next m))) = currentTab m
  ∧ currentTab (prev (prev (prev m))) = currentTab m.
Proof.
  intros next prev. unfold next, prev.
  repeat (rewrite ?(proj1 (Update_tabKey _)), ?(proj2 (Update_tabKey _))).
  destruct (currentTab m); done.
Qed.

Lemma Update_helpKey (m : Model) (s : string) :
  s = "?" ∨ s = "？" →
  Update m (key s) = (set_showHelpDialog (negb (showHelpDialog m)) m, []).
Proof.
  intros [-> | ->];
  destruct m as [pr ps pi ai bi fo ct rd st er wi he pd psw sp hl vp pl lp lpr mr sh];
  destruct ct; reflexivity.
Qed.

Lemma Update_escKey (m : Model) :
  Update m (key "esc")
  = if showHelpDialog m then (set_showHelpDialog false m, []) else (m, [teaQuit]).
Proof.
  destruct m as [pr ps pi ai bi fo ct rd st er wi he pd psw sp hl vp pl lp lpr mr sh].
  destruct sh, ct; reflexivity.
Qed.

(** X9. The help key ('?' or its full-width form) toggles the help dialog
    without issuing a command, and pressing it twice gives back the model as
    it was. With the dialog open Esc closes it and nothing else; with the
    dialog closed Esc quits. *)
Theorem help_dialog_round_trip (m : Model) (s : string) :
  s = "?" ∨ s = "？" →
  let opened := fst (Update m (key s)) in
  showHelpDialog opened = negb (showHelpDialog m)
  ∧ snd (Update m (key s)) = []
  ∧ Update opened (key s) = (m, [])
  ∧ (showHelpDialog m = false → Update opened (key "esc") = (m, []))
  ∧ (showHelpDialog m = false → Update m (key "esc") = (m, [teaQuit])).
Proof.
  intros Hs opened. unfold opened. rewrite !(Update_helpKey _ s Hs), !Update_escKey.
  destruct m as [pr ps pi ai bi fo ct rd st er wi he pd psw sp hl vp pl lp lpr mr sh].
  simpl. split; [done | ]. split; [done | ].
  split. { unfold set_showHelpDialog. simpl. by rewrite negb_involutive. }
  split; intros ->; reflexivity.
Qed.


Lemma wrap64_small (z : Z) : - 2 ^ 63 ≤ z < 2 ^ 63 → wrap64 z = z.
Proof.
  intros H. unfold wrap64. rewrite Z.mod_small; lia.
Qed.

Lemma Update_mouse (m : Model) (e : MouseMsg) :
  Update m (mouseMsg e) = handleMouse m e.
Proof.
  unfold Update. destruct (handleMouse m e) as [m1 cmds]. simpl.
  by rewrite set_spinner_same, app_nil_r.
Qed.

Lemma set_providerData_twice (m : Model) pd pd' :
  set_providerData pd (set_providerData pd' m) = set_providerData pd m.
Proof. reflexivity. Qed.

Lemma confirmed_ensured (m : Model) (chosen : api.AlternativeOption) :
  confirmed (set_providerData (ensured (providerData m) (currentProviderID m)) m)
    chosen
  = confirmed m chosen.
Proof.
  unfold confirmed. rewrite currentProviderID_set_providerData.
  rewrite entry_set_providerData, lookupEntry_ensured, <- entry_eq.
  simpl. by rewrite ensured_ensured, stored_ensured.
Qed.

Lemma switchSelection_ensured (m : Model) :
  switchSelection
    (set_providerData (ensured (providerData m) (currentProviderID m)) m)
  = switchSelection m.
Proof.
  rewrite !switchSelection_eq. cbv zeta.
  rewrite currentProviderID_set_providerData.
  rewrite entry_set_providerData, lookupEntry_ensured, <- entry_eq.
  change (providers (set_providerData _ m)) with (providers m).
  change (altIdx (set_providerData _ m)) with (altIdx m).
  change (providerData (set_providerData ?pd m)) with pd.
  rewrite set_providerData_twice, ensured_ensured.
  destruct (len (providers m) =? 0) eqn:Hlen.
  { unfold currentProviderID. rewrite Hlen. by destruct m. }
  destruct (_ || _); [done | ].
  destruct (_ >=? _); [done | ].
  destruct (index _ _); [ | done].
  apply confirmed_ensured.
Qed.

(** X10. On the providers tab, a click in the right half of the window on
    the row of a loaded alternative does exactly what focusing the
    alternatives panel, putting the cursor on that row and pressing Enter
    does. *)
Theorem click_is_move_and_confirm (m : Model) (x y : Z) :
  let G := currentProviderID m in
  currentTab m = tabProviders →
  providers m ≠ [] →
  alternativesLoaded (entry m G) = true →
  Z.quot (width m) 2 ≤ x →
  0 ≤ y - 8 < len (alternatives (entry m G)) →
  y < 2 ^ 63 →
  Update m (click x y)
  = Update (set_altIdx (y - 8) (set_focus focusAlternatives m)) enterKey.
Proof.
  intros G Htab Hprov Hloaded Hx Hy Hint.
  rewrite Update_enterKey. unfold click. rewrite Update_mouse. simpl currentTab.
  rewrite Htab. simpl focus. cbv iota.
  unfold handleMouse. simpl mouseButton. simpl mouseAction. simpl mouseX.
  simpl mouseY. cbv iota.
  change (tabHeaderY getUILayout) with 4. change (contentStartY getUILayout) with 6.
  destruct (Z.eqb_spec y 4); [lia | ].
  destruct (Z.geb_spec y 6); [ | lia].
  unfold handleContentClick. rewrite Htab.
  change (contentStartY getUILayout) with 6.
  unfold handleProvidersClick.
  destruct (Z.eqb_spec (len (providers m)) 0) as [H0 | _].
  { unfold len in H0. destruct (providers m); [done | simpl in H0; lia]. }
  change (panelInnerOffsetY getUILayout) with 2.
  assert (int_sub (int_sub y 6) 2 = y - 8) as ->.
  { unfold int_sub. rewrite (wrap64_small (y - 6)) by lia.
    rewrite wrap64_small by lia. lia. }
  destruct (Z.ltb_spec x (Z.quot (width m) 2)); [lia | ].
  rewrite ensureProviderState_eq.
  change (currentProviderID (set_focus focusAlternatives m)) with G.
  change (entry (set_focus focusAlternatives m) G) with (entry m G).
  cbv iota beta. rewrite Hloaded.
  destruct (Z.geb_spec (y - 8) 0); [ | lia].
  destruct (Z.ltb_spec (y - 8) (len (alternatives (entry m G)))); [ | lia].
  simpl.
  apply (switchSelection_ensured (set_altIdx (y - 8) (set_focus focusAlternatives m))).
Qed.

Lemma click_is_move_and_confirm_witness :
  let m := fst (run NewModel group3Loaded) in
  Update m (click 60 9) = Update (set_altIdx 1 (set_focus focusAlternatives m)) enterKey
  ∧ snd (Update m (click 60 9)) = [switchProviderCmd 3 102].
Proof.
  intros m. split; [ | vm_compute; reflexivity].
  apply (click_is_move_and_confirm m 60 9); vm_compute; try done.
  all: split; congruence.
Defined.



(** X11. When a preference update succeeds with a profile loaded, the
    profile takes the preference the server returned, the switching flag is
    cleared, the preference cursor moves to the option of that preference
    (the first option when it is neither of the two known ones), the status
    line names it and one status timer is scheduled. When the returned
    preference is one of the two known ones, confirming again on the
    preference tab does nothing and sends nothing; for any other answer, an
    empty one included, confirming again there sends an update to
    subscription_first. *)
Theorem preference_update_settles (m : Model) (p : api.Profile) (pref : string) :
  profile m = Some p →
  let m' := fst (Update m (preferenceUpdatedMsg pref)) in
  snd (Update m (preferenceUpdatedMsg pref)) = [clearStatusAfter statusClearDelay]
  ∧ profile m' = Some (withPreference pref p)
  ∧ preferenceSwitching m' = false
  ∧ balancePreferenceIdx m' = (if String.eqb pref "payg_only" then 1 else 0)
  ∧ status m' = "余额偏好已切换为 " ++ describePreference pref
  ∧ (pref = "subscription_first" ∨ pref = "payg_only" →
     toggleBalancePreference m' = (m', [])
     ∧ (currentTab m = tabBalancePreference → Update m' enterKey = (m', [])))
  ∧ (pref ≠ "subscription_first" → pref ≠ "payg_only" →
     currentTab m = tabBalancePreference →
     snd (Update m' enterKey) = [updatePreferenceCmd "subscription_first"]
     ∧ preferenceSwitching (fst (Update m' enterKey)) = true).
Proof.
  intros Hp m'.
  assert (m' = set_status ("余额偏好已切换为 " ++ describePreference pref)
                 (set_balancePreferenceIdx (if String.eqb pref "payg_only" then 1 else 0)
                    (set_preferenceSwitching false
                       (set_profile (Some (withPreference pref p)) m)))) as Hm'.
  { unfold m', Update, handlePreferenceUpdated. rewrite Hp. simpl.
    unfold syncBalancePreferenceIdx. simpl.
    destruct (String.eqb pref "payg_only"); by destruct m. }
  split; [done | ].
  split; [by rewrite Hm' | ]. split; [by rewrite Hm' | ].
  split; [by rewrite Hm' | ]. split; [by rewrite Hm' | ].
  split.
  - intros Hpref.
    assert (toggleBalancePreference m' = (m', [])) as Htoggle.
    { rewrite Hm'. unfold toggleBalancePreference. simpl.
      destruct Hpref as [-> | ->]; reflexivity. }
    split; [done | ].
    intros Htab. rewrite Update_enterKey.
    assert (currentTab m' = tabBalancePreference) as -> by (by rewrite Hm').
    done.
  - intros Hs Hg Htab. rewrite Update_enterKey.
    assert (currentTab m' = tabBalancePreference) as -> by (by rewrite Hm').
    assert (profile m' = Some (withPreference pref p)) as Hprof by (by rewrite Hm').
    assert (preferenceSwitching m' = false) as Hsw by (by rewrite Hm').
    assert (balancePreferenceIdx m' = 0) as Hidx.
    { rewrite Hm'. destruct (String.eqb_spec pref "payg_only"); done. }
    unfold toggleBalancePreference. rewrite Hprof, Hsw, Hidx.
    change (0 =? 0) with true. cbv iota.
    change (api.BalancePreference (withPreference pref p)) with pref.
    destruct (String.eqb_spec "subscription_first" pref) as [He | _];
      [by destruct Hs | ].
    split; reflexivity.
Qed.

(** The update to payg_only that was asked for comes back; and an answer
    without a preference, after which Confirm asks again. *)
Lemma preference_update_settles_witness :
  let m := fst (run NewModel [profileLoadedMsg demoProfile; key "3"; key "j"; enterKey]) in
  let m' := fst (Update m (preferenceUpdatedMsg "payg_only")) in
  let blank := fst (Update m (preferenceUpdatedMsg "")) in
  preferenceSwitching m = true
  ∧ preferenceSwitching m' = false
  ∧ balancePreferenceIdx m' = 1
  ∧ Update m' enterKey = (m', [])
  ∧ profile blank = Some (withPreference "" demoProfile)
  ∧ snd (Update blank enterKey) = [updatePreferenceCmd "subscription_first"].
Proof.
  intros m m' blank.
  destruct (preference_update_settles m demoProfile "payg_only" eq_refl)
    as (_ & _ & H1 & H2 & _ & H3 & _).
  destruct (preference_update_settles m demoProfile "" eq_refl)
    as (_ & H4 & _ & _ & _ & _ & H5).
  split; [reflexivity | ]. split; [exact H1 | ]. split; [exact H2 | ].
  split; [exact (proj2 (H3 (or_intror eq_refl)) eq_refl) | ].
  split; [exact H4 | ].
  refine (proj1 (H5 _ _ eq_refl)); discriminate.
Defined.

Section EndToEnd.

Context `{T : api.Transport}.
Variable c : api.Client.

(** X12. When the server answers a switch request with a status of 300 or
    more, the client sends one PUT and returns an APIError with that status;
    the command turns it into a provider failure message, and the update
    clears the provider's switching flag, records the error on the entry and
    on the model, shows it in the status line with the provider's id, leaves
    the alternative cursor where it was and schedules the status to be
    cleared. *)
Theorem rejected_switch_is_reported (m : Model) (G alt : Z) (n : api.Net)
    (resp : api.Response) (w : api.World) (body text : string) :
  G ≠ 0 →
  api.parseURL (api.baseURL c ++ api.selectionPath G) = None →
  api.jsonEncode (api.PayloadInt "selected_alternative_id" alt) = inr body →
  api.roundTrip (api.writeRequest c (api.selectionPath G) body) (api.remote n)
  = (inr resp, w) →
  api.respBody resp = inr text →
  300 ≤ api.respStatusCode resp →
  let e := api.APIError (api.respStatusCode resp) (api.apiErrorMessage text) text in
  let msg := run_switchProviderCmd G (fst (api.SwitchProvider c G alt n)) in
  let m' := fst (Update m msg) in
  api.SwitchProvider c G alt n
  = (inl e, api.after n (api.writeRequest c (api.selectionPath G) body) w)
  ∧ msg = providerLoadFailedMsg G "switch" e
  ∧ entry m' G = set_lastError (Some e) (set_switching false (entry m G))
  ∧ err m' = Some e
  ∧ status m' = "提供商 " ++ sprint_d G ++ ": " ++ api.Error e
  ∧ altIdx m' = altIdx m
  ∧ snd (Update m msg) = [clearStatusAfter errorClearDelay].
Proof.
  intros HG Hurl Henc Hrt Hbody Hcode e msg m'.
  assert (api.SwitchProvider c G alt n
          = (inl e, api.after n (api.writeRequest c (api.selectionPath G) body) w))
    as Hswitch.
  { unfold api.SwitchProvider, api.bind, api.ret. fold (api.selectionPath G).
    unfold api.put. rewrite Henc.
    rewrite (newRequest_ok c api.MethodPut _ (Some body) Hurl).
    change (api.withContentType _) with (api.writeRequest c (api.selectionPath G) body).
    by rewrite (do_status_error _ _ n resp w text Hrt Hcode Hbody). }
  assert (msg = providerLoadFailedMsg G "switch" e) as Hmsg.
  { unfold msg. by rewrite Hswitch. }
  split; [done | ]. split; [done | ].
  unfold m'. rewrite Hmsg. unfold Update.
  rewrite handleProviderLoadFailed_eq. cbv iota beta.
  split; [ | done].
  transitivity
    (lookupEntry
       (stored (providerData m) G
          (completed (providerLoadFailedMsg G "switch" e) (entry m G))) G);
    [done | ].
  rewrite lookupEntry_stored, Z.eqb_refl.
  by destruct (Z.eqb_spec G 0).
Qed.

End EndToEnd.

Lemma rejected_switch_is_reported_witness :
  let c := {| api.baseURL := api.defaultBaseURL; api.apiKey := "k" |} in
  let n := @api.Build_Net api.scriptedTransport [api.serverError] [] in
  let m := fst (run NewModel (group3Loaded ++ [key "j"; enterKey])) in
  let msg := run_switchProviderCmd 3
               (fst (@api.SwitchProvider api.scriptedTransport c 3 102 n)) in
  switching (entry m 3) = true
  ∧ switching (entry (fst (Update m msg)) 3) = false
  ∧ status (fst (Update m msg)) = "提供商 3: yescode api error: status=500 body=oops".
Proof.
  intros c n m msg.
  assert ((3 : Z) ≠ 0) as H3 by lia.
  assert (300 ≤ 500) as H500 by lia.
  destruct (@rejected_switch_is_reported api.scriptedTransport c m 3 102 n
              {| api.respStatusCode := 500; api.respBody := inr "oops" |} []
              "{}" "oops" H3 eq_refl eq_refl eq_refl eq_refl H500)
    as (_ & _ & H1 & _ & H2 & _).
  split; [vm_compute; reflexivity | ]. split.
  - fold msg in H1. rewrite H1. reflexivity.
  - fold msg in H2. rewrite H2. vm_compute. reflexivity.
Defined.

(** ** What an input leaves alone *)

Lemma sameData_refl (st : providerState) : sameData st st.
Proof. by unfold sameData. Qed.

Lemma sameData_trans (st1 st2 st3 : providerState) :
  sameData st1 st2 → sameData st2 st3 → sameData st1 st3.
Proof. unfold sameData. intros (-> & -> & ->) (-> & -> & ->). done. Qed.

Lemma quiet_nil : quiet [].
Proof. intros c H. by apply elem_of_nil in H. Qed.

Lemma quiet_count (cmds : list Cmd) :
  quiet cmds →
  count isProvidersFetch cmds = 0 ∧ count isPreferenceUpdate cmds = 0.
Proof.
  intros H. split; apply count_zero; intros c Hc; by destruct (H c Hc) as (? & ? & ?).
Qed.

Lemma keeps_quiet (m m' : Model) (cmds : list Cmd) :
  profile m' = profile m →
  providersLoaded m' = providersLoaded m →
  loadingProviders m' = loadingProviders m →
  preferenceSwitching m' = preferenceSwitching m →
  manualRefreshingProfile m' = manualRefreshingProfile m →
  loadingProfile m' = loadingProfile m →
  (∀ id, sameData (entry m id) (entry m' id)) →
  quiet cmds →
  keeps m m' cmds.
Proof.
  intros Hp Hl Hlp Hps Hmr Hlpr Hd Hq.
  destruct (quiet_count cmds Hq) as [Hc1 Hc2].
  split; try done.
  - rewrite Hlp, Hc1. lia.
  - rewrite Hc1. lia.
  - rewrite Hps, Hc2. lia.
  - intros c Hc. by destruct (Hq c Hc) as (? & ? & ?).
  - unfold refreshing. by rewrite Hmr, Hlpr.
Qed.

Lemma keeps_refl (m : Model) : keeps m m [].
Proof. apply keeps_quiet; try done. apply quiet_nil. Qed.

Lemma keeps_trans (m m1 m2 : Model) (c1 c2 : list Cmd) :
  keeps m m1 c1 → keeps m1 m2 c2 → keeps m m2 (c1 ++ c2)%list.
Proof.
  intros [P1 L1 F1 G1 D1 S1 T1 R1] [P2 L2 F2 G2 D2 S2 T2 R2].
  split.
  - congruence.
  - congruence.
  - rewrite count_app. lia.
  - rewrite count_app. intros H.
    pose proof (count_nonneg isProvidersFetch c1) as Hn1.
    pose proof (count_nonneg isProvidersFetch c2) as Hn2.
    destruct (Z.eq_dec (count isProvidersFetch c1) 0) as [H0 | H0].
    + rewrite <- L1. apply G2. lia.
    + apply G1. lia.
  - intros id. by apply sameData_trans with (entry m1 id).
  - rewrite count_app. lia.
  - intros c Hc. apply elem_of_app in Hc as [Hc | Hc]; auto.
  - auto.
Qed.

(** A handler that writes to fields that are not tracked. *)
Lemma keeps_fields (m m' : Model) :
  profile m' = profile m →
  providersLoaded m' = providersLoaded m →
  loadingProviders m' = loadingProviders m →
  preferenceSwitching m' = preferenceSwitching m →
  manualRefreshingProfile m' = manualRefreshingProfile m →
  loadingProfile m' = loadingProfile m →
  providerData m' = providerData m →
  keeps m m' [].
Proof.
  intros Hp Hl Hlp Hps Hmr Hlpr Hd. apply keeps_quiet; try done; [ | apply quiet_nil].
  intros id. unfold entry. rewrite Hd. apply sameData_refl.
Qed.

Lemma keeps_after (m m1 m2 : Model) (cmds : list Cmd) :
  keeps m m1 cmds → keeps m1 m2 [] → keeps m m2 cmds.
Proof.
  intros H1 H2. rewrite <- (app_nil_r cmds). by apply keeps_trans with m1.
Qed.

Lemma keeps_then (m m1 : Model) (h : Model → Model * list Cmd) :
  keeps m m1 [] →
  (∀ m, keeps m (fst (h m)) (snd (h m))) →
  keeps m (fst (h m1)) (snd (h m1)).
Proof. intros H1 H2. apply (keeps_trans m m1 _ [] _); auto. Qed.

(** A handler that writes the entry of one provider, flags only. *)
Lemma keeps_entry (m m' : Model) (cmds : list Cmd) (G : Z) (st' : providerState) :
  profile m' = profile m →
  providersLoaded m' = providersLoaded m →
  loadingProviders m' = loadingProviders m →
  preferenceSwitching m' = preferenceSwitching m →
  manualRefreshingProfile m' = manualRefreshingProfile m →
  loadingProfile m' = loadingProfile m →
  (providerData m' = stored (providerData m) G st'
   ∨ providerData m' = ensured (stored (providerData m) G st') G) →
  sameData (entry m G) st' →
  quiet cmds →
  keeps m m' cmds.
Proof.
  intros Hp Hl Hlp Hps Hmr Hlpr Hd Hs Hq. apply keeps_quiet; try done.
  intros id. rewrite (entry_eq m' id).
  assert (lookupEntry (providerData m') id
          = lookupEntry (stored (providerData m) G st') id) as ->.
  { destruct Hd as [-> | ->]; [done | apply lookupEntry_ensured]. }
  rewrite lookupEntry_stored.
  destruct ((id =? G) && negb (G =? 0)) eqn:E; [ | rewrite <- entry_eq; apply sameData_refl].
  apply andb_true_iff in E as [E _]. apply Z.eqb_eq in E. by subst.
Qed.

Lemma keeps_ensure (m : Model) (G : Z) :
  keeps m (fst (ensureProviderState m G)) [].
Proof.
  rewrite ensureProviderState_eq. simpl.
  apply keeps_quiet; try done; [ | apply quiet_nil].
  intros id. rewrite entry_set_providerData, lookupEntry_ensured, <- entry_eq.
  apply sameData_refl.
Qed.

Lemma keeps_syncAltIdx (m : Model) (G : Z) : keeps m (syncAltIdx m G) [].
Proof.
  rewrite syncAltIdx_eq. destruct (_ || _); [apply keeps_refl | ].
  apply keeps_quiet; try done; [ | apply quiet_nil].
  intros id.
  change (sameData (entry m id) (lookupEntry (ensured (providerData m) G) id)).
  rewrite lookupEntry_ensured, <- entry_eq. apply sameData_refl.
Qed.

Lemma scoped_quiet (c : Cmd) (id : Z) :
  scope c = Some id →
  isProvidersFetch c = false ∧ isPreferenceUpdate c = false ∧ isTimer c = false.
Proof. by destruct c. Qed.

Lemma quiet_queueCmds (id : Z) (st : providerState) : quiet (queueCmds id st).
Proof.
  intros c Hc. apply queueCmds_scope in Hc as [Hc _]. by apply (scoped_quiet c id).
Qed.

Lemma sameData_queued (st : providerState) : sameData st (queued st).
Proof.
  unfold queued, needAlternatives, needSelection.
  destruct st as [alts sel al sl la ls sw le]. by destruct al, sl, la, ls.
Qed.

Lemma keeps_queue (m : Model) (G : Z) :
  keeps m (fst (queueProviderDetailLoad m G)) (snd (queueProviderDetailLoad m G)).
Proof.
  destruct (Z.eq_dec G 0) as [-> | H0]; [apply keeps_refl | ].
  rewrite (queueProviderDetailLoad_eq m G H0). simpl.
  set (m1 := set_providerData _ m).
  set (m2 := if _ || _ then _ else m1).
  apply (keeps_after m m2).
  - apply (keeps_entry m m2 _ G (queued (entry m G)));
      try (unfold m2; by destruct (_ || _)).
    + left. unfold m2. by destruct (_ || _).
    + apply sameData_queued.
    + apply quiet_queueCmds.
  - destruct (_ && _); [apply keeps_syncAltIdx | apply keeps_refl].
Qed.

Lemma keeps_refreshCurrentProvider (m : Model) :
  keeps m (fst (refreshCurrentProvider m)) (snd (refreshCurrentProvider m)).
Proof.
  unfold refreshCurrentProvider.
  destruct (len (providers m) =? 0); [apply keeps_refl | ].
  rewrite ensureProviderState_eq. simpl. rewrite storeProviderState_eq. simpl.
  rewrite stored_ensured. fold (invalidated (entry m (currentProviderID m))).
  set (G := currentProviderID m).
  set (m1 := set_providerData (stored (providerData m) G (invalidated (entry m G))) m).
  change (currentProviderID m1) with G.
  apply (keeps_trans m m1 _ [] _); [ | apply keeps_queue].
  apply (keeps_entry m m1 [] G (invalidated (entry m G))); try done.
  - by left.
  - apply quiet_nil.
Qed.

Lemma keeps_switchSelection (m : Model) :
  keeps m (fst (switchSelection m)) (snd (switchSelection m)).
Proof.
  rewrite switchSelection_eq.
  destruct (len (providers m) =? 0); [apply keeps_refl | ]. simpl.
  set (G := currentProviderID m).
  pose proof (keeps_ensure m G) as Hens.
  rewrite ensureProviderState_eq in Hens. simpl in Hens.
  destruct (_ || _); [done | ].
  destruct (_ >=? _); [done | ].
  destruct (index _ _) as [chosen | ]; [ | done].
  unfold confirmed. fold G.
  destruct (match selection (entry m G) with Some _ => _ | None => _ end); simpl.
  - apply (keeps_after m (set_providerData (ensured (providerData m) G) m));
      [exact Hens | by apply keeps_fields].
  - apply (keeps_entry m _ _ G (set_switching true (entry m G))); try done.
    + by left.
    + intros c Hc. apply list_elem_of_singleton in Hc. by subst.
Qed.

Lemma keeps_moveSelection (m : Model) (delta : Z) :
  keeps m (fst (moveSelection m delta)) (snd (moveSelection m delta)).
Proof.
  unfold moveSelection.
  destruct (len (providers m) =? 0); [apply keeps_refl | ].
  destruct (focus m).
  - set (m1 := set_providerIdx _ m).
    set (m2 := syncAltIdx m1 (currentProviderID m1)).
    apply (keeps_trans m m1 _ [] _); [by apply keeps_fields | ].
    apply (keeps_trans m1 m2 _ [] _); [apply keeps_syncAltIdx | apply keeps_queue].
  - pose proof (keeps_ensure m (currentProviderID m)) as Hens.
    destruct (ensureProviderState m (currentProviderID m)) as [m1 st]. simpl in Hens.
    destruct (len (alternatives st) =? 0); [done | ]. simpl.
    apply (keeps_trans m m1 _ [] []); [done | by apply keeps_fields].
Qed.

(** A handler whose tracked fields and commands are explicit. *)
Ltac keeps_explicit :=
  split; simpl;
  try first
    [ done
    | lia
    | intros id; apply sameData_refl
    | intros c Hc; apply list_elem_of_singleton in Hc; by subst ].

Lemma keeps_ensureProvidersLoaded (m : Model) :
  keeps m (fst (ensureProvidersLoaded m)) (snd (ensureProvidersLoaded m)).
Proof.
  unfold ensureProvidersLoaded.
  destruct (providersLoaded m) eqn:Hl; [apply keeps_refl | ].
  destruct (loadingProviders m) eqn:Hlp; [apply keeps_refl | ]. simpl.
  keeps_explicit. by rewrite Hlp.
Qed.

Lemma keeps_syncBalancePreferenceIdx (m : Model) :
  keeps m (syncBalancePreferenceIdx m) [].
Proof.
  unfold syncBalancePreferenceIdx.
  destruct (profile m) as [p | ] eqn:Hp; [destruct (String.eqb _ _) | ];
    by apply keeps_fields.
Qed.

Lemma keeps_toggleBalancePreference (m : Model) :
  keeps m (fst (toggleBalancePreference m)) (snd (toggleBalancePreference m)).
Proof.
  unfold toggleBalancePreference.
  destruct (profile m) eqn:Hp; [ | apply keeps_refl].
  destruct (preferenceSwitching m) eqn:Hps; [apply keeps_refl | ].
  destruct (String.eqb _ _); [apply keeps_refl | ]. simpl.
  keeps_explicit. by rewrite Hps.
Qed.

Lemma keeps_refreshProfile (m : Model) :
  keeps m (fst (refreshProfile m)) (snd (refreshProfile m)).
Proof.
  unfold refreshProfile. simpl. keeps_explicit.
Qed.

Lemma keeps_handleQuitAndHelp (m : Model) (key : string) :
  keeps m (fst (handleQuitAndHelp m key)) (snd (handleQuitAndHelp m key)).
Proof.
  unfold handleQuitAndHelp.
  destruct (String.eqb key "esc").
  - destruct (showHelpDialog m); [by apply keeps_fields | ].
    simpl. keeps_explicit.
  - destruct (_ || _); [by apply keeps_fields | apply keeps_refl].
Qed.

Lemma keeps_handleTabChanged (m : Model) :
  keeps m (fst (handleTabChanged m)) (snd (handleTabChanged m)).
Proof.
  unfold handleTabChanged. destruct (currentTab m); simpl.
  - apply keeps_refl.
  - apply (keeps_trans m (set_focus focusProviders m) _ [] _);
      [by apply keeps_fields | apply keeps_ensureProvidersLoaded].
  - apply keeps_syncBalancePreferenceIdx.
Qed.

Lemma keeps_handleTabSwitch (m : Model) (key : string) :
  keeps m (fst (handleTabSwitch m key)) (snd (handleTabSwitch m key)).
Proof.
  unfold handleTabSwitch, switchToNextTab, switchToPrevTab.
  destruct (String.eqb key "1"); [by apply keeps_fields | ].
  destruct (String.eqb key "2").
  { apply keeps_then; [ | apply keeps_ensureProvidersLoaded].
    by apply keeps_fields. }
  destruct (String.eqb key "3").
  { apply (keeps_trans m (set_currentTab tabBalancePreference m) _ [] []);
      [by apply keeps_fields | apply keeps_syncBalancePreferenceIdx]. }
  destruct (String.eqb key "tab").
  { apply keeps_then; [by apply keeps_fields | apply keeps_handleTabChanged]. }
  destruct (String.eqb key "shift+tab").
  { apply keeps_then; [by apply keeps_fields | apply keeps_handleTabChanged]. }
  apply keeps_refl.
Qed.

Lemma keeps_handleFocusSwitch (m : Model) (key : string) :
  keeps m (handleFocusSwitch m key) [].
Proof.
  unfold handleFocusSwitch. destruct (currentTab m); try apply keeps_refl.
  destruct (_ || _); [by apply keeps_fields | ].
  destruct (_ || _); [ | apply keeps_refl].
  apply (keeps_trans m (set_focus focusAlternatives m) _ [] []);
    [by apply keeps_fields | apply keeps_syncAltIdx].
Qed.

Lemma keeps_handleRefresh (m : Model) (key : string) :
  keeps m (fst (handleRefresh m key)) (snd (handleRefresh m key)).
Proof.
  unfold handleRefresh. destruct (negb _); [apply keeps_refl | ].
  destruct (currentTab m).
  - apply keeps_refreshProfile.
  - apply keeps_refreshCurrentProvider.
  - apply keeps_refl.
Qed.

Lemma keeps_handleEnter (m : Model) (key : string) :
  keeps m (fst (handleEnter m key)) (snd (handleEnter m key)).
Proof.
  unfold handleEnter. destruct (negb _); [apply keeps_refl | ].
  destruct (currentTab m).
  - apply keeps_refl.
  - destruct (focus m); [apply keeps_refl | apply keeps_switchSelection].
  - apply keeps_toggleBalancePreference.
Qed.

Lemma keeps_handleNavigation (m : Model) (key : string) :
  keeps m (fst (handleNavigation m key)) (snd (handleNavigation m key)).
Proof.
  unfold handleNavigation.
  destruct (if _ || _ then Some (-1) else _) as [d | ]; [ | apply keeps_refl].
  destruct (currentTab m).
  - destruct (d <? 0); by apply keeps_fields.
  - apply keeps_moveSelection.
  - by apply keeps_fields.
Qed.

Lemma keeps_handleKey (m : Model) (k : KeyMsg) :
  keeps m (fst (handleKey m k)) (snd (handleKey m k)).
Proof.
  unfold handleKey.
  destruct (keyType k).
  { simpl. keeps_explicit. }
  pose proof (keeps_handleQuitAndHelp m (keyString k)) as H1.
  destruct (handleQuitAndHelp m (keyString k)) as [m1 cmd1]. simpl in H1.
  destruct (negb (isNil cmd1)) eqn:E1; [done | ].
  apply isNil_false in E1. subst cmd1.
  pose proof (keeps_handleTabSwitch m1 (keyString k)) as H2.
  destruct (handleTabSwitch m1 (keyString k)) as [m2 cmd2]. simpl in H2.
  destruct (negb (isNil cmd2)) eqn:E2;
    [exact (keeps_trans m m1 m2 [] cmd2 H1 H2) | ].
  apply isNil_false in E2. subst cmd2.
  pose proof (keeps_trans m m1 m2 [] [] H1 H2) as H12. simpl in H12.
  pose proof (keeps_handleFocusSwitch m2 (keyString k)) as H3.
  set (m3 := handleFocusSwitch m2 (keyString k)) in *.
  pose proof (keeps_trans m m2 m3 [] [] H12 H3) as H13. simpl in H13.
  pose proof (keeps_handleRefresh m3 (keyString k)) as H4.
  destruct (handleRefresh m3 (keyString k)) as [m4 cmd4]. simpl in H4.
  destruct (negb (isNil cmd4)) eqn:E4;
    [exact (keeps_trans m m3 m4 [] cmd4 H13 H4) | ].
  apply isNil_false in E4. subst cmd4.
  pose proof (keeps_trans m m3 m4 [] [] H13 H4) as H14. simpl in H14.
  pose proof (keeps_handleEnter m4 (keyString k)) as H5.
  destruct (handleEnter m4 (keyString k)) as [m5 cmd5]. simpl in H5.
  destruct (negb (isNil cmd5)) eqn:E5;
    [exact (keeps_trans m m4 m5 [] cmd5 H14 H5) | ].
  apply isNil_false in E5. subst cmd5.
  pose proof (keeps_trans m m4 m5 [] [] H14 H5) as H15. simpl in H15.
  pose proof (keeps_handleNavigation m5 (keyString k)) as H6.
  destruct (handleNavigation m5 (keyString k)) as [m6 cmd6]. simpl in H6.
  destruct (negb (isNil cmd6)) eqn:E6;
    [exact (keeps_trans m m5 m6 [] cmd6 H15 H6) | ].
  apply isNil_false in E6. subst cmd6.
  exact (keeps_trans m m5 m6 [] [] H15 H6).
Qed.

Lemma keeps_handleMouseWheel (m : Model) (delta : Z) :
  keeps m (fst (handleMouseWheel m delta)) (snd (handleMouseWheel m delta)).
Proof.
  unfold handleMouseWheel. destruct (currentTab m).
  - destruct (delta <? 0); by apply keeps_fields.
  - apply keeps_moveSelection.
  - apply keeps_moveSelection.
Qed.

Lemma keeps_handleTabClick (m : Model) (x : Z) :
  keeps m (fst (handleTabClick m x)) (snd (handleTabClick m x)).
Proof.
  unfold handleTabClick. simpl.
  destruct (x <? tab1Width); [by apply keeps_fields | ].
  destruct (x <? tab1Width + tab2Width).
  - apply keeps_then; [ | apply keeps_ensureProvidersLoaded].
    by apply keeps_fields.
  - apply (keeps_trans m (set_currentTab tabBalancePreference m) _ [] []);
      [by apply keeps_fields | apply keeps_syncBalancePreferenceIdx].
Qed.

Lemma keeps_handleProvidersClick (m : Model) (x contentY : Z) :
  keeps m (fst (handleProvidersClick m x contentY))
    (snd (handleProvidersClick m x contentY)).
Proof.
  unfold handleProvidersClick.
  destruct (len (providers m) =? 0); [apply keeps_refl | ].
  set (listItemY := int_sub contentY (panelInnerOffsetY getUILayout)).
  destruct (x <? Z.quot (width m) 2).
  - destruct ((listItemY >=? 0) && _); [ | by apply keeps_fields].
    set (m1 := set_providerIdx listItemY (set_focus focusProviders m)).
    apply (keeps_trans m m1 _ [] _); [by apply keeps_fields | apply keeps_queue].
  - pose proof (keeps_ensure (set_focus focusAlternatives m)
                  (currentProviderID (set_focus focusAlternatives m))) as Hens.
    destruct (ensureProviderState (set_focus focusAlternatives m)
                (currentProviderID (set_focus focusAlternatives m))) as [m1 st].
    simpl in Hens.
    assert (keeps m m1 []) as H1.
    { apply (keeps_trans m (set_focus focusAlternatives m) _ [] []);
        [by apply keeps_fields | done]. }
    destruct (alternativesLoaded st); [ | done].
    destruct ((listItemY >=? 0) && _).
    + apply (keeps_trans m (set_altIdx listItemY m1) _ [] _).
      * apply (keeps_trans m m1 _ [] []); [done | by apply keeps_fields].
      * apply keeps_switchSelection.
    + simpl. apply (keeps_trans m m1 _ [] []); [done | apply keeps_syncAltIdx].
Qed.

Lemma keeps_handleBalancePreferenceClick (m : Model) (contentY : Z) :
  keeps m (fst (handleBalancePreferenceClick m contentY))
    (snd (handleBalancePreferenceClick m contentY)).
Proof.
  unfold handleBalancePreferenceClick.
  destruct (if _ && _ then Some 0 else _) as [t | ]; [ | apply keeps_refl].
  destruct (negb _); [ | apply keeps_refl].
  apply keeps_then; [by apply keeps_fields | apply keeps_toggleBalancePreference].
Qed.

Lemma keeps_handleMouse (m : Model) (e : MouseMsg) :
  keeps m (fst (handleMouse m e)) (snd (handleMouse m e)).
Proof.
  unfold handleMouse, handleContentClick.
  destruct (mouseButton e); try apply keeps_refl;
    try apply keeps_handleMouseWheel.
  destruct (mouseAction e); try apply keeps_refl.
  destruct (mouseY e =? _); [apply keeps_handleTabClick | ].
  destruct (mouseY e >=? _); [ | apply keeps_refl].
  destruct (currentTab m).
  - apply keeps_refl.
  - apply keeps_handleProvidersClick.
  - apply keeps_handleBalancePreferenceClick.
Qed.

Lemma keeps_input (m : Model) (msg : Msg) :
  isInput msg → keeps m (fst (Update m msg)) (snd (Update m msg)).
Proof.
  intros Hin. unfold Update.
  destruct msg; try done; simpl.
  - by apply keeps_fields.
  - pose proof (keeps_handleKey m k) as H.
    destruct (handleKey m k) as [m1 cmds]. simpl in *.
    apply (keeps_trans m m1 _ cmds []); [done | by apply keeps_fields].
  - pose proof (keeps_handleMouse m e) as H.
    destruct (handleMouse m e) as [m1 cmds]. simpl in *.
    apply (keeps_trans m m1 _ cmds []); [done | by apply keeps_fields].
Qed.

(** ** What a result leaves alone *)



Lemma sameFlags_refl (m : Model) : sameFlags m m.
Proof. by unfold sameFlags. Qed.

Lemma sameFlags_trans (m1 m2 m3 : Model) :
  sameFlags m1 m2 → sameFlags m2 m3 → sameFlags m1 m3.
Proof.
  unfold sameFlags.
  intros (-> & -> & -> & -> & -> & -> & ->) (-> & -> & -> & -> & -> & -> & ->).
  done.
Qed.

Lemma sameFlags_syncAltIdx (m : Model) (id : Z) : sameFlags m (syncAltIdx m id).
Proof. rewrite syncAltIdx_eq. by destruct (_ || _). Qed.

Lemma sameFlags_clearLoadingStatus (m : Model) st :
  sameFlags m (clearLoadingStatus m st).
Proof. unfold clearLoadingStatus. by destruct (_ && _). Qed.

(** A result about one provider: the flags stay, the entry of the provider
    is completed, the others are as they were. *)
Lemma scoped_result_fields (m : Model) (G : Z) (msg : Msg) :
  scopedResult G msg →
  sameFlags m (fst (Update m msg))
  ∧ (∀ id, entry (fst (Update m msg)) id
           = if (id =? G) && negb (G =? 0) then completed msg (entry m G)
             else entry m id)
  ∧ (∀ c, c ∈ snd (Update m msg) → ∃ d, c = clearStatusAfter d).
Proof.
  intros Hmsg.
  destruct (scoped_result_entry m G msg Hmsg) as (Hpd & _).
  split; [ | split].
  - destruct msg; try done; simpl in Hmsg; subst providerID; unfold Update.
    + rewrite handleAlternativesLoaded_eq. simpl.
      apply (sameFlags_trans m (syncAltIdx (written m G (alternativesLoadedMsg G alternatives0)) G));
        [apply (sameFlags_syncAltIdx (written m G _)) | ].
      apply (sameFlags_clearLoadingStatus _ _).
    + rewrite handleSelectionLoaded_eq. simpl.
      apply (sameFlags_trans m (syncAltIdx (written m G (selectionLoadedMsg G selection0)) G));
        [apply (sameFlags_syncAltIdx (written m G _)) | ].
      apply (sameFlags_clearLoadingStatus _ _).
    + rewrite handleSwitchCompleted_eq. simpl.
      apply (sameFlags_syncAltIdx (written m G _)).
    + rewrite handleProviderLoadFailed_eq. by unfold sameFlags.
  - intros id. rewrite entry_eq, Hpd. apply lookupEntry_stored.
  - destruct msg; try done; simpl in Hmsg; subst providerID; unfold Update.
    + rewrite handleAlternativesLoaded_eq. simpl. intros c Hc. by apply elem_of_nil in Hc.
    + rewrite handleSelectionLoaded_eq. simpl. intros c Hc. by apply elem_of_nil in Hc.
    + rewrite handleSwitchCompleted_eq. simpl. intros c Hc.
      apply list_elem_of_singleton in Hc. by eexists.
    + rewrite handleProviderLoadFailed_eq. simpl. intros c Hc.
      apply list_elem_of_singleton in Hc. by eexists.
Qed.


Lemma sameFlags_refreshing (m m' : Model) :
  sameFlags m m' → refreshing m → refreshing m'.
Proof. unfold sameFlags, refreshing. intros (_ & _ & _ & _ & _ & -> & ->). done. Qed.

Lemma isRefreshTicker_timer (cmds : list Cmd) :
  (∀ c, c ∈ cmds → isTimer c = false) → count isRefreshTicker cmds = 0.
Proof.
  intros H. apply count_zero. intros c Hc. specialize (H c Hc). by destruct c.
Qed.

Lemma b2z_inj (a b : bool) : b2z a = b2z b → a = b.
Proof. destruct a, b; simpl; intros H; try done; lia. Qed.

Lemma handleProvidersLoaded_fields (m : Model) (response : api.ProvidersResponse) :
  let m' := fst (handleProvidersLoaded m response) in
  let cmds := snd (handleProvidersLoaded m response) in
  profile m' = profile m
  ∧ providersLoaded m' = true
  ∧ preferenceSwitching m' = preferenceSwitching m
  ∧ (refreshing m → refreshing m')
  ∧ count isProvidersFetch cmds = 0
  ∧ count isPreferenceUpdate cmds = 0
  ∧ count isRefreshTicker cmds = 0
  ∧ ∀ id, sameData (entry m id) (entry m' id).
Proof.
  unfold handleProvidersLoaded.
  set (m1 := set_loadingProviders false _).
  set (m2 := if providerIdx m1 >=? _ then _ else m1).
  set (m3 := if contains (status m2) _ then _ else m2).
  assert (profile m3 = profile m ∧ providersLoaded m3 = true
          ∧ loadingProviders m3 = false
          ∧ preferenceSwitching m3 = preferenceSwitching m
          ∧ manualRefreshingProfile m3 = manualRefreshingProfile m
          ∧ loadingProfile m3 = loadingProfile m
          ∧ providerData m3 = providerData m) as (H1 & H2 & H3 & H4 & H5 & H6 & H7).
  { unfold m3, m2. destruct (contains _ _), (providerIdx m1 >=? _); by simpl. }
  destruct (0 <? len (providers m3)); simpl.
  - destruct (keeps_queue m3 (currentProviderID m3)) as [P L F G D S T R].
    rewrite P, L, H1, H2.
    assert (count isProvidersFetch (snd (queueProviderDetailLoad m3 (currentProviderID m3))) = 0)
      as Hc.
    { pose proof (count_nonneg isProvidersFetch
                    (snd (queueProviderDetailLoad m3 (currentProviderID m3)))) as Hn.
      destruct (Z.eq_dec (count isProvidersFetch
                  (snd (queueProviderDetailLoad m3 (currentProviderID m3)))) 0) as [ | Hne];
        [done | ].
      assert (providersLoaded m3 = false) as Hf by (apply G; lia).
      by rewrite H2 in Hf. }
    assert (b2z (preferenceSwitching (fst (queueProviderDetailLoad m3 (currentProviderID m3))))
            = b2z (preferenceSwitching m)
              + count isPreferenceUpdate
                  (snd (queueProviderDetailLoad m3 (currentProviderID m3)))) as Hs.
    { by rewrite S, H4. }
    pose proof (count_nonneg isPreferenceUpdate
                  (snd (queueProviderDetailLoad m3 (currentProviderID m3)))) as Hn.
    assert (count isPreferenceUpdate
              (snd (queueProviderDetailLoad m3 (currentProviderID m3))) = 0) as Hc2.
    { apply count_zero. intros c Hc'.
      rewrite queueProviderDetailLoad_cmds in Hc'.
      destruct (_ =? 0); [by apply elem_of_nil in Hc' | ].
      by destruct (quiet_queueCmds _ _ c Hc') as (_ & ? & _). }
    rewrite Hc2 in Hs.
    split; [done | ]. split; [done | ].
    split. { apply b2z_inj. lia. }
    split. { intros Hr. apply R. unfold refreshing. by rewrite H5, H6. }
    split; [done | ]. split; [done | ].
    split; [by apply isRefreshTicker_timer | ].
    intros id. specialize (D id). unfold entry in D at 1. rewrite H7 in D. exact D.
  - rewrite H1, H2, H4. repeat split; try done.
    + unfold refreshing. by rewrite H5, H6.
    + unfold entry. by rewrite H7.
    + unfold entry. by rewrite H7.
    + unfold entry. by rewrite H7.
Qed.

Lemma result_flags (m : Model) (msg : Msg) :
  isInputb msg = false →
  let m' := fst (Update m msg) in
  let cmds := snd (Update m msg) in
  profile m' = resultProfile msg (profile m)
  ∧ providersLoaded m'
    = (match msg with providersLoadedMsg _ => true | _ => providersLoaded m end)
  ∧ preferenceSwitching m'
    = (match msg with
       | preferenceUpdatedMsg _ | preferenceFailedMsg _ => false
       | _ => preferenceSwitching m
       end)
  ∧ (refreshing m → refreshing m')
  ∧ count isProvidersFetch cmds = 0
  ∧ count isPreferenceUpdate cmds = 0
  ∧ count isRefreshTicker cmds
    = (match msg with profileRefreshTickMsg => 1 | _ => 0 end)
  ∧ ∀ id, sameData (entry m id) (entry m' id) ∨ scopedResult id msg.
Proof.
  intros Hin.
  assert (Hscoped : ∀ G, scopedResult G msg →
            let m' := fst (Update m msg) in
            let cmds := snd (Update m msg) in
            profile m' = profile m ∧ providersLoaded m' = providersLoaded m
            ∧ preferenceSwitching m' = preferenceSwitching m
            ∧ (refreshing m → refreshing m')
            ∧ count isProvidersFetch cmds = 0
            ∧ count isPreferenceUpdate cmds = 0
            ∧ count isRefreshTicker cmds = 0
            ∧ ∀ id, sameData (entry m id) (entry m' id) ∨ scopedResult id msg).
  { intros G HG.
    destruct (scoped_result_fields m G msg HG) as (Hf & He & Hc).
    pose proof (sameFlags_refreshing _ _ Hf) as Hr.
    destruct Hf as (H1 & _ & H3 & _ & H5 & _).
    repeat split; try done.
    - apply count_zero. intros c Hin'. by destruct (Hc c Hin') as [d ->].
    - apply count_zero. intros c Hin'. by destruct (Hc c Hin') as [d ->].
    - apply count_zero. intros c Hin'. by destruct (Hc c Hin') as [d ->].
    - intros id. rewrite He.
      destruct ((id =? G) && negb (G =? 0)) eqn:E; [ | left; apply sameData_refl].
      right. apply andb_true_iff in E as [E _]. apply Z.eqb_eq in E. by subst. }
  destruct msg; try done.
  - (* profileLoadedMsg *)
    simpl. repeat split; try done. intros id. by left.
  - (* providersLoadedMsg *)
    unfold Update.
    pose proof (handleProvidersLoaded_fields m response) as H.
    destruct (handleProvidersLoaded m response) as [m1 cmds1]. simpl in *.
    destruct H as (H1 & H2 & H3 & H4 & H5 & H6 & H7 & H8).
    rewrite !app_nil_r. repeat split; try done. intros id. left. apply H8.
  - apply (Hscoped providerID). done.
  - apply (Hscoped providerID). done.
  - apply (Hscoped providerID). done.
  - (* preferenceUpdatedMsg *)
    unfold Update, handlePreferenceUpdated, syncBalancePreferenceIdx.
    destruct (profile m) as [p | ] eqn:Hp; simpl.
    + destruct (String.eqb preference "payg_only"); simpl; rewrite ?Hp;
        repeat split; try done; intros id; by left.
    + rewrite Hp. simpl. rewrite Hp. repeat split; try done. intros id. by left.
  - (* preferenceFailedMsg *)
    simpl. repeat split; try done. intros id. by left.
  - apply (Hscoped providerID). done.
  - (* errMsg *)
    unfold Update, handleError, refreshing.
    destruct m as [pr ps pi ai bi fo ct rd st er wi he pd psw sp hl vp pl lp lpr mr sh].
    destruct lp, lpr; simpl; repeat split; try done; intros id; by left.
  - (* clearStatusMsg *)
    simpl. repeat split; try done. intros id. by left.
  - (* profileRefreshTickMsg *)
    unfold Update, handleProfileRefreshTick.
    destruct (currentTab m); simpl; repeat split; try done; intros id; by left.
  - (* spinnerTickMsg *)
    simpl. repeat split; try done. intros id. by left.
Qed.


Lemma steady_initial : steady NewModel Init.
Proof. split; try done. Qed.

Lemma delivers_kind (c : Cmd) (msg : Msg) :
  delivers c msg →
  isInputb msg = false
  ∧ isPreferenceUpdate c
    = (match msg with
       | preferenceUpdatedMsg _ | preferenceFailedMsg _ => true
       | _ => false
       end)
  ∧ isRefreshTicker c
    = (match msg with profileRefreshTickMsg => true | _ => false end).
Proof. intros H. destruct H; try destruct r; done. Qed.

Lemma steady_input (m : Model) (l : list Cmd) (msg : Msg) :
  isInput msg → steady m l →
  steady (fst (Update m msg)) (l ++ snd (Update m msg))%list.
Proof.
  intros Hin [Hp Ht Hr].
  destruct (keeps_input m msg Hin) as [_ _ _ _ _ S T R].
  split.
  - rewrite count_app, Hp, S. done.
  - rewrite count_app, Ht, (isRefreshTicker_timer _ T). done.
  - auto.
Qed.

Lemma steady_deliver (m : Model) (l1 l2 : list Cmd) (c : Cmd) (msg : Msg) :
  delivers c msg → steady m (l1 ++ c :: l2)%list →
  steady (fst (Update m msg)) (l1 ++ l2 ++ snd (Update m msg))%list.
Proof.
  intros Hd [Hp Ht Hr].
  destruct (delivers_kind c msg Hd) as (Hin & Hkp & Hkt).
  destruct (result_flags m msg Hin) as (_ & _ & Hps & Hrf & _ & Hcp & Hct & _).
  rewrite count_remove in Hp, Ht. rewrite Hkp in Hp. rewrite Hkt in Ht.
  pose proof (count_nonneg isPreferenceUpdate (l1 ++ l2)) as Hn.
  split.
  - rewrite app_assoc, count_app, Hcp, Hps.
    destruct msg; simpl in Hp |- *; try lia.
    all: destruct (preferenceSwitching m); simpl in Hp; lia.
  - rewrite app_assoc, count_app, Hct.
    destruct msg; simpl in Ht |- *; lia.
  - auto.
Qed.

Section Steady.

Context `{R : Renderer}.

Lemma sameFlags_viewEffect (m : Model) : sameFlags m (viewEffect m).
Proof.
  unfold viewEffect. destruct (currentTab m); try apply sameFlags_refl.
  - unfold renderProfileTab. destruct (profile m); simpl; [done | ].
    destruct (negb _); apply sameFlags_refl.
  - destruct (len (providers m) =? 0); [apply sameFlags_refl | ].
    rewrite ensureProviderState_eq. done.
Qed.

Lemma steady_step (s s' : System) :
  steady (model s) (inflight s) → step anyInput s s' →
  steady (model s') (inflight s').
Proof.
  intros Hs Hstep. destruct Hstep as [m l msg m' cmds Hin _ Hu | m l1 c l2 msg m' cmds Hd Hu | m l];
    simpl in *.
  - pose proof (steady_input m l msg Hin Hs) as H. by rewrite Hu in H.
  - pose proof (steady_deliver m l1 l2 c msg Hd Hs) as H. by rewrite Hu in H.
  - destruct Hs as [Hp Ht Hr].
    pose proof (sameFlags_viewEffect m) as Hf.
    split; [ | done | by apply (sameFlags_refreshing m)].
    destruct Hf as (_ & _ & _ & _ & -> & _). done.
Qed.

Lemma steady_reachable (s : System) :
  reachable anyInput s → steady (model s) (inflight s).
Proof.
  induction 1 as [ | s s' _ IH Hstep]; [apply steady_initial | ].
  by apply (steady_step s s').
Qed.

(** X13. In every reachable state of the event loop the number of preference
    updates in flight equals the preference switching flag, so there is
    never more than one. *)
Theorem one_preference_update_in_flight (s : System) :
  reachable anyInput s →
  count isPreferenceUpdate (inflight s) = b2z (preferenceSwitching (model s))
  ∧ count isPreferenceUpdate (inflight s) ≤ 1.
Proof.
  intros Hs. destruct (steady_reachable s Hs) as [Hp _ _].
  split; [done | ]. rewrite Hp. by destruct (preferenceSwitching _).
Qed.

(** X14. In every reachable state of the event loop exactly one profile
    refresh timer is pending: Init starts one and each tick starts the next
    one. *)
Theorem refresh_timer_always_pending (s : System) :
  reachable anyInput s → count isRefreshTicker (inflight s) = 1.
Proof. intros Hs. by destruct (steady_reachable s Hs). Qed.

(** X15. In every reachable state the manual refresh mark of the profile is
    set only while the profile is loading, and both a loaded profile and a
    general error clear the mark and the loading flag. *)
Theorem refresh_mark_cleared_by_outcome (s : System) (msg : Msg) :
  reachable anyInput s →
  let m := model s in
  let m' := fst (Update m msg) in
  (manualRefreshingProfile m = true → loadingProfile m = true)
  ∧ ((∃ p, msg = profileLoadedMsg p) ∨ (∃ e, msg = errMsg e) →
     manualRefreshingProfile m' = false ∧ loadingProfile m' = false).
Proof.
  intros Hs m m'. destruct (steady_reachable s Hs) as [_ _ Hr]. fold m in Hr.
  split; [exact Hr | ].
  intros [[p ->] | [e ->]]; [done | ].
  unfold m', Update, handleError. unfold refreshing in Hr.
  destruct m as [pr ps pi ai bi fo ct rd st er wi he pd psw sp hl vp pl lp lpr mr sh].
  simpl in *. destruct lp, lpr; simpl; split; try done.
  all: destruct mr; [by discriminate Hr | done].
Qed.

End Steady.

(** ** What changes only on a result *)





(** X17. The cached alternatives of a provider change only when alternatives
    for that provider arrive, its cached selection only when a selection or
    a completed switch for it arrives, and its last error only when a result
    for it clears the error or a failure for it records one. *)
Theorem cache_changes_only_on_results (m : Model) (msg : Msg) (id : Z) :
  let st := entry m id in
  let st' := entry (fst (Update m msg)) id in
  (alternatives st' ≠ alternatives st →
   ∃ alts, msg = alternativesLoadedMsg id alts ∧ alternatives st' = alts)
  ∧ (selection st' ≠ selection st →
     ∃ sel, (msg = selectionLoadedMsg id sel ∨ msg = switchCompletedMsg id sel)
            ∧ selection st' = Some sel)
  ∧ (lastError st' ≠ lastError st →
     (lastError st' = None ∧ syncingResult id msg)
     ∨ ∃ target e, msg = providerLoadFailedMsg id target e ∧ lastError st' = Some e).
Proof.
  intros st st'.
  assert (sameData st st' ∨ scopedResult id msg) as [Hsame | Hscoped].
  { destruct (isInputb msg) eqn:Hin.
    - left. apply (keeps_input m msg (isInputb_isInput msg Hin)).
    - apply (result_flags m msg Hin). }
  { destruct Hsame as (H1 & H2 & H3). repeat split; intros H; by destruct H. }
  destruct (scoped_result_fields m id msg Hscoped) as (_ & He & _).
  specialize (He id). fold st' in He. rewrite Z.eqb_refl in He.
  destruct (Z.eqb_spec id 0) as [-> | Hne]; simpl in He.
  { rewrite He. repeat split; intros H; by destruct H. }
  fold st in He. rewrite He.
  destruct msg; try done; simpl in Hscoped; subst providerID; simpl.
  - split; [intros _; by eexists | ]. split; [intros H; by destruct H | ].
    intros _. by left.
  - split; [intros H; by destruct H | ]. split; [intros _; eexists; eauto | ].
    intros _. by left.
  - split; [intros H; by destruct H | ]. split; [intros _; eexists; eauto | ].
    intros _. by left.
  - assert (∀ st0,
              alternatives (if String.eqb target "alternatives"
                            then set_loadingAlternatives false st0
                            else if String.eqb target "selection"
                            then set_loadingSelection false st0
                            else if String.eqb target "switch"
                            then set_switching false st0 else st0) = alternatives st0
              ∧ selection (if String.eqb target "alternatives"
                            then set_loadingAlternatives false st0
                            else if String.eqb target "selection"
                            then set_loadingSelection false st0
                            else if String.eqb target "switch"
                            then set_switching false st0 else st0) = selection st0)
      as Hflag.
    { intros st0. by repeat case_match. }
    destruct (Hflag st) as [-> ->].
    split; [intros H; by destruct H | ]. split; [intros H; by destruct H | ].
    intros _. right. by do 2 eexists.
Qed.

(** X18. A loaded profile never becomes unloaded, and the profile changes
    only when a profile arrives or when a preference update succeeds, which
    changes only the preference of the profile that is there. *)
Theorem profile_changes_only_on_results (m : Model) (msg : Msg) :
  let m' := fst (Update m msg) in
  (profile m ≠ None → profile m' ≠ None)
  ∧ (profile m' ≠ profile m →
     (∃ p, msg = profileLoadedMsg p ∧ profile m' = Some p)
     ∨ (∃ pref p, msg = preferenceUpdatedMsg pref ∧ profile m = Some p
                  ∧ profile m' = Some (withPreference pref p))).
Proof.
  intros m'.
  assert (profile m' = profile m ∨ (isInputb msg = false ∧ profile m' = resultProfile msg (profile m)))
    as [Hsame | [Hin Hres]].
  { destruct (isInputb msg) eqn:Hin.
    - left. apply (keeps_input m msg (isInputb_isInput msg Hin)).
    - right. split; [done | ]. apply (result_flags m msg Hin). }
  { rewrite Hsame. split; [done | ]. intros H. by destruct H. }
  rewrite Hres. destruct msg; simpl; try (split; [done | intros H; by destruct H]).
  - split; [done | ]. intros _. left. by eexists.
  - destruct (profile m) as [p | ]; simpl; [ | split; [done | intros H; by destruct H]].
    split; [done | ]. intros _. right. by do 2 eexists.
Qed.

(** ** Where the commands come from *)


Lemma switchSelection_requested (m : Model) (c : Cmd) :
  c ∈ snd (switchSelection m) →
  let G := currentProviderID m in
  ∃ chosen,
    index (alternatives (entry m G)) (altIdx m) = Some chosen
    ∧ c = switchProviderCmd G (api.altID (api.Alternative chosen))
    ∧ G ≠ 0
    ∧ switching (entry m G) = false
    ∧ loadingAlternatives (entry m G) = false
    ∧ (∀ sel, selection (entry m G) = Some sel →
         api.SelectedAlternativeID sel ≠ api.altID (api.Alternative chosen))
    ∧ entry (fst (switchSelection m)) G = set_switching true (entry m G).
Proof.
  intros Hc G.
  destruct (switchSelection m) as [m1 [ | c' cmds]] eqn:Hs;
    [by apply elem_of_nil in Hc | ].
  destruct (switchSelection_issued m m1 c' cmds Hs)
    as (chosen & Hi & Hc' & -> & HG & _ & He).
  simpl in Hc. apply list_elem_of_singleton in Hc. subst c.
  exists chosen. fold G in Hi, Hc', HG, He.
  rewrite switchSelection_eq in Hs. fold G in Hs. cbv zeta in Hs.
  destruct (len (providers m) =? 0); [done | ].
  destruct (switching (entry m G)); [done | ].
  destruct (loadingAlternatives (entry m G)); [done | ].
  simpl in Hs. destruct (_ =? 0); [done | ]. simpl in Hs.
  destruct (altIdx m >=? _); [done | ]. rewrite Hi in Hs.
  unfold confirmed in Hs. fold G in Hs.
  repeat split; try done.
  intros sel Hsel Heq. rewrite Hsel in Hs.
  apply Z.eqb_eq in Heq. rewrite Heq in Hs. done.
Qed.

Lemma toggleBalancePreference_requested (m : Model) (c : Cmd) :
  c ∈ snd (toggleBalancePreference m) →
  ∃ target p,
    c = updatePreferenceCmd target
    ∧ target = (if balancePreferenceIdx m =? 0 then "subscription_first"
                else "payg_only")
    ∧ profile m = Some p
    ∧ api.BalancePreference p ≠ target
    ∧ preferenceSwitching m = false
    ∧ preferenceSwitching (fst (toggleBalancePreference m)) = true.
Proof.
  unfold toggleBalancePreference.
  destruct (profile m) as [p | ]; [ | intros H; by apply elem_of_nil in H].
  destruct (preferenceSwitching m); [intros H; by apply elem_of_nil in H | ].
  destruct (String.eqb_spec
              (if balancePreferenceIdx m =? 0 then "subscription_first" else "payg_only")
              (api.BalancePreference p)) as [ | Hne];
    [intros H; by apply elem_of_nil in H | ].
  simpl. intros H. apply list_elem_of_singleton in H. subst c.
  do 2 eexists. repeat split; try done.
Qed.

Lemma fetchOnly_handleRefresh (m : Model) (key : string) :
  fetchOnly (snd (handleRefresh m key)).
Proof.
  unfold handleRefresh. destruct (negb _); [apply fetchOnly_nil | ].
  destruct (currentTab m); [ | | apply fetchOnly_nil].
  - intros c Hc. apply list_elem_of_singleton in Hc. by subst.
  - unfold refreshCurrentProvider.
    destruct (len (providers m) =? 0); [apply fetchOnly_nil | ].
    destruct (ensureProviderState m (currentProviderID m)) as [m1 st].
    apply fetchOnly_queue.
Qed.

Lemma handleEnter_key (m : Model) (key : string) :
  snd (handleEnter m key) ≠ [] → key = "enter".
Proof.
  unfold handleEnter. destruct (String.eqb_spec key "enter"); [done | ].
  simpl. done.
Qed.

Lemma handleEnter_mutation (m : Model) (key : string) (c : Cmd) :
  c ∈ snd (handleEnter m key) → isMutation c = true.
Proof.
  unfold handleEnter. destruct (negb _); [intros H; by apply elem_of_nil in H | ].
  destruct (currentTab m); [intros H; by apply elem_of_nil in H | | ].
  - destruct (focus m); [intros H; by apply elem_of_nil in H | ].
    intros H. by destruct (switchSelection_requested m c H) as (ch & _ & -> & _).
  - intros H. by destruct (toggleBalancePreference_requested m c H) as (t & p & -> & _).
Qed.

(** The command of a key other than [ctrl+c]: the one of the first handler
    that returns one. *)
Lemma handleKey_source (m : Model) (k : KeyMsg) :
  keyType k = KeyOther →
  let key := keyString k in
  let q := handleQuitAndHelp m key in
  (snd q ≠ [] ∧ handleKey m k = q)
  ∨ (snd q = []
     ∧ ∃ m', snd (handleKey m k) = snd (handleTabSwitch m' key)
          ∨ snd (handleKey m k) = snd (handleRefresh m' key)
          ∨ snd (handleKey m k) = snd (handleEnter m' key)
          ∨ snd (handleKey m k) = snd (handleNavigation m' key)
          ∨ snd (handleKey m k) = []).
Proof.
  intros Hk key q. unfold handleKey. rewrite Hk. fold key. fold q.
  destruct q as [m1 cmd1]. simpl.
  destruct cmd1 as [ | c1 cmd1]; [right | left; by simpl]. simpl.
  split; [done | ].
  destruct (handleTabSwitch m1 key) as [m2 cmd2] eqn:E2.
  destruct (negb (isNil cmd2)) eqn:N2.
  { exists m1. left. by rewrite E2. }
  destruct (handleRefresh (handleFocusSwitch m2 key) key) as [m4 cmd4] eqn:E4.
  destruct (negb (isNil cmd4)) eqn:N4.
  { exists (handleFocusSwitch m2 key). right. left. by rewrite E4. }
  destruct (handleEnter m4 key) as [m5 cmd5] eqn:E5.
  destruct (negb (isNil cmd5)) eqn:N5.
  { exists m4. right. right. left. by rewrite E5. }
  destruct (handleNavigation m5 key) as [m6 cmd6] eqn:E6.
  destruct (negb (isNil cmd6)) eqn:N6.
  { exists m5. right. right. right. left. by rewrite E6. }
  exists m. by repeat right.
Qed.

Lemma handleQuitAndHelp_cmds (m : Model) (key : string) :
  snd (handleQuitAndHelp m key)
  = if String.eqb key "esc" && negb (showHelpDialog m) then [teaQuit] else [].
Proof.
  unfold handleQuitAndHelp. destruct (String.eqb key "esc"); simpl.
  - by destruct (showHelpDialog m).
  - by destruct (_ || _).
Qed.

(** A key issues a request through Confirm only, a fetch otherwise. *)
Lemma handleKey_cmds (m : Model) (k : KeyMsg) (c : Cmd) :
  c ∈ snd (handleKey m k) →
  (c = teaQuit
   ∧ (keyType k = KeyCtrlC ∨ (keyString k = "esc" ∧ showHelpDialog m = false)))
  ∨ isFetch c = true
  ∨ (isMutation c = true ∧ keyType k = KeyOther ∧ keyString k = "enter").
Proof.
  intros Hc. destruct (keyType k) eqn:Hk.
  { unfold handleKey in Hc. rewrite Hk in Hc. simpl in Hc.
    apply list_elem_of_singleton in Hc. left. auto. }
  destruct (handleKey_source m k Hk) as [[Hq Heq] | [Hq (m' & Hsrc)]].
  - rewrite Heq, handleQuitAndHelp_cmds in Hc.
    destruct (String.eqb_spec (keyString k) "esc") as [Hesc | ]; simpl in Hc;
      [ | by apply elem_of_nil in Hc].
    destruct (showHelpDialog m) eqn:Hh; simpl in Hc; [by apply elem_of_nil in Hc | ].
    apply list_elem_of_singleton in Hc. left. auto.
  - right. destruct Hsrc as [H | [H | [H | [H | H]]]]; rewrite H in Hc.
    + left. by apply (fetchOnly_handleTabSwitch m' (keyString k)).
    + left. by apply (fetchOnly_handleRefresh m' (keyString k)).
    + right. split; [by apply (handleEnter_mutation m' (keyString k)) | ].
      split; [done | ]. apply (handleEnter_key m'). intros Hnil.
      rewrite Hnil in Hc. by apply elem_of_nil in Hc.
    + left. by apply (fetchOnly_handleNavigation m' (keyString k)).
    + by apply elem_of_nil in Hc.
Qed.

Lemma fetch_not_mutation (c : Cmd) : isFetch c = true → isMutation c = true → False.
Proof. by destruct c. Qed.

(** Where a request that changes something on the server comes from:
    Confirm on the alternatives, or Confirm on the preference. *)
Lemma Update_mutation_source (m : Model) (msg : Msg) (c : Cmd) :
  c ∈ snd (Update m msg) → isMutation c = true →
  isInputb msg = true
  ∧ ((currentTab m = tabProviders
      ∧ ∃ m0, Update m msg = switchSelection m0
              ∧ currentProviderID m0 = currentProviderID m
              ∧ ∀ id, entry m0 id = entry m id)
     ∨ (currentTab m = tabBalancePreference
        ∧ ∃ m0, Update m msg = toggleBalancePreference m0
                ∧ profile m0 = profile m
                ∧ preferenceSwitching m0 = preferenceSwitching m)).
Proof.
  intros Hc Hmut.
  destruct (isInputb msg) eqn:Hin;
    [ | pose proof (noMutation_result m msg Hin c Hc); congruence].
  split; [done | ].
  assert (Hnil : ∀ A : Prop, c ∈ @nil Cmd → A).
  { intros A H. by apply elem_of_nil in H. }
  assert (Hfetch : ∀ (A : Prop) cmds, fetchOnly cmds → c ∈ cmds → A).
  { intros A cmds Hf H. destruct (fetch_not_mutation c (Hf c H) Hmut). }
  destruct msg as [w h | k | e | | | | | | | | | | | | ]; try done.
  - by apply Hnil.
  - pose proof Hc as Hc'. rewrite Update_key in Hc'.
    destruct (handleKey_cmds m k c Hc') as [[-> _] | [Hf | (_ & Hk & Hs)]];
      [done | destruct (fetch_not_mutation c Hf Hmut) | ].
    assert (keyMsg k = enterKey) as Hk'.
    { destruct k as [t s]. simpl in *. by subst. }
    rewrite Hk' in Hc |- *. clear Hc'.
    rewrite Update_enterKey in Hc |- *.
    destruct (currentTab m); [by apply Hnil | | ].
    + left. split; [done | ]. destruct (focus m); [by apply Hnil | ].
      by exists m.
    + right. split; [done | ]. by exists m.
  - rewrite Update_mouse in Hc |- *.
    unfold handleMouse, handleMouseWheel, handleContentClick in Hc |- *.
    destruct (mouseButton e); try by apply Hnil.
    + destruct (mouseAction e); try by apply Hnil.
      destruct (mouseY e =? _).
      { revert Hc. apply Hfetch. unfold handleTabClick. simpl.
        destruct (_ <? _); [apply fetchOnly_nil | ].
        destruct (_ <? _); [apply fetchOnly_ensureProvidersLoaded | apply fetchOnly_nil]. }
      destruct (mouseY e >=? _); [ | by apply Hnil].
      destruct (currentTab m); [by apply Hnil | | ].
      * left. split; [done | ].
        unfold handleProvidersClick in Hc |- *.
        destruct (len (providers m) =? 0); [by apply Hnil | ].
        destruct (_ <? _).
        { destruct (_ && _); [ | by apply Hnil].
          revert Hc. apply Hfetch, fetchOnly_queue. }
        rewrite ensureProviderState_eq in Hc |- *. cbv iota beta in Hc |- *.
        destruct (alternativesLoaded _); [ | by apply Hnil].
        destruct (_ && _); [ | by apply Hnil].
        eexists. split; [reflexivity | ]. split; [done | ].
        intros id.
        change (lookupEntry (ensured (providerData m) (currentProviderID m)) id
                = entry m id).
        by rewrite lookupEntry_ensured, <- entry_eq.
      * right. split; [done | ].
        unfold handleBalancePreferenceClick in Hc |- *.
        destruct (if _ && _ then Some 0 else _) as [t | ]; [ | by apply Hnil].
        destruct (negb _); [ | by apply Hnil].
        by eexists.
    + destruct (currentTab m).
      * destruct (_ <? _); by apply Hnil.
      * revert Hc. apply Hfetch, fetchOnly_moveSelection.
      * revert Hc. apply Hfetch, fetchOnly_moveSelection.
    + destruct (currentTab m).
      * destruct (_ <? _); by apply Hnil.
      * revert Hc. apply Hfetch, fetchOnly_moveSelection.
      * revert Hc. apply Hfetch, fetchOnly_moveSelection.
Qed.

(** X19. An update issues a switch request only on an input, on the
    providers tab, for the provider under the cursor and an alternative in
    that provider's cached list that is not the selected one, while no
    switch and no load of alternatives is under way for it; the request is
    then the update's only command and the provider's switching flag is set. *)
Theorem switch_requests_are_legitimate (m : Model) (msg : Msg) (G alt : Z) :
  switchProviderCmd G alt ∈ snd (Update m msg) →
  let st := entry m G in
  isInputb msg = true
  ∧ currentTab m = tabProviders
  ∧ G = currentProviderID m
  ∧ G ≠ 0
  ∧ (∃ chosen, chosen ∈ alternatives st ∧ api.altID (api.Alternative chosen) = alt)
  ∧ switching st = false
  ∧ loadingAlternatives st = false
  ∧ (∀ sel, selection st = Some sel → api.SelectedAlternativeID sel ≠ alt)
  ∧ switching (entry (fst (Update m msg)) G) = true
  ∧ snd (Update m msg) = [switchProviderCmd G alt].
Proof.
  intros Hc st.
  destruct (Update_mutation_source m msg _ Hc eq_refl)
    as (Hin & [(Htab & m0 & Hu & Hcur & He) | (Htab & m0 & Hu & _)]).
  - rewrite Hu in Hc |- *.
    destruct (switchSelection_requested m0 _ Hc)
      as (chosen & Hi & Heq & HG & Hsw & Hla & Hsel & Hafter).
    injection Heq as HGeq Halt. rewrite Hcur in HGeq.
    rewrite Hcur, <- HGeq, He in Hi, Hsw, Hla, Hsel, Hafter. rewrite Hcur, <- HGeq in HG.
    fold st in Hi, Hsw, Hla, Hsel, Hafter.
    split; [done | ]. split; [done | ]. split; [done | ]. split; [done | ].
    split.
    { exists chosen. split; [ | done]. unfold index in Hi.
      destruct (altIdx m0 <? 0); [done | ]. by apply list_elem_of_lookup_2 in Hi. }
    split; [done | ]. split; [done | ].
    split; [intros sel Hs; rewrite Halt; by apply Hsel | ].
    split; [by rewrite Hafter | ].
    destruct (switchSelection m0) as [m1 [ | c' cmds]] eqn:Hs;
      [by apply elem_of_nil in Hc | ].
    destruct (switchSelection_issued m0 m1 c' cmds Hs) as (_ & _ & _ & -> & _).
    simpl in Hc |- *. apply list_elem_of_singleton in Hc. by subst.
  - rewrite Hu in Hc.
    by destruct (toggleBalancePreference_requested m0 _ Hc) as (t & p & Heq & _).
Qed.

(** X20. An update issues a preference update only on an input, on the
    balance preference tab, for one of the two known preferences and one
    that differs from the loaded profile's, while no preference update is
    under way; the request is then the update's only command and the
    switching flag is set. *)
Theorem preference_requests_are_legitimate (m : Model) (msg : Msg) (target : string) :
  updatePreferenceCmd target ∈ snd (Update m msg) →
  isInputb msg = true
  ∧ currentTab m = tabBalancePreference
  ∧ (target = "subscription_first" ∨ target = "payg_only")
  ∧ (∃ p, profile m = Some p ∧ api.BalancePreference p ≠ target)
  ∧ preferenceSwitching m = false
  ∧ preferenceSwitching (fst (Update m msg)) = true
  ∧ snd (Update m msg) = [updatePreferenceCmd target].
Proof.
  intros Hc.
  destruct (Update_mutation_source m msg _ Hc eq_refl)
    as (Hin & [(Htab & m0 & Hu & _) | (Htab & m0 & Hu & Hp & Hps)]).
  - rewrite Hu in Hc.
    by destruct (switchSelection_requested m0 _ Hc) as (chosen & _ & Heq & _).
  - rewrite Hu in Hc |- *.
    destruct (toggleBalancePreference_requested m0 _ Hc)
      as (t & p & Heq & Ht & Hprof & Hne & Hsw & Hafter).
    injection Heq as ->. rewrite Hp in Hprof. rewrite Hps in Hsw.
    split; [done | ]. split; [done | ].
    split. { rewrite Ht. destruct (_ =? 0); auto. }
    split; [by exists p | ]. split; [done | ]. split; [done | ].
    revert Hc. unfold toggleBalancePreference.
    destruct (profile m0); [ | intros H; by apply elem_of_nil in H].
    destruct (preferenceSwitching m0); [intros H; by apply elem_of_nil in H | ].
    destruct (String.eqb _ _); [intros H; by apply elem_of_nil in H | ].
    simpl. intros H. apply list_elem_of_singleton in H. by rewrite H.
Qed.

Lemma handleMouse_requests (m : Model) (e : MouseMsg) (c : Cmd) :
  c ∈ snd (handleMouse m e) → isFetch c = true ∨ isMutation c = true.
Proof.
  intros Hc.
  destruct (isMutation c) eqn:Hmut; [by right | left].
  assert (Hnil : ∀ A : Prop, c ∈ @nil Cmd → A).
  { intros A H. by apply elem_of_nil in H. }
  unfold handleMouse, handleMouseWheel, handleContentClick in Hc.
  destruct (mouseButton e); try by apply Hnil.
  - destruct (mouseAction e); try by apply Hnil.
    destruct (mouseY e =? _).
    { revert Hc. unfold handleTabClick. simpl.
      destruct (_ <? _); [by apply Hnil | ].
      destruct (_ <? _); [apply fetchOnly_ensureProvidersLoaded | by apply Hnil]. }
    destruct (mouseY e >=? _); [ | by apply Hnil].
    destruct (currentTab m); [by apply Hnil | | ].
    + unfold handleProvidersClick in Hc.
      destruct (len (providers m) =? 0); [by apply Hnil | ].
      destruct (_ <? _).
      { destruct (_ && _); [ | by apply Hnil]. revert Hc. apply fetchOnly_queue. }
      rewrite ensureProviderState_eq in Hc. cbv iota beta in Hc.
      destruct (alternativesLoaded _); [ | by apply Hnil].
      destruct (_ && _); [ | by apply Hnil].
      destruct (switchSelection_requested _ c Hc) as (ch & _ & Heq & _).
      by rewrite Heq in Hmut.
    + unfold handleBalancePreferenceClick in Hc.
      destruct (if _ && _ then Some 0 else _) as [t | ]; [ | by apply Hnil].
      destruct (negb _); [ | by apply Hnil].
      destruct (toggleBalancePreference_requested _ c Hc) as (t' & p & Heq & _).
      by rewrite Heq in Hmut.
  - destruct (currentTab m).
    + destruct (_ <? _); by apply Hnil.
    + revert Hc. apply fetchOnly_moveSelection.
    + revert Hc. apply fetchOnly_moveSelection.
  - destruct (currentTab m).
    + destruct (_ <? _); by apply Hnil.
    + revert Hc. apply fetchOnly_moveSelection.
    + revert Hc. apply fetchOnly_moveSelection.
Qed.

(** A result issues fetches and timers only. *)
Lemma result_cmds (m : Model) (msg : Msg) (c : Cmd) :
  isInputb msg = false → c ∈ snd (Update m msg) →
  isFetch c = true ∨ isTimer c = true.
Proof.
  intros Hin Hc.
  assert (Hnil : ∀ A : Prop, c ∈ @nil Cmd → A).
  { intros A H. by apply elem_of_nil in H. }
  destruct (isInputb msg) eqn:E; [done | ].
  destruct msg as [w h | k | ev | p | resp | id alts | id sel | id sel | pref
                   | e | id target e | e | | | ]; try done.
  - by apply Hnil.
  - left. revert Hc. unfold Update, handleProvidersLoaded.
    destruct (0 <? len _); [ | by apply Hnil].
    match goal with
    | |- context [queueProviderDetailLoad ?a ?b] =>
        pose proof (fetchOnly_queue a b) as Hq;
        destruct (queueProviderDetailLoad a b) as [m3 cmds]
    end.
    simpl in *. rewrite app_nil_r. apply Hq.
  - destruct (scoped_result_fields m id _ (eq_refl : scopedResult id (alternativesLoadedMsg id alts)))
      as (_ & _ & H). destruct (H c Hc) as [d ->]. by right.
  - destruct (scoped_result_fields m id _ (eq_refl : scopedResult id (selectionLoadedMsg id sel)))
      as (_ & _ & H). destruct (H c Hc) as [d ->]. by right.
  - destruct (scoped_result_fields m id _ (eq_refl : scopedResult id (switchCompletedMsg id sel)))
      as (_ & _ & H). destruct (H c Hc) as [d ->]. by right.
  - right. simpl in Hc. apply list_elem_of_singleton in Hc. by subst.
  - right. simpl in Hc. apply list_elem_of_singleton in Hc. by subst.
  - destruct (scoped_result_fields m id _ (eq_refl : scopedResult id (providerLoadFailedMsg id target e)))
      as (_ & _ & H). destruct (H c Hc) as [d ->]. by right.
  - right. simpl in Hc. apply list_elem_of_singleton in Hc. by subst.
  - by apply Hnil.
  - unfold Update, handleProfileRefreshTick in Hc.
    destruct (currentTab m); simpl in Hc;
      repeat (apply elem_of_cons in Hc as [-> | Hc]; [auto | ]);
      by apply Hnil.
  - right. simpl in Hc. apply list_elem_of_singleton in Hc. by subst.
Qed.

(** X21. An update asks the program to quit exactly when the message is
    Ctrl+C, or Esc with the help dialog closed; no other key, no mouse event
    and no result ever quits. *)
Theorem quit_only_on_request (m : Model) (msg : Msg) :
  teaQuit ∈ snd (Update m msg)
  ↔ ∃ k, msg = keyMsg k
         ∧ (keyType k = KeyCtrlC
            ∨ (keyString k = "esc" ∧ showHelpDialog m = false)).
Proof.
  split.
  - intros Hc. destruct (isInputb msg) eqn:Hin.
    + destruct msg as [w h | k | e | | | | | | | | | | | | ]; try done.
      * by apply elem_of_nil in Hc.
      * exists k. split; [done | ]. rewrite Update_key in Hc.
        by destruct (handleKey_cmds m k _ Hc) as [[_ H] | [H | [H _]]].
      * rewrite Update_mouse in Hc.
        by destruct (handleMouse_requests m e _ Hc).
    + by destruct (result_cmds m msg _ Hin Hc).
  - intros (k & -> & Hk). rewrite Update_key. unfold handleKey.
    destruct (keyType k); [set_solver | ].
    destruct Hk as [ | [Hesc Hh]]; [done | ].
    unfold handleQuitAndHelp. rewrite Hesc, Hh. simpl. set_solver.
Qed.

(** ** Examples *)

Lemma help_dialog_round_trip_witness :
  Update (fst (Update NewModel (key "?"))) (key "?") = (NewModel, []).
Proof.
  destruct (help_dialog_round_trip NewModel "?" (or_introl eq_refl))
    as (_ & _ & H & _).
  exact H.
Defined.

Lemma one_preference_update_in_flight_witness :
  ∃ s, @play plainRenderer initial preferenceConfirmed = Some s
       ∧ preferenceSwitching (model s) = true
       ∧ count isPreferenceUpdate (inflight s) = 1.
Proof.
  destruct (@play plainRenderer initial preferenceConfirmed) as [s | ] eqn:Hplay;
    [ | vm_compute in Hplay; discriminate Hplay].
  exists s. split; [done | ].
  destruct (@one_preference_update_in_flight plainRenderer s
              (script_reachable _ _ Hplay)) as [Heq _].
  vm_compute in Hplay. injection Hplay as <-.
  split; [reflexivity | ]. rewrite Heq. reflexivity.
Defined.

Lemma refresh_timer_always_pending_witness :
  ∃ s, @play plainRenderer initial profileRefreshed = Some s
       ∧ count isRefreshTicker (inflight s) = 1.
Proof.
  destruct (@play plainRenderer initial profileRefreshed) as [s | ] eqn:Hplay;
    [ | vm_compute in Hplay; discriminate Hplay].
  exists s. split; [done | ].
  apply (@refresh_timer_always_pending plainRenderer s (script_reachable _ _ Hplay)).
Defined.

Lemma refresh_mark_cleared_by_outcome_witness :
  ∃ s, @play plainRenderer initial profileRefreshed = Some s
       ∧ manualRefreshingProfile (model s) = true
       ∧ manualRefreshingProfile
           (fst (Update (model s) (errMsg (api.ErrorString "timeout")))) = false.
Proof.
  destruct (@play plainRenderer initial profileRefreshed) as [s | ] eqn:Hplay;
    [ | vm_compute in Hplay; discriminate Hplay].
  exists s. split; [done | ].
  destruct (@refresh_mark_cleared_by_outcome plainRenderer s
              (errMsg (api.ErrorString "timeout")) (script_reachable _ _ Hplay))
    as [_ H].
  split; [ | apply H; right; by eexists].
  vm_compute in Hplay. injection Hplay as <-. reflexivity.
Defined.

Lemma switch_requests_are_legitimate_witness :
  let m := fst (run NewModel (group3Loaded ++ [key "j"])) in
  snd (Update m enterKey) = [switchProviderCmd 3 102]
  ∧ currentProviderID m = 3
  ∧ switching (entry m 3) = false.
Proof.
  intros m.
  assert (switchProviderCmd 3 102 ∈ snd (Update m enterKey)) as Hc.
  { vm_compute. constructor. }
  destruct (switch_requests_are_legitimate m enterKey 3 102 Hc)
    as (_ & _ & HG & _ & _ & Hsw & _ & _ & _ & Hcmds).
  split; [exact Hcmds | ]. split; [by rewrite <- HG | exact Hsw].
Defined.

Lemma preference_requests_are_legitimate_witness :
  let m := fst (run NewModel [profileLoadedMsg demoProfile; key "3"; key "j"]) in
  snd (Update m enterKey) = [updatePreferenceCmd "payg_only"]
  ∧ preferenceSwitching m = false.
Proof.
  intros m.
  assert (updatePreferenceCmd "payg_only" ∈ snd (Update m enterKey)) as Hc.
  { vm_compute. constructor. }
  destruct (preference_requests_are_legitimate m enterKey "payg_only" Hc)
    as (_ & _ & _ & _ & Hsw & _ & Hcmds).
  split; [exact Hcmds | exact Hsw].
Defined.

(** * The view *)


Lemma splitLines_from_newline (cur x y : string) :
  splitLines_from cur (x ++ String (ascii_of_nat 10) y)
  = (splitLines_from cur x ++ splitLines_from "" y)%list.
Proof.
  revert cur. induction x as [ | c x IH]; intros cur; simpl; [done | ].
  destruct (Ascii.eqb c _); simpl; by rewrite IH.
Qed.

Lemma append_nil_r (s : string) : s ++ "" = s.
Proof.
  induction s as [ | c s IH]; [done | ].
  change (String c (s ++ "") = String c s). by rewrite IH.
Qed.

Lemma append_assoc (a b c : string) : (a ++ b) ++ c = a ++ (b ++ c).
Proof.
  induction a as [ | x a IH]; [done | ].
  change (String x ((a ++ b) ++ c) = String x (a ++ (b ++ c))). by rewrite IH.
Qed.

Lemma splitLines_from_single (cur s : string) :
  singleLine s = true → splitLines_from cur s = [cur ++ s].
Proof.
  revert cur. induction s as [ | c s IH]; intros cur.
  - intros _. simpl. f_equal. symmetry. apply append_nil_r.
  - simpl. destruct (Ascii.eqb c _); simpl; [done | ].
    intros H. rewrite (IH _ H). f_equal. apply append_assoc.
Qed.

Lemma splitLines_single (s : string) : singleLine s = true → splitLines s = [s].
Proof. apply (splitLines_from_single ""). Qed.

(** The lines of sections joined by an empty line. *)
Lemma splitLines_blank (x y : string) :
  splitLines (x ++ (newline ++ newline) ++ y)
  = (splitLines x ++ "" :: splitLines y)%list.
Proof.
  unfold splitLines.
  change ((newline ++ newline) ++ y)
    with (String (ascii_of_nat 10) (String (ascii_of_nat 10) y)).
  rewrite splitLines_from_newline. done.
Qed.

(** The lines of lines joined by a line feed. *)
Lemma splitLines_join (rows : list string) :
  rows ≠ [] → forallb singleLine rows = true →
  splitLines (join rows newline) = rows.
Proof.
  induction rows as [ | r rows IH]; [done | ]. intros _ H.
  simpl in H. apply andb_true_iff in H as [Hr Hrows].
  destruct rows as [ | r' rows]; [by apply splitLines_single | ].
  change (join (r :: r' :: rows) newline)
    with (r ++ String (ascii_of_nat 10) (join (r' :: rows) newline)).
  unfold splitLines. rewrite splitLines_from_newline.
  rewrite (splitLines_from_single "" r Hr). simpl app.
  f_equal. by apply IH.
Qed.

Section ScreenFacts.

Context `{R : Renderer} `{L : Lipgloss}.

Lemma View_lines (m : Model) :
  showHelpDialog m = false →
  splitLines (View m)
  = (splitLines (renderTitle (width m) "◆ YesCode TUI ◆")
     ++ "" :: splitLines
                (renderHint (width m)
                   "支持鼠标操作 · Enter 确认 · Esc 退出 · 输入 ? 查看完整操作帮助")
     ++ "" :: splitLines (renderTabHeader m)
     ++ "" :: splitLines (viewContent m)
     ++ "" :: splitLines (renderStatus (viewStatusText m)))%list.
Proof.
  intros Hh. unfold View. rewrite Hh. unfold viewSections.
  cbn [join]. by rewrite !splitLines_blank.
Qed.

Lemma View_content_row (m : Model) (i : nat) :
  showHelpDialog m = false →
  singleLine (renderTitle (width m) "◆ YesCode TUI ◆") = true →
  singleLine
    (renderHint (width m)
       "支持鼠标操作 · Enter 确认 · Esc 退出 · 输入 ? 查看完整操作帮助") = true →
  singleLine (renderTabHeader m) = true →
  (i < length (splitLines (viewContent m)))%nat →
  index (splitLines (View m)) (contentStartY getUILayout + Z.of_nat i)
  = splitLines (viewContent m) !! i.
Proof.
  intros Hh Ht Hi Hb Hlt. rewrite (View_lines m Hh).
  rewrite (splitLines_single _ Ht), (splitLines_single _ Hi),
    (splitLines_single _ Hb).
  unfold index. change (contentStartY getUILayout) with 6.
  destruct (Z.ltb_spec (6 + Z.of_nat i) 0); [lia | ].
  replace (Z.to_nat (6 + Z.of_nat i)) with (6 + i)%nat by lia.
  simpl. by rewrite lookup_app_l.
Qed.

(** X22. With the help dialog closed and the title, the hint and the tab
    header each rendered on one line, the rows of the view are where
    getUILayout says they are: the title on row 0, the hint on row 2, the
    tab header on row 4, and the rows of the tab's content from row 6 on. *)
Theorem view_rows_match_layout (m : Model) :
  let title := renderTitle (width m) "◆ YesCode TUI ◆" in
  let hint :=
    renderHint (width m)
      "支持鼠标操作 · Enter 确认 · Esc 退出 · 输入 ? 查看完整操作帮助" in
  let rows := splitLines (View m) in
  showHelpDialog m = false →
  singleLine title = true →
  singleLine hint = true →
  singleLine (renderTabHeader m) = true →
  index rows (titleLineY getUILayout) = Some title
  ∧ index rows (helpLineY getUILayout) = Some hint
  ∧ index rows (tabHeaderY getUILayout) = Some (renderTabHeader m)
  ∧ ∀ i : nat,
      (i < length (splitLines (viewContent m)))%nat →
      index rows (contentStartY getUILayout + Z.of_nat i)
      = splitLines (viewContent m) !! i.
Proof.
  intros title hint rows Hh Ht Hi Hb.
  assert (∀ i : nat,
            (i < length (splitLines (viewContent m)))%nat →
            index rows (contentStartY getUILayout + Z.of_nat i)
            = splitLines (viewContent m) !! i) as Hcontent.
  { intros i Hlt. by apply View_content_row. }
  unfold rows in *. rewrite (View_lines m Hh). fold title. fold hint.
  rewrite (splitLines_single title Ht), (splitLines_single hint Hi),
    (splitLines_single _ Hb).
  split; [done | ]. split; [done | ]. split; [done | ].
  rewrite (View_lines m Hh) in Hcontent. fold title in Hcontent. fold hint in Hcontent.
  rewrite (splitLines_single title Ht), (splitLines_single hint Hi),
    (splitLines_single _ Hb) in Hcontent.
  exact Hcontent.
Qed.

Lemma click_preference (m : Model) (x y : Z) :
  currentTab m = tabBalancePreference →
  y < 2 ^ 63 →
  Update m (click x y)
  = if (6 <=? y) && (y <=? 8) then selectPreference m 0
    else if (10 <=? y) && (y <=? 12) then selectPreference m 1
    else if y =? 4 then handleTabClick m x
    else (m, []).
Proof.
  intros Htab Hy. unfold click. rewrite Update_mouse. unfold handleMouse.
  cbn [mouseButton mouseAction mouseX mouseY].
  change (tabHeaderY getUILayout) with 4. change (contentStartY getUILayout) with 6.
  destruct (Z.eqb_spec y 4) as [-> | Hne4]; [done | ].
  destruct (Z.geb_spec y 6) as [Hge | Hlt].
  - unfold handleContentClick. rewrite Htab.
    change (contentStartY getUILayout) with 6.
    unfold int_sub. rewrite wrap64_small by lia.
    unfold handleBalancePreferenceClick, selectPreference.
    destruct (Z.leb_spec 6 y); [ | lia]. simpl.
    destruct (Z.geb_spec (y - 6) 0); [ | lia]. simpl.
    destruct (Z.leb_spec (y - 6) 2), (Z.leb_spec y 8); try lia.
    { by destruct (balancePreferenceIdx m =? 0). }
    destruct (Z.geb_spec (y - 6) 4), (Z.leb_spec 10 y); try lia; simpl; [ | done].
    destruct (Z.leb_spec (y - 6) 6), (Z.leb_spec y 12); try lia; [ | done].
    by destruct (balancePreferenceIdx m =? 1).
  - destruct (Z.leb_spec 6 y); [lia | ]. simpl.
    destruct (Z.leb_spec 10 y); [lia | ]. done.
Qed.

(** X23. On the balance preference tab a click on one of the first three
    content rows selects the first option, a click on one of the three rows
    after the next selects the second, and a click on the row between them
    or below the second option does nothing, whatever is on the screen. With
    a profile loaded, the help dialog closed and the title, the hint, the
    tab header and the option rows each rendered on one line, those are
    exactly the screen rows on which the view shows the two options, with a
    blank row between; with the help dialog open the view is the dialog
    alone. *)
Theorem preference_rows_match_clicks (m : Model) (p : api.Profile) (x : Z) :
  let rows := splitLines (View m) in
  let start := contentStartY getUILayout in
  currentTab m = tabBalancePreference →
  ((∀ i : nat, (i < 3)%nat →
      Update m (click x (start + Z.of_nat i)) = selectPreference m 0)
   ∧ (∀ i : nat, (i < 3)%nat →
        Update m (click x (start + 4 + Z.of_nat i)) = selectPreference m 1)
   ∧ (∀ y, y = start + 3 ∨ start + 7 ≤ y < 2 ^ 63 →
        Update m (click x y) = (m, [])))
  ∧ (profile m = Some p →
     showHelpDialog m = false →
     singleLine (renderTitle (width m) "◆ YesCode TUI ◆") = true →
     singleLine
       (renderHint (width m)
          "支持鼠标操作 · Enter 确认 · Esc 退出 · 输入 ? 查看完整操作帮助") = true →
     singleLine (renderTabHeader m) = true →
     forallb singleLine (preferenceRows m p) = true →
     (∀ i : nat, (i < 3)%nat →
        index rows (start + Z.of_nat i) = preferenceOption m p 0 !! i)
     ∧ (∀ i : nat, (i < 3)%nat →
          index rows (start + 4 + Z.of_nat i) = preferenceOption m p 1 !! i)
     ∧ index rows (start + 3) = Some "")
  ∧ (showHelpDialog m = true →
     View m = place (width m) (height m) (renderHelpDialog m)).
Proof.
  intros rows start Htab.
  unfold start in *. change (contentStartY getUILayout) with 6 in *.
  split; [ | split].
  - split; [ | split].
    + intros i Hlt. rewrite (click_preference m x _ Htab) by lia.
      destruct (Z.leb_spec 6 (6 + Z.of_nat i)), (Z.leb_spec (6 + Z.of_nat i) 8);
        try lia. done.
    + intros i Hlt. rewrite (click_preference m x _ Htab) by lia.
      destruct (Z.leb_spec 6 (6 + 4 + Z.of_nat i)),
        (Z.leb_spec (6 + 4 + Z.of_nat i) 8); try lia.
      destruct (Z.leb_spec 10 (6 + 4 + Z.of_nat i)),
        (Z.leb_spec (6 + 4 + Z.of_nat i) 12); try lia. done.
    + intros y Hy. rewrite (click_preference m x y Htab) by lia.
      destruct (Z.leb_spec 6 y), (Z.leb_spec y 8); simpl; try lia;
        destruct (Z.leb_spec 10 y), (Z.leb_spec y 12); simpl; try lia;
        destruct (Z.eqb_spec y 4); try lia; done.
  - intros Hp Hh Ht Hi Hb Hrows.
    assert (splitLines (viewContent m) = preferenceRows m p) as Hcontent.
    { unfold viewContent, renderBalancePreferenceTab. rewrite Htab, Hp.
      by apply splitLines_join. }
    assert (Hrow : ∀ i : nat, (i < 7)%nat →
              index rows (6 + Z.of_nat i) = preferenceRows m p !! i).
    { intros i Hlt. rewrite <- Hcontent.
      apply (View_content_row m i Hh Ht Hi Hb). rewrite Hcontent.
      unfold preferenceRows, preferenceOption, optionRows. simpl. lia. }
    assert (Hlen : ∀ t, length (preferenceOption m p t) = 3%nat).
    { intros t. unfold preferenceOption. by destruct (t =? 0). }
    split; [ | split].
    + intros i Hlt. rewrite (Hrow i) by lia. unfold preferenceRows.
      rewrite lookup_app_l; [done | rewrite Hlen; lia].
    + intros i Hlt.
      replace (6 + 4 + Z.of_nat i) with (6 + Z.of_nat (4 + i)) by lia.
      rewrite (Hrow (4 + i)%nat) by lia. unfold preferenceRows.
      rewrite lookup_app_r; rewrite Hlen; [ | lia].
      by replace (4 + i - 3)%nat with (S i) by lia.
    + change (6 + 3) with (6 + Z.of_nat 3). rewrite (Hrow 3%nat) by lia.
      unfold preferenceRows. rewrite lookup_app_r; rewrite Hlen; [done | lia].
  - intros Hh. unfold View. by rewrite Hh.
Qed.



End ScreenFacts.

Lemma view_rows_match_layout_witness :
  let m := fst (run NewModel preferenceTabShown) in
  index (splitLines (@View plainRenderer plainLipgloss m)) 4
  = Some "1. 用户资料 2. 提供商 3. 余额使用偏好"
  ∧ index (splitLines (@View plainRenderer plainLipgloss m)) 6
    = Some "▶ 优先订阅 ✓".
Proof.
  intros m.
  destruct (@view_rows_match_layout plainRenderer plainLipgloss m)
    as (_ & _ & H4 & H6); try (vm_compute; reflexivity).
  change (tabHeaderY getUILayout) with 4 in H4.
  split; [rewrite H4; vm_compute; reflexivity | ].
  assert (0 < length (splitLines (@viewContent plainRenderer plainLipgloss m)))%nat
    as Hlt by (vm_compute; lia).
  specialize (H6 0%nat Hlt).
  change (contentStartY getUILayout + Z.of_nat 0) with 6 in H6.
  rewrite H6. vm_compute. reflexivity.
Defined.

(** The preference tab of the demo profile: the second option is on row 10
    and a click there asks for it; with the help dialog open over the tab
    the same click still does. *)
Lemma preference_rows_match_clicks_witness :
  let m := fst (run NewModel preferenceTabShown) in
  let covered := fst (run NewModel (preferenceTabShown ++ [key "?"])) in
  index (splitLines (@View plainRenderer plainLipgloss m)) 10 = Some "  仅按需付费"
  ∧ snd (Update m (click 3 10)) = [updatePreferenceCmd "payg_only"]
  ∧ showHelpDialog covered = true
  ∧ snd (Update covered (click 3 10)) = [updatePreferenceCmd "payg_only"].
Proof.
  intros m covered.
  destruct (@preference_rows_match_clicks plainRenderer plainLipgloss m
              demoProfile 3 eq_refl) as ((_ & Hclick & _) & Hrows & _).
  destruct (@preference_rows_match_clicks plainRenderer plainLipgloss covered
              demoProfile 3 eq_refl) as ((_ & Hcovered & _) & _ & _).
  destruct Hrows as (_ & Hrow & _); try (vm_compute; reflexivity).
  split.
  { change 10 with (contentStartY getUILayout + 4 + Z.of_nat 0).
    rewrite (Hrow 0%nat) by lia. vm_compute. reflexivity. }
  split.
  { change 10 with (contentStartY getUILayout + 4 + Z.of_nat 0).
    rewrite (Hclick 0%nat) by lia. vm_compute. reflexivity. }
  split; [vm_compute; reflexivity | ].
  change 10 with (contentStartY getUILayout + 4 + Z.of_nat 0).
  rewrite (Hcovered 0%nat) by lia. vm_compute. reflexivity.
Defined.


(** * Keys and mouse *)











(** X26. A click on the tab header row does exactly what the number key of
    the tab under the click does: '1' left of the end of the first label,
    '2' left of the end of the second, '3' elsewhere. *)
Theorem tab_click_is_number_key (m : Model) (x : Z) :
  Update m (click x (tabHeaderY getUILayout)) = Update m (key (tabKeyAt x)).
Proof.
  unfold click, key. rewrite Update_mouse, Update_key.
  unfold handleMouse, handleKey, handleTabClick, tabKeyAt. simpl.
  destruct (x <? tab1Width) eqn:H1; [done | ].
  destruct (x <? tab1Width + tab2Width) eqn:H2.
  - simpl. unfold handleTabSwitch. simpl.
    destruct (ensureProvidersLoaded _) as [m1 cmds] eqn:He.
    destruct cmds as [ | c cmds]; simpl; [ | done].
    unfold ensureProvidersLoaded in He.
    destruct (_ || _) in He; [ | done].
    injection He as <-. done.
  - simpl. unfold handleFocusSwitch, syncBalancePreferenceIdx. simpl.
    destruct (profile m) as [p | ]; [ | done].
    by destruct (String.eqb (api.BalancePreference p) "payg_only").
Qed.



